(** * Pixel art editor: layers, flood fill, picker, resize and history

    A shallow embedding of [src/components/pixel-art-editor.tsx].

    The component keeps its document in React state hooks and edits pixel
    grids that are ordinary JavaScript arrays.  Three features of the source
    shape the model:

    - a handler reads the state captured by its closure (the rendered state)
      and schedules the next state through setter calls;
    - grid arrays are objects: [floodFill] writes into the grid object that
      the rendered [layers] array refers to, whereas the pencil writes into a
      fresh copy.  Grids therefore live in a store and a layer holds a
      reference to its grid;
    - history entries are made by [JSON.parse(JSON.stringify(..))], i.e. they
      are values that share nothing with the live document. *)

From stdpp Require Import base numbers list strings pretty.
From Stdlib Require Import QArith Qminmax Lqa.

Open Scope Z_scope.

(** ** Types of the source *)

(** [type PixelGrid = string[][]]: hex codes, or the empty string. *)
Abbreviation PixelGrid := (list (list string)).

(** [interface Layer].  The field [grid] is a reference into the store for a
    live layer ([Layer loc]) and the grid itself in a JSON snapshot
    ([Layer PixelGrid]). *)
Record Layer (G : Type) : Type := mkLayer {
  id : string;
  name : string;
  visible : bool;
  opacity : Z;
  grid : G
}.
Arguments mkLayer {G} _ _ _ _ _.
Arguments id {G} _.
Arguments name {G} _.
Arguments visible {G} _.
Arguments opacity {G} _.
Arguments grid {G} _.

Inductive Tool : Type := pencil | eraser | bucket | picker.

(** [interface HistoryState] *)
Record HistoryState : Type := mkHistoryState {
  layers : list (Layer PixelGrid);
  gridSize : Z
}.

Definition DEFAULT_GRID_SIZE : Z := 16.
Definition MAX_HISTORY : Z := 20.

(** Grid objects are allocated in order; a reference is the allocation
    index. *)
Abbreviation loc := nat.

(** The state hooks of [PixelArtEditor] that the editing logic uses. *)
Record Ui : Type := mkUi {
  st_gridSize : Z;
  st_layers : list (Layer loc);
  st_activeLayerId : string;
  st_selectedColor : string;
  st_tool : Tool;
  st_isDrawing : bool;
  st_history : list HistoryState;
  st_historyIndex : Z
}.

(** The store of grid objects together with the state that the setters have
    scheduled so far. *)
Record World : Type := mkWorld {
  heap : list PixelGrid;
  ui : Ui
}.

(** ** Outcomes of running a piece of the source *)

Inductive jsError : Type :=
| TypeError    (* property access on [undefined] *)
| RangeError.  (* [Array(n)] with an invalid length *)

Inductive stuck : Type :=
| OutOfFuel    (* the recursion bound of the model was reached *)
| IllTyped.    (* the source continues with a value outside its declared
                  types ([undefined] or a hole stored in a [string[][]]);
                  such runs are not followed *)

Inductive run (A : Type) : Type :=
| Ret (a : A)
| Throw (e : jsError)
| Stuck (s : stuck).
Arguments Ret {A} _.
Arguments Throw {A} _.
Arguments Stuck {A} _.

(** Handler code: a state transformer over [World] that may throw. *)
Definition M (A : Type) : Type := World → run (A * World).

Definition ret {A} (a : A) : M A := λ w, Ret (a, w).

Definition bind {A B} (m : M A) (k : A → M B) : M B :=
  λ w, match m w with
       | Ret (a, w') => k a w'
       | Throw e => Throw e
       | Stuck s => Stuck s
       end.

Definition throw {A} (e : jsError) : M A := λ _, Throw e.
Definition halt {A} (s : stuck) : M A := λ _, Stuck s.

Declare Scope js_scope.
Delimit Scope js_scope with js.
Notation "'do' x <- m ; k" := (bind m (λ x, k))
  (at level 10, x name, m at level 100, k at level 200,
   format "'[v' 'do'  x  <-  m ; '/' k ']'") : js_scope.
Notation "m ;; k" := (bind m (λ _, k))
  (at level 100, k at level 200, right associativity,
   format "'[v' m ;; '/' k ']'") : js_scope.
Open Scope js_scope.

(** ** JavaScript arrays *)

(** [a[i]] for an integer [i]: [None] is [undefined]. *)
Definition js_get {A} (a : list A) (i : Z) : option A :=
  if bool_decide (0 ≤ i) then a !! Z.to_nat i else None.

(** [a.slice(0, e)] *)
Definition js_slice0 {A} (a : list A) (e : Z) : list A :=
  let len := Z.of_nat (length a) in
  let k := if bool_decide (e < 0) then Z.max (len + e) 0 else Z.min e len in
  take (Z.to_nat k) a.

(** Truthiness of a value of type [string | undefined]. *)
Definition truthy (v : option string) : bool :=
  match v with
  | Some s => negb (bool_decide (s = EmptyString))
  | None => false
  end.

(** [createEmptyGrid]: [Array(size)] throws a [RangeError] unless [size] is
    an array length. *)
Definition createEmptyGrid (size : Z) : run PixelGrid :=
  if bool_decide (0 ≤ size < 2 ^ 32)
  then Ret (replicate (Z.to_nat size) (replicate (Z.to_nat size) EmptyString))
  else Throw RangeError.

(** ** The store *)

(** A new array object. *)
Definition alloc (g : PixelGrid) : M loc :=
  λ w, Ret (length (heap w), mkWorld (heap w ++ [g]) (ui w)).

(** The array object behind a reference.  Every reference a layer holds was
    allocated, so the lookup of a reference that was never allocated has no
    counterpart in the source. *)
Definition deref (l : loc) : M PixelGrid :=
  λ w, match heap w !! l with
       | Some g => Ret (g, w)
       | None => Stuck IllTyped
       end.

(** [grid[y][x]] as an expression: [grid[y]] must be a row. *)
Definition readCell (l : loc) (x y : Z) : M (option string) :=
  do g <- deref l;
  match js_get g y with
  | None => throw TypeError
  | Some row => ret (js_get row x)
  end.

(** The grid after [row[x] = c], where [row] is its row [y] and [x] is
    inside the row. *)
Definition setCell (g : PixelGrid) (x y : Z) (c : string) (row : list string) : PixelGrid :=
  <[Z.to_nat y := <[Z.to_nat x := c]> row]> g.

(** [grid[y][x] = c].  A write past the end of a row would extend the row
    and leave holes. *)
Definition writeCell (l : loc) (x y : Z) (c : string) : M unit :=
  do g <- deref l;
  match js_get g y with
  | None => throw TypeError
  | Some row =>
      if bool_decide (0 ≤ x < Z.of_nat (length row))
      then λ w, Ret (tt, mkWorld (<[l := setCell g x y c row]> (heap w)) (ui w))
      else halt IllTyped
  end.

(** ** Setters of the state hooks *)

(** The state with one hook replaced. *)
Definition with_gridSize (v : Z) (u : Ui) : Ui :=
  mkUi v (st_layers u) (st_activeLayerId u) (st_selectedColor u)
       (st_tool u) (st_isDrawing u) (st_history u) (st_historyIndex u).
Definition with_layers (v : list (Layer loc)) (u : Ui) : Ui :=
  mkUi (st_gridSize u) v (st_activeLayerId u) (st_selectedColor u)
       (st_tool u) (st_isDrawing u) (st_history u) (st_historyIndex u).
Definition with_activeLayerId (v : string) (u : Ui) : Ui :=
  mkUi (st_gridSize u) (st_layers u) v (st_selectedColor u)
       (st_tool u) (st_isDrawing u) (st_history u) (st_historyIndex u).
Definition with_selectedColor (v : string) (u : Ui) : Ui :=
  mkUi (st_gridSize u) (st_layers u) (st_activeLayerId u) v
       (st_tool u) (st_isDrawing u) (st_history u) (st_historyIndex u).
Definition with_tool (v : Tool) (u : Ui) : Ui :=
  mkUi (st_gridSize u) (st_layers u) (st_activeLayerId u) (st_selectedColor u)
       v (st_isDrawing u) (st_history u) (st_historyIndex u).
Definition with_isDrawing (v : bool) (u : Ui) : Ui :=
  mkUi (st_gridSize u) (st_layers u) (st_activeLayerId u) (st_selectedColor u)
       (st_tool u) v (st_history u) (st_historyIndex u).
Definition with_history (v : list HistoryState) (u : Ui) : Ui :=
  mkUi (st_gridSize u) (st_layers u) (st_activeLayerId u) (st_selectedColor u)
       (st_tool u) (st_isDrawing u) v (st_historyIndex u).
Definition with_historyIndex (v : Z) (u : Ui) : Ui :=
  mkUi (st_gridSize u) (st_layers u) (st_activeLayerId u) (st_selectedColor u)
       (st_tool u) (st_isDrawing u) (st_history u) v.

(** A setter call replaces what is scheduled for its hook; the state the
    closure captured stays as it is. *)
Definition schedule (f : Ui → Ui) : M unit :=
  λ w, Ret (tt, mkWorld (heap w) (f (ui w))).

Definition setGridSize (v : Z) : M unit := schedule (with_gridSize v).
Definition setLayers (v : list (Layer loc)) : M unit := schedule (with_layers v).
Definition setActiveLayerId (v : string) : M unit := schedule (with_activeLayerId v).
Definition setSelectedColor (v : string) : M unit := schedule (with_selectedColor v).
Definition setTool (v : Tool) : M unit := schedule (with_tool v).
Definition setIsDrawing (v : bool) : M unit := schedule (with_isDrawing v).
Definition setHistory (v : list HistoryState) : M unit := schedule (with_history v).
Definition setHistoryIndex (v : Z) : M unit := schedule (with_historyIndex v).

(** ** Flood fill *)

(** [floodFill], lines 159-177.  [st] is the state the closure captured;
    [targetColor] is a [string] by its declared type but receives whatever
    [grid[y][x]] evaluated to.  [[...layers]] copies the array of layers, not
    the layers: [newLayers[layerIndex].grid] is the grid object of the
    rendered state.  The source recurses on the call stack; [fuel] bounds
    how deep the calls of the model may nest. *)
Fixpoint floodFill (fuel : nat) (st : Ui) (layerIndex x y : Z)
    (targetColor : option string) (replacementColor : string) : M unit :=
  match fuel with
  | O => halt OutOfFuel
  | S fuel =>
    if bool_decide (targetColor = Some replacementColor) then ret tt else
    if bool_decide (x < 0 ∨ x >= st_gridSize st ∨ y < 0 ∨ y >= st_gridSize st) then ret tt else
    let newLayers := st_layers st in
    match js_get newLayers layerIndex with
    | None => throw TypeError
    | Some layer =>
      let grid_ := grid layer in
      do currentColor <- readCell grid_ x y;
      if bool_decide (currentColor ≠ targetColor) then ret tt else
      writeCell grid_ x y replacementColor;;
      floodFill fuel st layerIndex (x + 1) y targetColor replacementColor;;
      floodFill fuel st layerIndex (x - 1) y targetColor replacementColor;;
      floodFill fuel st layerIndex x (y + 1) targetColor replacementColor;;
      floodFill fuel st layerIndex x (y - 1) targetColor replacementColor;;
      setLayers newLayers
    end
  end.

(** ** Deep copies through JSON *)

(** [l.map(f)] for a callback with effects. *)
Fixpoint traverse {A B} (f : A → M B) (l : list A) : M (list B) :=
  match l with
  | [] => ret []
  | a :: l => do b <- f a; do bs <- traverse f l; ret (b :: bs)
  end.

(** [JSON.stringify] of the live layers: the text holds the contents of
    every grid, not the grid objects. *)
Definition stringify (ls : list (Layer loc)) : M (list (Layer PixelGrid)) :=
  traverse (λ l, do g <- deref (grid l);
             ret (mkLayer (id l) (name l) (visible l) (opacity l) g)) ls.

(** [JSON.parse] builds new objects. *)
Definition parse (ls : list (Layer PixelGrid)) : M (list (Layer loc)) :=
  traverse (λ l, do r <- alloc (grid l);
             ret (mkLayer (id l) (name l) (visible l) (opacity l) r)) ls.

(** ** History management *)

(** The effect that initializes the history, lines 104-110. *)
Definition initHistory (st : Ui) : M unit :=
  if bool_decide (length (st_history st) = 0%nat) then
    do snap <- stringify (st_layers st);
    let initialState := mkHistoryState snap (st_gridSize st) in
    setHistory [initialState];;
    setHistoryIndex 0
  else ret tt.

(** [addToHistory], lines 114-125.  The entry keeps the parsed copy, which
    nothing else refers to; it is kept here as the value it holds. *)
Definition addToHistory (st : Ui) (newLayers : list (Layer loc)) (newGridSize : Z) : M unit :=
  do snap <- stringify newLayers;
  let newState := mkHistoryState snap newGridSize in
  let newHistory := js_slice0 (st_history st) (st_historyIndex st + 1) ++ [newState] in
  let newHistory :=
    if bool_decide (Z.of_nat (length newHistory) > MAX_HISTORY)
    then drop 1 newHistory else newHistory in
  setHistory newHistory;;
  setHistoryIndex (Z.of_nat (length newHistory) - 1).

(** [undo], lines 127-134 *)
Definition undo (st : Ui) : M unit :=
  if bool_decide (st_historyIndex st > 0) then
    match js_get (st_history st) (st_historyIndex st - 1) with
    | None => throw TypeError
    | Some prevState =>
        do ls <- parse (layers prevState);
        setLayers ls;;
        setGridSize (gridSize prevState);;
        setHistoryIndex (st_historyIndex st - 1)
    end
  else ret tt.

(** [redo], lines 136-143 *)
Definition redo (st : Ui) : M unit :=
  if bool_decide (st_historyIndex st < Z.of_nat (length (st_history st)) - 1) then
    match js_get (st_history st) (st_historyIndex st + 1) with
    | None => throw TypeError
    | Some nextState =>
        do ls <- parse (layers nextState);
        setLayers ls;;
        setGridSize (gridSize nextState);;
        setHistoryIndex (st_historyIndex st + 1)
    end
  else ret tt.

(** ** Drawing *)

(** [layers.findIndex(p)]: the first index whose element satisfies [p], or
    [-1]. *)
Fixpoint findIndex {A} (p : A → bool) (l : list A) : Z :=
  match l with
  | [] => -1
  | a :: l => if p a then 0 else
                let i := findIndex p l in
                if bool_decide (i = -1) then -1 else i + 1
  end.

(** The loop of the picker, lines 190-196, about to run with [i = n - 1]. *)
Fixpoint pickLoop (st : Ui) (x y : Z) (n : nat) : M unit :=
  match n with
  | O => ret tt
  | S i =>
      match st_layers st !! i with
      | None => throw TypeError
      | Some l =>
          if visible l then
            do c <- readCell (grid l) x y;
            match c with
            | Some s =>
                if truthy (Some s) then setSelectedColor s;; setTool pencil
                else pickLoop st x y i
            | None => pickLoop st x y i
            end
          else pickLoop st x y i
      end
  end.

Definition is_bucket (t : Tool) : bool := match t with bucket => true | _ => false end.
Definition is_picker (t : Tool) : bool := match t with picker => true | _ => false end.
Definition is_pencil (t : Tool) : bool := match t with pencil => true | _ => false end.
Definition is_eraser (t : Tool) : bool := match t with eraser => true | _ => false end.

(** The number of cells of a grid.  [floodFill] recolours one cell of the
    target colour per nested call, so one more than this is fuel enough
    ([handleDraw_fueled]). *)
Definition cellCount (g : PixelGrid) : nat := length (concat g).

(** [handleDraw], lines 179-215 *)
Definition handleDraw (st : Ui) (x y : Z) (isClick : bool) : M unit :=
  if bool_decide (x < 0 ∨ x >= st_gridSize st ∨ y < 0 ∨ y >= st_gridSize st) then ret tt else
  let layerIndex := findIndex (λ l, bool_decide (id l = st_activeLayerId st)) (st_layers st) in
  if bool_decide (layerIndex = -1) then ret tt else
  match js_get (st_layers st) layerIndex with
  | None => throw TypeError
  | Some currentLayer =>
    if negb (visible currentLayer) then ret tt else
    if is_picker (st_tool st) then
      pickLoop st x y (length (st_layers st))
    else
      (* Clone layers for mutation *)
      do g <- deref (grid currentLayer);
      do copy <- alloc g;
      let newLayers :=
        <[Z.to_nat layerIndex :=
            mkLayer (id currentLayer) (name currentLayer) (visible currentLayer)
                    (opacity currentLayer) copy]> (st_layers st) in
      if is_bucket (st_tool st) && isClick then
        do targetColor <- readCell copy x y;
        floodFill (S (cellCount g)) st layerIndex x y targetColor (st_selectedColor st);;
        addToHistory st newLayers (st_gridSize st)
      else if is_pencil (st_tool st) || is_eraser (st_tool st) then
        let color := if is_eraser (st_tool st) then EmptyString else st_selectedColor st in
        do cur <- readCell copy x y;
        if bool_decide (cur ≠ Some color) then
          writeCell copy x y color;;
          setLayers newLayers
        else ret tt
      else ret tt
  end.

(** [handlePointerDown] and [handlePointerUp], once the pointer position has
    been turned into a cell. *)
Definition handlePointerDown (st : Ui) (x y : Z) : M unit :=
  setIsDrawing true;;
  handleDraw st x y true.

Definition handlePointerMove (st : Ui) (x y : Z) : M unit :=
  if negb (st_isDrawing st) then ret tt else handleDraw st x y false.

Definition handlePointerUp (st : Ui) : M unit :=
  if st_isDrawing st then
    setIsDrawing false;;
    addToHistory st (st_layers st) (st_gridSize st)
  else ret tt.

(** ** Layer management *)

(** [addLayer], lines 238-250.  [newId] is what [generateId()] returned: the
    source draws it from [Math.random()]. *)
Definition addLayer (st : Ui) (newId : string) : M unit :=
  do newGrid <-
    match createEmptyGrid (st_gridSize st) with
    | Ret g => alloc g
    | Throw e => throw e
    | Stuck s => halt s
    end;
  let newLayer :=
    mkLayer newId ("Layer " +:+ pretty (length (st_layers st) + 1)%nat) true 100 newGrid in
  let newLayers := st_layers st ++ [newLayer] in
  setLayers newLayers;;
  setActiveLayerId (id newLayer);;
  addToHistory st newLayers (st_gridSize st).

(** [deleteLayer], lines 252-260 *)
Definition deleteLayer (st : Ui) (id_ : string) : M unit :=
  if bool_decide (Z.of_nat (length (st_layers st)) ≤ 1) then ret tt else
  let newLayers := filter (λ l, id l ≠ id_) (st_layers st) in
  setLayers newLayers;;
  (if bool_decide (st_activeLayerId st = id_) then
     match js_get newLayers (Z.of_nat (length newLayers) - 1) with
     | None => throw TypeError
     | Some l => setActiveLayerId (id l)
     end
   else ret tt);;
  addToHistory st newLayers (st_gridSize st).

(** [toggleLayerVisibility], lines 262-266 *)
Definition toggleLayerVisibility (st : Ui) (id_ : string) : M unit :=
  let newLayers :=
    map (λ l, if bool_decide (id l = id_)
              then mkLayer (id l) (name l) (negb (visible l)) (opacity l) (grid l)
              else l) (st_layers st) in
  setLayers newLayers;;
  addToHistory st newLayers (st_gridSize st).

(** [updateLayerOpacity], lines 268-272.  The slider hands in
    [Number.parseInt] of its value; [opacity] ranges over the integers. *)
Definition updateLayerOpacity (st : Ui) (id_ : string) (opacity_ : Z) : M unit :=
  let newLayers :=
    map (λ l, if bool_decide (id l = id_)
              then mkLayer (id l) (name l) (visible l) opacity_ (grid l)
              else l) (st_layers st) in
  setLayers newLayers.

(** [for (let i = from; ...; i++) body(i)], [n] iterations to go. *)
Fixpoint forLoop (from : Z) (n : nat) (body : Z → M unit) : M unit :=
  match n with
  | O => ret tt
  | S n => body from;; forLoop (from + 1) n body
  end.

(** [newGrid[y][x] = layer.grid[y][x]], line 281.  A cell that the source
    grid does not have would put [undefined] into the new grid. *)
Definition copyCell (src new : loc) (x y : Z) : M unit :=
  do v <- readCell src x y;
  match v with
  | Some c => writeCell new x y c
  | None => halt IllTyped
  end.

(** The callback of [layers.map] in [changeGridSize], lines 277-285. *)
Definition resizeLayer (st : Ui) (size : Z) (layer : Layer loc) : M (Layer loc) :=
  do newGrid <-
    match createEmptyGrid size with
    | Ret g => alloc g
    | Throw e => throw e
    | Stuck s => halt s
    end;
  let bound := Z.to_nat (Z.min size (st_gridSize st)) in
  forLoop 0 bound (λ y,
    forLoop 0 bound (λ x,
      copyCell (grid layer) newGrid x y));;
  ret (mkLayer (id layer) (name layer) (visible layer) (opacity layer) newGrid).

(** [changeGridSize], lines 274-289 *)
Definition changeGridSize (st : Ui) (size : Z) : M unit :=
  if bool_decide (size = st_gridSize st) then ret tt else
  do newLayers <- traverse (resizeLayer st size) (st_layers st);
  setGridSize size;;
  setLayers newLayers;;
  addToHistory st newLayers size.

(** ** Export *)

(** The calls that [handleExport], lines 293-316, makes on the 2D context
    of the canvas it creates, in order.  Creating the canvas and the
    download link is outside the model; the context is taken to exist. *)
Inductive canvasOp : Type :=
| FillStyle (c : string)
| GlobalAlpha (percent : Z)
| FillRect (x y w h : Z).

Definition scale : Z := 20.

(** [row.forEach((color, x) => ..)], lines 310-315, from column [x] on. *)
Fixpoint exportRow (row : list string) (x y : Z) : list canvasOp :=
  match row with
  | [] => []
  | color :: row =>
      (if truthy (Some color)
       then [FillStyle color; FillRect (x * scale) (y * scale) scale scale]
       else [])
      ++ exportRow row (x + 1) y
  end.

(** [layer.grid.forEach((row, y) => ..)], from row [y] on. *)
Fixpoint exportGrid (g : PixelGrid) (y : Z) : list canvasOp :=
  match g with
  | [] => []
  | row :: g => exportRow row 0 y ++ exportGrid g (y + 1)
  end.

(** The callback of [layers.forEach], lines 306-317; [globalAlpha] is
    [opacity / 100]. *)
Definition exportLayer (layer : Layer loc) : M (list canvasOp) :=
  if negb (visible layer) then ret [] else
  do g <- deref (grid layer);
  ret (GlobalAlpha (opacity layer) :: exportGrid g 0).

Definition handleExport (st : Ui) : M (list canvasOp) :=
  let width := st_gridSize st * scale in
  do drawn <- traverse exportLayer (st_layers st);
  ret (FillStyle "#ffffff" :: FillRect 0 0 width width :: concat drawn).

(** ** Zoom *)

(** The updaters that [handleZoomIn] and [handleZoomOut], lines 325-326,
    pass to [setZoom].  The zoom starts at 1 and moves in steps of a quarter
    between 0.5 and 3; on these numbers the floating point arithmetic of the
    source is exact, so the rationals model it. *)
Definition handleZoomIn (prev : Q) : Q := Qmin (prev + 0.25) 3.
Definition handleZoomOut (prev : Q) : Q := Qmax (prev - 0.25) 0.5.

(** ** Running a handler *)

(** A handler runs to completion on the rendered state; the state it leaves
    is the next rendered state. *)
Definition fire (h : Ui → M unit) (w : World) : run World :=
  match h (ui w) w with
  | Ret (_, w') => Ret w'
  | Throw e => Throw e
  | Stuck s => Stuck s
  end.

(** The initial state of the component, lines 87-98, before the effect that
    initializes the history has run. *)
Definition initialWorld : World :=
  mkWorld
    [replicate (Z.to_nat DEFAULT_GRID_SIZE) (replicate (Z.to_nat DEFAULT_GRID_SIZE) EmptyString)]
    (mkUi DEFAULT_GRID_SIZE
          [mkLayer "layer-1" "Layer 1" true 100 0%nat]
          "layer-1" "#ff6b00" pencil false [] (-1)).

(** What the user can do to the editor: the handlers bound in the markup,
    lines 396-675, with the pointer position already turned into a cell. *)
Inductive event : Type :=
| PointerDown (x y : Z)
| PointerMove (x y : Z)
| PointerUp
| UndoClick
| RedoClick
| AddLayer (newId : string)
| DeleteLayer (i : string)
| ToggleLayer (i : string)
| SetOpacity (i : string) (v : Z)
| ChangeGridSize (size : Z)
| SelectLayer (i : string)
| SelectColor (c : string)
| SelectTool (t : Tool).

Definition handler (e : event) : Ui → M unit :=
  match e with
  | PointerDown x y => λ st, handlePointerDown st x y
  | PointerMove x y => λ st, handlePointerMove st x y
  | PointerUp => handlePointerUp
  | UndoClick => undo
  | RedoClick => redo
  | AddLayer newId => λ st, addLayer st newId
  | DeleteLayer i => λ st, deleteLayer st i
  | ToggleLayer i => λ st, toggleLayerVisibility st i
  | SetOpacity i v => λ st, updateLayerOpacity st i v
  | ChangeGridSize size => λ st, changeGridSize st size
  | SelectLayer i => λ _, setActiveLayerId i
  | SelectColor c => λ _, setSelectedColor c
  | SelectTool t => λ _, setTool t
  end.

(** * Vocabulary of the statements *)

(** What [grid[y][x]] holds, when row [y] exists. *)
Definition cell (g : PixelGrid) (p : Z * Z) : option string :=
  match js_get g p.2 with
  | Some row => js_get row p.1
  | None => None
  end.

(** A grid of [n] rows of [n] cells each. *)
Definition square (n : Z) (g : PixelGrid) : Prop :=
  Z.of_nat (length g) = n ∧ Forall (λ row, Z.of_nat (length row) = n) g.

Definition inside (n : Z) (p : Z * Z) : Prop :=
  0 ≤ p.1 < n ∧ 0 ≤ p.2 < n.

(** The number of cells of colour [t]. *)
Definition countColor (t : string) (g : PixelGrid) : nat :=
  sum_list ((λ row, length (filter (λ c, c = t) row)) <$> g).

(** The four cells [floodFill] recurses into, in the order of the source. *)
Definition neighbours (p : Z * Z) : list (Z * Z) :=
  [(p.1 + 1, p.2); (p.1 - 1, p.2); (p.1, p.2 + 1); (p.1, p.2 - 1)].

(** [region g t p q]: [q] is joined to [p] by a walk through horizontally or
    vertically adjacent cells that all have colour [t] in [g].  The cells [q]
    with [region g t p q] are the maximal 4-connected region of colour [t]
    that contains [p]. *)
Inductive region (g : PixelGrid) (t : string) : Z * Z → Z * Z → Prop :=
| region_here p : cell g p = Some t → region g t p p
| region_step p n q :
    cell g p = Some t → n ∈ neighbours p → region g t n q → region g t p q.

(** [g'] is [g] with the region of [p] recoloured to [r] and nothing else
    changed. *)
Definition recoloured (g : PixelGrid) (t r : string) (p : Z * Z) (g' : PixelGrid) : Prop :=
  ∀ q, (region g t p q ∧ cell g' q = Some r) ∨ (¬ region g t p q ∧ cell g' q = cell g q).

(** [floodFill] again, returning how deep its calls nest: [1] for a call
    that returns at one of its guards, one more than the deepest of the four
    inner calls otherwise.  This is the number of stack frames the call
    needs. *)
Fixpoint floodFill_depth (fuel : nat) (st : Ui) (layerIndex x y : Z)
    (targetColor : option string) (replacementColor : string) : M nat :=
  match fuel with
  | O => halt OutOfFuel
  | S fuel =>
    if bool_decide (targetColor = Some replacementColor) then ret 1%nat else
    if bool_decide (x < 0 ∨ x >= st_gridSize st ∨ y < 0 ∨ y >= st_gridSize st) then ret 1%nat else
    let newLayers := st_layers st in
    match js_get newLayers layerIndex with
    | None => throw TypeError
    | Some layer =>
      let grid_ := grid layer in
      do currentColor <- readCell grid_ x y;
      if bool_decide (currentColor ≠ targetColor) then ret 1%nat else
      writeCell grid_ x y replacementColor;;
      do d1 <- floodFill_depth fuel st layerIndex (x + 1) y targetColor replacementColor;
      do d2 <- floodFill_depth fuel st layerIndex (x - 1) y targetColor replacementColor;
      do d3 <- floodFill_depth fuel st layerIndex x (y + 1) targetColor replacementColor;
      do d4 <- floodFill_depth fuel st layerIndex x (y - 1) targetColor replacementColor;
      setLayers newLayers;;
      ret (S (d1 `max` (d2 `max` (d3 `max` d4))))
    end
  end.

(** Dropping the result of a computation. *)
Definition forget {A} (m : M A) : M unit := m;; ret tt.

(** The state a call leaves scheduled: [setLayers] runs only in a call that
    found the target colour. *)
Definition fill_ui (st : Ui) (t : string) (g : PixelGrid) (p : Z * Z) (u : Ui) : Ui :=
  if bool_decide (cell g p = Some t) then with_layers (st_layers st) u else u.

(** The value of a live layer: its fields and the contents of its grid. *)
Definition freeze (h : list PixelGrid) (l : Layer loc) : option (Layer PixelGrid) :=
  g ← h !! grid l; Some (mkLayer (id l) (name l) (visible l) (opacity l) g).

Fixpoint freezeAll (h : list PixelGrid) (ls : list (Layer loc)) : option (list (Layer PixelGrid)) :=
  match ls with
  | [] => Some []
  | l :: ls => v ← freeze h l; vs ← freezeAll h ls; Some (v :: vs)
  end.

(** The document of a world: the layers with their grids, and the grid
    size. *)
Definition document (w : World) : option HistoryState :=
  vs ← freezeAll (heap w) (st_layers (ui w)); Some (mkHistoryState vs (st_gridSize (ui w))).

(** A handler fired [k] times in a row, each time on the state the previous
    run left. *)
Fixpoint fireN (h : Ui → M unit) (k : nat) (w : World) : run World :=
  match k with
  | O => Ret w
  | S k =>
      match fire h w with
      | Ret w' => fireN h k w'
      | Throw e => Throw e
      | Stuck s => Stuck s
      end
  end.

(** The cursor points at an entry. *)
Definition cursor_ok (u : Ui) : Prop :=
  0 ≤ st_historyIndex u < Z.of_nat (length (st_history u)).

(** The histories that the initializing effect followed by calls of
    [addToHistory] produce. *)
Inductive committed : list HistoryState → Z → Prop :=
| committed_init w w' :
    st_history (ui w) = [] →
    fire initHistory w = Ret w' →
    committed (st_history (ui w')) (st_historyIndex (ui w'))
| committed_commit st ls n w w' :
    committed (st_history st) (st_historyIndex st) →
    addToHistory st ls n w = Ret (tt, w') →
    committed (st_history (ui w')) (st_historyIndex (ui w')).

(** Every layer refers to a grid of [n] rows of [n] cells. *)
Definition wf_layers (h : list PixelGrid) (n : Z) (ls : list (Layer loc)) : Prop :=
  Forall (λ l, ∃ g, h !! grid l = Some g ∧ square n g) ls.

Definition wf (w : World) : Prop :=
  wf_layers (heap w) (st_gridSize (ui w)) (st_layers (ui w)).

(** What a layer shows at a cell. *)
Definition layerCell (h : list PixelGrid) (l : Layer loc) (p : Z * Z) : option string :=
  g ← h !! grid l; cell g p.

(** A layer that the picker passes over at [p]: hidden, or empty there. *)
Definition passed (h : list PixelGrid) (l : Layer loc) (p : Z * Z) : Prop :=
  visible l = false ∨ layerCell h l p = Some EmptyString.

(** What the resized grid of a layer shows, given what the layer showed. *)
Definition resized (gs size : Z) (old new : Z * Z → option string) : Prop :=
  ∀ q, inside size q →
       new q = if bool_decide (inside gs q) then old q else Some EmptyString.

(** The run did not stop for lack of recursion fuel. *)
Definition fueled {A} (r : run A) : Prop := r ≠ Stuck OutOfFuel.

(** ** Sample documents *)

Definition green : string := "#38b764".
Definition yellow : string := "#ffcd75".

(** A 2 by 2 grid, green except for the empty cell [(1,1)]. *)
Definition sampleGrid : PixelGrid := [[green; green]; [green; EmptyString]].

Definition fullGrid : PixelGrid := [[green; green]; [green; green]].

Definition sampleLayer : Layer loc := mkLayer "layer-1" "Layer 1" true 100 0%nat.

Definition sampleEntry : HistoryState :=
  mkHistoryState [mkLayer "layer-1" "Layer 1" true 100 sampleGrid] 2.

(** One layer showing [sampleGrid], yellow selected, the history holding the
    document. *)
Definition sampleWorld (t : Tool) : World :=
  mkWorld [sampleGrid]
          (mkUi 2 [sampleLayer] "layer-1" yellow t false [sampleEntry] 0).

(** The same layer showing [fullGrid]. *)
Definition fullWorld : World :=
  mkWorld [fullGrid]
          (mkUi 2 [sampleLayer] "layer-1" yellow bucket false [] (-1)).

(** A visible bottom layer showing [sampleGrid] under a hidden top layer
    showing [fullGrid]. *)
Definition twoLayers (active : string) (t : Tool) : World :=
  mkWorld [sampleGrid; fullGrid]
          (mkUi 2 [sampleLayer; mkLayer "layer-2" "Layer 2" false 100 1%nat]
                active yellow t false
                [mkHistoryState [mkLayer "layer-1" "Layer 1" true 100 sampleGrid;
                                 mkLayer "layer-2" "Layer 2" false 100 fullGrid] 2]
                0).

(** The state before the effect that initializes the history has run. *)
Definition beforeInit : World :=
  mkWorld [sampleGrid]
          (mkUi 2 [sampleLayer] "layer-1" yellow pencil false [] (-1)).

(** The state after the document has been committed once more. *)
Definition afterCommit : World :=
  mkWorld [sampleGrid]
          (mkUi 2 [sampleLayer] "layer-1" yellow pencil false [sampleEntry; sampleEntry] 1).

(** A history that is full, the cursor on its last entry. *)
Definition fullHistory : Ui :=
  mkUi 2 [sampleLayer] "layer-1" yellow pencil false (replicate 20 sampleEntry) 19.

(** ** Sessions *)

(** Handlers fired one after the other, each on the state the previous one
    left. *)
Definition session (hs : list (Ui → M unit)) (w : World) : run World :=
  foldl (λ r h, match r with
                | Ret w' => fire h w'
                | Throw e => Throw e
                | Stuck s => Stuck s
                end) (Ret w) hs.

(** What layer [i] shows at a cell once a session has ended. *)
Definition shows (r : run World) (i : nat) (p : Z * Z) : option string :=
  match r with
  | Ret w => l ← st_layers (ui w) !! i; layerCell (heap w) l p
  | _ => None
  end.

(** A click on a cell: the pointer goes down and up. *)
Definition click (x y : Z) : list (Ui → M unit) :=
  [λ st, handlePointerDown st x y; handlePointerUp].

(** Choosing a colour and a tool in the side bar. *)
Definition choose (c : string) (t : Tool) : list (Ui → M unit) :=
  [λ _, setSelectedColor c; λ _, setTool t].

(** * Vocabulary of the further statements *)

(** ** Invariants of the editor *)

(** A size that [Array(size)] accepts. *)
Definition sizeOk (n : Z) : Prop := 0 ≤ n < 2 ^ 32.

(** A history entry holds a document: at least one layer, distinct ids,
    grids of the size of the entry. *)
Definition entry_ok (e : HistoryState) : Prop :=
  sizeOk (gridSize e)
  ∧ layers e ≠ []
  ∧ NoDup (id <$> layers e)
  ∧ Forall (λ l, square (gridSize e) (grid l)) (layers e).

(** The live layers are a document, and no two of them share a grid
    object. *)
Definition live_ok (h : list PixelGrid) (u : Ui) : Prop :=
  wf_layers h (st_gridSize u) (st_layers u)
  ∧ sizeOk (st_gridSize u)
  ∧ st_layers u ≠ []
  ∧ NoDup (id <$> st_layers u)
  ∧ NoDup (grid <$> st_layers u).

(** The history holds at most [MAX_HISTORY] documents and the cursor points
    at one of them. *)
Definition history_ok (u : Ui) : Prop :=
  cursor_ok u
  ∧ Z.of_nat (length (st_history u)) ≤ MAX_HISTORY
  ∧ Forall entry_ok (st_history u).

Definition Inv (w : World) : Prop := live_ok (heap w) (ui w) ∧ history_ok (ui w).

(** What an event needs: [generateId] has to return an id that no layer has,
    and a grid size has to be an array length (the markup offers 8, 16, 32
    and 64). *)
Definition allowed (e : event) (u : Ui) : Prop :=
  match e with
  | AddLayer newId => newId ∉ id <$> st_layers u
  | ChangeGridSize size => sizeOk size
  | _ => True
  end.

(** Events one after the other, each allowed in the state it meets. *)
Fixpoint admissible (es : list event) (w : World) : Prop :=
  match es with
  | [] => True
  | e :: es => allowed e (ui w) ∧ ∀ w', fire (handler e) w = Ret w' → admissible es w'
  end.

(** The history after a commit of [e] from the state [st]. *)
Definition pushEntry (st : Ui) (e : HistoryState) : list HistoryState :=
  let full := js_slice0 (st_history st) (st_historyIndex st + 1) ++ [e] in
  if bool_decide (Z.of_nat (length full) > MAX_HISTORY) then drop 1 full else full.

(** The state that a commit of [e] from the state [st] schedules. *)
Definition commitUi (st : Ui) (e : HistoryState) (u : Ui) : Ui :=
  with_historyIndex (Z.of_nat (length (pushEntry st e)) - 1)
                    (with_history (pushEntry st e) u).

(** The entry at the cursor is the live document. *)
Definition synced (w : World) : Prop :=
  document w = js_get (st_history (ui w)) (st_historyIndex (ui w)).

(** The world with the scheduled state changed by [f]. *)
Definition lift (f : Ui → Ui) (w : World) : World := mkWorld (heap w) (f (ui w)).

(** [m] neither reads the scheduled state nor sets a hook that [f] sets. *)
Definition framed (f : Ui → Ui) {A} (m : M A) : Prop :=
  ∀ w, m (lift f w) = match m w with
                      | Ret (a, w') => Ret (a, lift f w')
                      | Throw e => Throw e
                      | Stuck s => Stuck s
                      end.

(** The grid after [grid[y][x] = c] for a cell of the grid. *)
Definition paintGrid (g : PixelGrid) (x y : Z) (c : string) : PixelGrid :=
  match js_get g y with
  | Some row => setCell g x y c row
  | None => g
  end.


(** The events of a session, fired one after the other. *)
Definition play (es : list event) (w : World) : run World := session (handler <$> es) w.

(** The editor once the component is mounted: the initial state after the
    effect of lines 104-110. *)
Definition mounted (w : World) : Prop := fire initHistory initialWorld = Ret w.

(** What [handleDraw] leaves alone, whatever the tool. *)
Definition drawFrame (w w' : World) : Prop :=
  st_gridSize (ui w') = st_gridSize (ui w)
  ∧ id <$> st_layers (ui w') = id <$> st_layers (ui w)
  ∧ st_activeLayerId (ui w') = st_activeLayerId (ui w)
  ∧ st_isDrawing (ui w') = st_isDrawing (ui w).

(** The events whose handler ends in a call of [addToHistory] with the
    layers it has just scheduled. *)
Definition committing (e : event) (u : Ui) : Prop :=
  match e with
  | PointerUp => st_isDrawing u = true
  | AddLayer _ | ToggleLayer _ => True
  | DeleteLayer _ => (1 < length (st_layers u))%nat
  | ChangeGridSize size => size ≠ st_gridSize u
  | _ => False
  end.

(** [w'] comes from [w] by a commit of the document of [w']. *)
Definition committedFrom (w w' : World) : Prop :=
  ∃ e, document w' = Some e
       ∧ st_history (ui w') = pushEntry (ui w) e
       ∧ st_historyIndex (ui w') = Z.of_nat (length (st_history (ui w'))) - 1.

(** The active layer is one of the layers. *)
Definition active_ok (u : Ui) : Prop := st_activeLayerId u ∈ id <$> st_layers u.

(** The history and the cursor are the same. *)
Definition sameHistory (w w' : World) : Prop :=
  st_history (ui w') = st_history (ui w) ∧ st_historyIndex (ui w') = st_historyIndex (ui w).

(** The events that cannot leave the active layer id without a layer: undo
    and redo replace the layers and keep the id, and a click on a layer row
    selects a layer that is shown. *)
Definition keepsActive (e : event) (u : Ui) : Prop :=
  match e with
  | UndoClick | RedoClick => False
  | SelectLayer i => i ∈ id <$> st_layers u
  | _ => True
  end.

(** The pointer moving over the cells [ps] with the button held. *)
Definition drag (ps : list (Z * Z)) : list event := (λ p, PointerMove p.1 p.2) <$> ps.

(** ** What the export paints *)

(** The rectangle covers the pixel. *)
Definition covers (x y w h : Z) (px : Z * Z) : bool :=
  bool_decide (x ≤ px.1 < x + w ∧ y ≤ px.2 < y + h).

(** The current fill style and the style of the last rectangle painted over
    the pixel [px], after one more call. *)
Definition paintOp (px : Z * Z) (s : string * option string) (op : canvasOp)
  : string * option string :=
  match op with
  | FillStyle c => (c, s.2)
  | GlobalAlpha _ => s
  | FillRect x y w h => (s.1, if covers x y w h px then Some s.1 else s.2)
  end.

Definition paint (px : Z * Z) (s : string * option string) (ops : list canvasOp)
  : string * option string :=
  foldl (paintOp px) s ops.

(** The style of the last rectangle painted over [px]; a fresh context has
    the fill style black. *)
Definition lastFill (ops : list canvasOp) (px : Z * Z) : option string :=
  (paint px ("#000000", None) ops).2.

(** The pixels of the exported image that belong to the cell [p]. *)
Definition pixelOf (p px : Z * Z) : Prop :=
  p.1 * scale ≤ px.1 < p.1 * scale + scale ∧ p.2 * scale ≤ px.2 < p.2 * scale + scale.

(** The colour of the topmost visible layer that is not empty at [p], or
    [acc]. *)
Definition topColor (h : list PixelGrid) (ls : list (Layer loc)) (p : Z * Z)
    (acc : option string) : option string :=
  foldl (λ acc l, if visible l && truthy (layerCell h l p) then layerCell h l p else acc) acc ls.

(** A rectangle lies on a canvas of the given width and height. *)
Definition onCanvas (width : Z) (op : canvasOp) : Prop :=
  match op with
  | FillRect x y w h => 0 ≤ x ∧ 0 ≤ y ∧ 0 ≤ w ∧ 0 ≤ h ∧ x + w ≤ width ∧ y + h ≤ width
  | _ => True
  end.

(** [k] quarters. *)
Definition quarters (k : Z) : Q := (inject_Z k * 0.25)%Q.

(** * Grids as functions from cells to colours *)

Lemma js_get_Some {A} (a : list A) (i : Z) (v : A) :
  js_get a i = Some v ↔ 0 ≤ i ∧ a !! Z.to_nat i = Some v.
Proof.
  unfold js_get. case_bool_decide; split; intros H'; try done; tauto.
Qed.

Lemma js_get_lt {A} (a : list A) (i : Z) :
  0 ≤ i < Z.of_nat (length a) → ∃ v, js_get a i = Some v.
Proof.
  intros Hi. destruct (lookup_lt_is_Some_2 a (Z.to_nat i)) as [v Hv]; [lia|].
  exists v. apply js_get_Some. split; [lia|done].
Qed.

Lemma js_get_range {A} (a : list A) (i : Z) (v : A) :
  js_get a i = Some v → 0 ≤ i < Z.of_nat (length a).
Proof.
  intros [Hi Hv]%js_get_Some. apply lookup_lt_Some in Hv. lia.
Qed.

Lemma square_row n g y row :
  square n g → js_get g y = Some row → Z.of_nat (length row) = n.
Proof.
  intros [_ Hrows] [_ Hrow]%js_get_Some.
  rewrite Forall_forall in Hrows. apply Hrows. by eapply list_elem_of_lookup_2.
Qed.

Lemma cell_inside n g p :
  square n g → (is_Some (cell g p) ↔ inside n p).
Proof.
  intros Hsq. unfold cell, inside. split.
  - intros [c Hc]. destruct (js_get g p.2) as [row|] eqn:Hrow; [|done].
    pose proof (square_row _ _ _ _ Hsq Hrow) as Hlen.
    apply js_get_range in Hc. apply js_get_range in Hrow.
    destruct Hsq as [Hn _]. lia.
  - intros [Hx Hy]. destruct (js_get_lt g p.2) as [row Hrow].
    { destruct Hsq as [Hn _]. lia. }
    rewrite Hrow. pose proof (square_row _ _ _ _ Hsq Hrow) as Hlen.
    destruct (js_get_lt row p.1) as [c Hc]; [lia|]. by exists c.
Qed.

Lemma cell_setCell g x y c row q :
  js_get g y = Some row → 0 ≤ x < Z.of_nat (length row) →
  cell (setCell g x y c row) q = if bool_decide (q = (x, y)) then Some c else cell g q.
Proof.
  intros Hrow Hx. pose proof (js_get_range _ _ _ Hrow) as Hy.
  apply js_get_Some in Hrow as [_ Hrow].
  unfold cell, setCell, js_get. destruct q as [a b]; cbn [fst snd].
  case_bool_decide as Hb0; [|by rewrite bool_decide_false by (intros [=]; lia)].
  destruct (decide (b = y)) as [->|Hby].
  - rewrite list_lookup_insert_eq by lia. rewrite Hrow.
    case_bool_decide as Ha0; [|by rewrite bool_decide_false by (intros [=]; lia)].
    destruct (decide (a = x)) as [->|Hax].
    + rewrite bool_decide_true by done. rewrite list_lookup_insert_eq; [done|lia].
    + rewrite (bool_decide_false (_ = (x, y))) by (intros [=]; done).
      rewrite list_lookup_insert_ne; [done|lia].
  - rewrite (bool_decide_false (_ = (x, y))) by (intros [=]; done).
    rewrite list_lookup_insert_ne; [done|lia].
Qed.

Lemma square_setCell n g x y c row :
  square n g → js_get g y = Some row → square n (setCell g x y c row).
Proof.
  intros Hsq Hrow. pose proof (square_row _ _ _ _ Hsq Hrow) as Hlen.
  destruct Hsq as [Hn Hrows]. split.
  - unfold setCell. by rewrite length_insert.
  - unfold setCell. apply Forall_insert; [done|]. by rewrite length_insert.
Qed.

Lemma countRow_insert (t c : string) (row : list string) (i : nat) :
  row !! i = Some t → c ≠ t →
  S (length (filter (λ c, c = t) (<[i := c]> row))) = length (filter (λ c, c = t) row).
Proof.
  revert i. induction row as [|d row IH]; intros [|i] Hi Hc; simplify_eq/=.
  - rewrite filter_cons_False by done. by rewrite filter_cons_True.
  - rewrite !filter_cons. destruct (decide (d = t)); simpl; rewrite <- (IH i); done.
Qed.

Lemma countColor_insert (t : string) (g : PixelGrid) (j : nat) (row row' : list string) :
  g !! j = Some row →
  S (length (filter (λ c, c = t) row')) = length (filter (λ c, c = t) row) →
  S (countColor t (<[j := row']> g)) = countColor t g.
Proof.
  unfold countColor. revert j. induction g as [|r0 g IH]; intros [|j] Hj Hrow; simplify_eq/=.
  - lia.
  - rewrite <- (IH j); [lia|done..].
Qed.

Lemma countColor_setCell t g x y c row :
  js_get g y = Some row → js_get row x = Some t → c ≠ t →
  S (countColor t (setCell g x y c row)) = countColor t g.
Proof.
  intros [_ Hrow]%js_get_Some [_ Hx]%js_get_Some Hc.
  unfold setCell. eapply countColor_insert; [done|]. by apply countRow_insert.
Qed.

Lemma countColor_le_cellCount t g : (countColor t g ≤ cellCount g)%nat.
Proof.
  unfold countColor, cellCount. induction g as [|row g IH]; csimpl; [lia|].
  rewrite length_app. pose proof (length_filter (λ c, c = t) row). lia.
Qed.

(** * 4-connected regions *)

Ltac in_list := repeat first [apply list_elem_of_here | apply list_elem_of_further].

Section Regions.
Variables t r : string.
Hypothesis t_ne_r : t ≠ r.

Lemma region_start g p q : region g t p q → cell g p = Some t.
Proof. by destruct 1. Qed.

Lemma region_end g p q : region g t p q → cell g q = Some t.
Proof. induction 1; done. Qed.

Lemma region_trans g p q s : region g t p q → region g t q s → region g t p s.
Proof.
  induction 1 as [p Hp|p n q Hp Hn _ IH]; [done|].
  intros Hqs. eapply region_step; eauto.
Qed.

(** Fewer cells of the target colour, fewer walks. *)
Lemma region_mono g g' p q :
  (∀ c, cell g' c = Some t → cell g c = Some t) →
  region g' t p q → region g t p q.
Proof.
  intros Hsub. induction 1 as [p Hp|p n q Hp Hn _ IH].
  - apply region_here; auto.
  - eapply region_step; eauto.
Qed.

Lemma recoloured_sub g p g' c :
  recoloured g t r p g' → cell g' c = Some t → cell g c = Some t.
Proof.
  intros Hrec Hc. destruct (Hrec c) as [[_ Hr]|[_ Hr]]; congruence.
Qed.

Lemma recoloured_keeps g p g' c :
  recoloured g t r p g' → cell g c = Some r → cell g' c = Some r.
Proof.
  intros Hrec Hc. destruct (Hrec c) as [[_ Hr]|[_ Hr]]; congruence.
Qed.

(** A call that does not find the target colour changes nothing. *)
Lemma recoloured_miss g p : cell g p ≠ Some t → recoloured g t r p g.
Proof.
  intros Hp q. right. split; [|done].
  intros Hreg. by apply region_start in Hreg.
Qed.

(** After the region of [n] has been recoloured, a walk either survives or
    its end belonged to that region. *)
Lemma region_after g n g' a q :
  recoloured g t r n g' → region g t a q →
  region g' t a q ∨ region g t n q.
Proof.
  intros Hrec. induction 1 as [p Hp|p m q Hp Hm Hwalk IH].
  - destruct (Hrec p) as [[Hreg _]|[_ Hsame]]; [by right|].
    left. apply region_here. congruence.
  - destruct IH as [IH|IH]; [|by right].
    destruct (Hrec p) as [[Hreg _]|[_ Hsame]].
    + right. eapply region_trans; [done|]. eapply region_step; eauto.
    + left. eapply region_step; [congruence|done..].
Qed.

(** A walk from [p] to another cell leaves [p] for good through one of its
    neighbours. *)
Lemma region_leave g g1 p a q :
  (∀ c, c ≠ p → cell g1 c = cell g c) →
  region g t a q → q ≠ p →
  region g1 t a q ∨ ∃ n, n ∈ neighbours p ∧ region g1 t n q.
Proof.
  intros Hg1. induction 1 as [a Ha|a m q Ha Hm Hwalk IH]; intros Hq.
  - left. apply region_here. by rewrite Hg1.
  - destruct (IH Hq) as [IH'|IH']; [|by right].
    destruct (decide (a = p)) as [->|Hap].
    + right. eauto.
    + left. eapply region_step; [|done..]. by rewrite Hg1.
Qed.

(** The recursion step of [floodFill]: recolour [p], then recolour, one
    after the other, what is reachable from each of its four neighbours. *)
Lemma recoloured_step g g1 g2 g3 g4 g5 p :
  cell g p = Some t →
  (∀ c, cell g1 c = if bool_decide (c = p) then Some r else cell g c) →
  recoloured g1 t r (p.1 + 1, p.2) g2 →
  recoloured g2 t r (p.1 - 1, p.2) g3 →
  recoloured g3 t r (p.1, p.2 + 1) g4 →
  recoloured g4 t r (p.1, p.2 - 1) g5 →
  recoloured g t r p g5.
Proof.
  intros Hp Hg1 H2 H3 H4 H5 q.
  assert (Hsub1 : ∀ c, cell g1 c = Some t → cell g c = Some t).
  { intros c. rewrite Hg1. case_bool_decide; [congruence|done]. }
  assert (Hne1 : ∀ c, c ≠ p → cell g1 c = cell g c).
  { intros c Hc. rewrite Hg1. by rewrite bool_decide_false. }
  assert (Hin : ∀ n, n ∈ neighbours p → region g1 t n q → region g t p q).
  { intros n Hn Hreg. eapply region_step; [done..|].
    by eapply region_mono. }
  destruct (decide (q = p)) as [->|Hqp].
  { left. split; [by apply region_here|].
    do 4 (eapply recoloured_keeps; [eassumption|]).
    rewrite Hg1. by rewrite bool_decide_true. }
  unfold neighbours in Hin.
  destruct (H2 q) as [[R2 C2]|[R2 C2]].
  { left. split; [eapply Hin; [|done]; in_list|].
    by do 3 (eapply recoloured_keeps; [eassumption|]). }
  destruct (H3 q) as [[R3 C3]|[R3 C3]].
  { left. split.
    - eapply Hin; [|eapply region_mono; [|done]]; [in_list|].
      intros c. by eapply recoloured_sub.
    - by do 2 (eapply recoloured_keeps; [eassumption|]). }
  destruct (H4 q) as [[R4 C4]|[R4 C4]].
  { left. split.
    - eapply Hin; [|eapply region_mono; [|eapply region_mono; [|done]]];
        [in_list|intros c; by eapply recoloured_sub..].
    - by eapply recoloured_keeps. }
  destruct (H5 q) as [[R5 C5]|[R5 C5]].
  { left. split; [|done].
    eapply Hin;
      [|eapply region_mono; [|eapply region_mono; [|eapply region_mono; [|done]]]];
      [in_list|intros c; by eapply recoloured_sub..]. }
  right. split; [|by rewrite C5, C4, C3, C2, Hne1].
  intros Hreg.
  destruct (region_leave g g1 p p q Hne1 Hreg Hqp) as [Hbad|(n & Hn & Hwalk)].
  { apply region_start in Hbad. rewrite Hg1, bool_decide_true in Hbad by done.
    congruence. }
  unfold neighbours in Hn.
  apply elem_of_cons in Hn as [->|Hn]; [done|].
  destruct (region_after _ _ _ _ _ H2 Hwalk) as [Hw2|?]; [|done].
  apply elem_of_cons in Hn as [->|Hn]; [done|].
  destruct (region_after _ _ _ _ _ H3 Hw2) as [Hw3|?]; [|done].
  apply elem_of_cons in Hn as [->|Hn]; [done|].
  destruct (region_after _ _ _ _ _ H4 Hw3) as [Hw4|?]; [|done].
  apply elem_of_cons in Hn as [->|Hn]; [done|].
  by apply not_elem_of_nil in Hn.
Qed.

End Regions.

(** * Running the store operations *)

Lemma bind_Ret {A B} (m : M A) (k : A → M B) w a w' :
  m w = Ret (a, w') → bind m k w = k a w'.
Proof. unfold bind. by intros ->. Qed.

Lemma deref_run l g w : heap w !! l = Some g → deref l w = Ret (g, w).
Proof. unfold deref. by intros ->. Qed.

Lemma readCell_run l g x y w :
  heap w !! l = Some g → is_Some (js_get g y) →
  readCell l x y w = Ret (cell g (x, y), w).
Proof.
  intros Hl [row Hrow]. unfold readCell. erewrite bind_Ret by by apply deref_run.
  unfold cell. simpl. by rewrite Hrow.
Qed.

Lemma writeCell_run l g x y c row w :
  heap w !! l = Some g → js_get g y = Some row → 0 ≤ x < Z.of_nat (length row) →
  writeCell l x y c w = Ret (tt, mkWorld (<[l := setCell g x y c row]> (heap w)) (ui w)).
Proof.
  intros Hl Hrow Hx. unfold writeCell. erewrite bind_Ret by by apply deref_run.
  rewrite Hrow. by rewrite bool_decide_true.
Qed.

Lemma world_same w l g : heap w !! l = Some g → mkWorld (<[l := g]> (heap w)) (ui w) = w.
Proof. intros Hl. rewrite list_insert_id by done. by destruct w. Qed.

(** * Nesting depth of [floodFill] *)

(** [floodFill_depth] does to the store and the state what [floodFill]
    does. *)
Lemma floodFill_depth_forget fuel st li tc rc :
  ∀ x y w, floodFill fuel st li x y tc rc w = forget (floodFill_depth fuel st li x y tc rc) w.
Proof.
  induction fuel as [|fuel IH]; intros x y w; [done|].
  cbn [floodFill floodFill_depth].
  case_bool_decide; [done|]. case_bool_decide; [done|].
  destruct (js_get (st_layers st) li) as [layer|]; [|done].
  unfold forget, bind, ret.
  destruct (readCell (grid layer) x y w) as [[c w0]|e|s]; [|done..].
  case_bool_decide; [done|].
  destruct (writeCell (grid layer) x y rc w0) as [[[] w1]|e|s]; [|done..].
  rewrite IH. unfold forget, bind, ret.
  destruct (floodFill_depth fuel st li (x + 1) y tc rc w1) as [[d1 w2]|e|s]; [|done..].
  rewrite IH. unfold forget, bind, ret.
  destruct (floodFill_depth fuel st li (x - 1) y tc rc w2) as [[d2 w3]|e|s]; [|done..].
  rewrite IH. unfold forget, bind, ret.
  destruct (floodFill_depth fuel st li x (y + 1) tc rc w3) as [[d3 w4]|e|s]; [|done..].
  rewrite IH. unfold forget, bind, ret.
  destruct (floodFill_depth fuel st li x (y - 1) tc rc w4) as [[d4 w5]|e|s]; [|done..].
  done.
Qed.

(** * What a fill does to the grid of the target layer *)

Section Fill.
Variables (st : Ui) (li : Z) (L : Layer loc) (t r : string).
Hypothesis layer_at : js_get (st_layers st) li = Some L.
Hypothesis t_ne_r : t ≠ r.

Lemma floodFill_depth_run fuel :
  ∀ w g p,
    heap w !! grid L = Some g →
    square (st_gridSize st) g →
    (countColor t g < fuel)%nat →
    ∃ g' d,
      floodFill_depth fuel st li p.1 p.2 (Some t) r w
        = Ret (d, mkWorld (<[grid L := g']> (heap w)) (fill_ui st t g p (ui w)))
      ∧ square (st_gridSize st) g'
      ∧ (countColor t g' ≤ countColor t g)%nat
      ∧ recoloured g t r p g'
      ∧ (1 ≤ d ≤ S (countColor t g))%nat.
Proof.
  induction fuel as [|fuel IH]; intros w g [x y] Hg Hsq Hfuel; [lia|].
  cbn [floodFill_depth fst snd].
  rewrite bool_decide_false by congruence.
  assert (Hmiss : cell g (x, y) ≠ Some t →
    ∃ g' d, Ret (1%nat, w)
        = Ret (d, mkWorld (<[grid L := g']> (heap w)) (fill_ui st t g (x, y) (ui w)))
      ∧ square (st_gridSize st) g'
      ∧ (countColor t g' ≤ countColor t g)%nat
      ∧ recoloured g t r (x, y) g'
      ∧ (1 ≤ d ≤ S (countColor t g))%nat).
  { intros Hc. exists g, 1%nat. unfold fill_ui. rewrite bool_decide_false by done.
    rewrite world_same by done.
    split; [done|split; [done|split; [lia|split; [by apply recoloured_miss|lia]]]]. }
  case_bool_decide as Hout.
  { apply Hmiss. intros Hc.
    assert (Hin : inside (st_gridSize st) (x, y)) by (eapply cell_inside; eauto).
    destruct Hin; simpl in *. lia. }
  assert (Hin : inside (st_gridSize st) (x, y)) by (split; simpl; lia).
  rewrite layer_at. cbn zeta.
  destruct (js_get_lt g y) as [row Hrow]; [destruct Hsq, Hin; simpl in *; lia|].
  pose proof (square_row _ _ _ _ Hsq Hrow) as Hlen.
  erewrite bind_Ret by (apply readCell_run; eauto).
  case_bool_decide as Hcur; [by apply Hmiss|].
  assert (Hx : 0 ≤ x < Z.of_nat (length row)) by (destruct Hin; simpl in *; lia).
  erewrite bind_Ret by (eapply writeCell_run; eauto).
  set (g1 := setCell g x y r row).
  assert (Hcell1 : ∀ c, cell g1 c = if bool_decide (c = (x, y)) then Some r else cell g c).
  { intros c. by apply cell_setCell. }
  assert (Hsq1 : square (st_gridSize st) g1) by by eapply square_setCell.
  assert (Hcnt1 : S (countColor t g1) = countColor t g).
  { apply countColor_setCell; [done| |done]. unfold cell in Hcur. simpl in Hcur.
    by rewrite Hrow in Hcur. }
  assert (Hlt : (grid L < length (heap w))%nat) by by eapply lookup_lt_Some.
  set (w1 := mkWorld (<[grid L := g1]> (heap w)) (ui w)).
  destruct (IH w1 g1 (x + 1, y)) as (g2 & d1 & E2 & Hsq2 & Hcnt2 & Hrec2 & Hd1);
    [by apply list_lookup_insert_eq|done|lia|].
  erewrite bind_Ret by exact E2. clear E2.
  set (w2 := mkWorld _ _). unfold w1 in w2. simpl in w2.
  destruct (IH w2 g2 (x - 1, y)) as (g3 & d2 & E3 & Hsq3 & Hcnt3 & Hrec3 & Hd2);
    [simpl; apply list_lookup_insert_eq; by rewrite ?length_insert|done|lia|].
  erewrite bind_Ret by exact E3. clear E3.
  set (w3 := mkWorld _ _). unfold w2 in w3. simpl in w3.
  destruct (IH w3 g3 (x, y + 1)) as (g4 & d3 & E4 & Hsq4 & Hcnt4 & Hrec4 & Hd3);
    [simpl; apply list_lookup_insert_eq; by rewrite ?length_insert|done|lia|].
  erewrite bind_Ret by exact E4. clear E4.
  set (w4 := mkWorld _ _). unfold w3 in w4. simpl in w4.
  destruct (IH w4 g4 (x, y - 1)) as (g5 & d4 & E5 & Hsq5 & Hcnt5 & Hrec5 & Hd4);
    [simpl; apply list_lookup_insert_eq; by rewrite ?length_insert|done|lia|].
  erewrite bind_Ret by exact E5. clear E5.
  exists g5, (S (d1 `max` (d2 `max` (d3 `max` d4)))).
  split; [|split; [done|split; [lia|split; [|lia]]]].
  - unfold bind, setLayers, schedule, ret, w4. simpl.
    rewrite !list_insert_insert_eq. do 2 f_equal.
    unfold fill_ui. rewrite (bool_decide_true (cell g (x, y) = Some t)) by done.
    by repeat case_bool_decide.
  - eapply (recoloured_step t r t_ne_r g g1 g2 g3 g4 g5 (x, y)); done.
Qed.

End Fill.

Lemma floodFill_run st li L t r fuel w g p :
  js_get (st_layers st) li = Some L →
  t ≠ r →
  heap w !! grid L = Some g →
  square (st_gridSize st) g →
  (countColor t g < fuel)%nat →
  ∃ g',
    floodFill fuel st li p.1 p.2 (Some t) r w
      = Ret (tt, mkWorld (<[grid L := g']> (heap w)) (fill_ui st t g p (ui w)))
    ∧ square (st_gridSize st) g'
    ∧ recoloured g t r p g'.
Proof.
  intros HL Htr Hg Hsq Hfuel.
  destruct (floodFill_depth_run st li L t r HL Htr fuel w g p Hg Hsq Hfuel)
    as (g' & d & E & Hsq' & _ & Hrec & _).
  exists g'. split; [|done].
  rewrite floodFill_depth_forget. unfold forget. by erewrite bind_Ret by exact E.
Qed.

Lemma cellCount_square n g : square n g → Z.of_nat (cellCount g) = n * n.
Proof.
  intros [Hn Hrows]. unfold cellCount.
  assert (H : Z.of_nat (length (concat g)) = Z.of_nat (length g) * n).
  { clear Hn. induction Hrows as [|row g Hrow _ IH]; csimpl; [done|].
    rewrite length_app. lia. }
  by rewrite H, Hn.
Qed.

(** * Theorems about [floodFill] *)

(** C1.  [floodFill] changes nothing, neither a grid nor the scheduled
    state, when the target colour equals the replacement or the cell lies
    outside the grid.  Started on a cell of the grid with its own colour as
    target and a different replacement, it returns, and in the grid of the
    target layer exactly the cells of the maximal 4-connected region of the
    target colour around the start hold the replacement afterwards; every
    other cell holds what it held before. *)
Theorem floodFill_fills_region st li L w g x y r fuel :
  js_get (st_layers st) li = Some L →
  heap w !! grid L = Some g →
  square (st_gridSize st) g →
  (cellCount g < fuel)%nat →
  (∀ tc, tc = Some r ∨ ¬ inside (st_gridSize st) (x, y) →
         floodFill fuel st li x y tc r w = Ret (tt, w))
  ∧ (∀ t, cell g (x, y) = Some t → t ≠ r →
      ∃ g',
        floodFill fuel st li x y (Some t) r w
          = Ret (tt, mkWorld (<[grid L := g']> (heap w)) (with_layers (st_layers st) (ui w)))
        ∧ square (st_gridSize st) g'
        ∧ ∀ q, (region g t (x, y) q ∧ cell g' q = Some r)
               ∨ (¬ region g t (x, y) q ∧ cell g' q = cell g q)).
Proof.
  intros HL Hg Hsq Hfuel. split.
  - intros tc Hnoop. destruct fuel as [|fuel]; [lia|]. cbn [floodFill].
    destruct Hnoop as [->|Hout]; [by rewrite bool_decide_true|].
    case_bool_decide; [done|]. rewrite bool_decide_true; [done|].
    unfold inside in Hout. simpl in Hout. lia.
  - intros t Ht Htr.
    destruct (floodFill_run st li L t r fuel w g (x, y) HL Htr Hg Hsq) as (g' & E & Hsq' & Hrec).
    { pose proof (countColor_le_cellCount t g). lia. }
    exists g'. split; [|done].
    simpl in E. rewrite E. unfold fill_ui. by rewrite bool_decide_true.
Qed.

(** C2, as the source has it.  [floodFill] is a recursive function without a
    frontier or a visited set: a recoloured cell no longer has the target
    colour, which is what stops the recursion.  It returns on every square
    grid, and its calls never nest deeper than one more than the number of
    cells of the target colour, hence never deeper than
    [gridSize * gridSize + 1]. *)
Theorem floodFill_depth_bounded st li L w g x y t r fuel :
  js_get (st_layers st) li = Some L →
  heap w !! grid L = Some g →
  square (st_gridSize st) g →
  (cellCount g < fuel)%nat →
  ∃ d w',
    floodFill_depth fuel st li x y (Some t) r w = Ret (d, w')
    ∧ floodFill fuel st li x y (Some t) r w = Ret (tt, w')
    ∧ (1 ≤ d ≤ S (countColor t g))%nat
    ∧ Z.of_nat d ≤ st_gridSize st * st_gridSize st + 1.
Proof.
  intros HL Hg Hsq Hfuel.
  pose proof (countColor_le_cellCount t g) as Hle.
  pose proof (cellCount_square _ _ Hsq) as Hcells.
  destruct (decide (t = r)) as [->|Htr].
  - exists 1%nat, w. destruct fuel as [|fuel]; [lia|].
    cbn [floodFill floodFill_depth]. rewrite !bool_decide_true by done.
    split; [done|split; [done|split; [lia|nia]]].
  - destruct (floodFill_depth_run st li L t r HL Htr fuel w g (x, y) Hg Hsq)
      as (g' & d & E & _ & _ & _ & Hd); [lia|].
    simpl in E. eexists d, _. split; [exact E|].
    split; [|split; [done|lia]].
    rewrite floodFill_depth_forget. unfold forget. by erewrite bind_Ret by exact E.
Qed.

(** * Documents as values *)

Lemma freezeAll_cons h l ls vs :
  freezeAll h (l :: ls) = Some vs ↔
  ∃ g vs', h !! grid l = Some g ∧ freezeAll h ls = Some vs'
           ∧ vs = mkLayer (id l) (name l) (visible l) (opacity l) g :: vs'.
Proof.
  cbn [freezeAll]. unfold freeze. split.
  - destruct (h !! grid l) as [g|]; [|done]. cbn.
    destruct (freezeAll h ls) as [vs'|]; [|done]. cbn. intros [= <-]. eauto.
  - intros (g & vs' & -> & -> & ->). done.
Qed.

Lemma stringify_run ls w vs :
  freezeAll (heap w) ls = Some vs → stringify ls w = Ret (vs, w).
Proof.
  revert vs. induction ls as [|l ls IH]; intros vs Hvs.
  - by injection Hvs as <-.
  - apply freezeAll_cons in Hvs as (g & vs' & Hg & Hvs' & ->).
    change (stringify (l :: ls)) with
      (do v <- (do g <- deref (grid l);
                ret (mkLayer (id l) (name l) (visible l) (opacity l) g));
       do bs <- stringify ls; ret (v :: bs)).
    unfold bind, deref, ret. rewrite Hg. by rewrite (IH vs' Hvs').
Qed.

Lemma freezeAll_app h h' ls vs :
  freezeAll h ls = Some vs → freezeAll (h ++ h') ls = Some vs.
Proof.
  revert vs. induction ls as [|l ls IH]; intros vs Hvs; [done|].
  apply freezeAll_cons in Hvs as (g & vs' & Hg & Hvs' & ->).
  apply freezeAll_cons. exists g, vs'. split; [by apply lookup_app_l_Some|]. auto.
Qed.

Lemma parse_run vs :
  ∀ w, ∃ ls,
    parse vs w = Ret (ls, mkWorld (heap w ++ (grid <$> vs)) (ui w))
    ∧ freezeAll (heap w ++ (grid <$> vs)) ls = Some vs.
Proof.
  induction vs as [|v vs IH]; intros w.
  - exists []. unfold parse, ret. simpl. rewrite app_nil_r. by destruct w.
  - destruct (IH (mkWorld (heap w ++ [grid v]) (ui w))) as (ls & E & F).
    simpl in E, F. rewrite <- app_assoc in E, F. simpl in E, F.
    exists (mkLayer (id v) (name v) (visible v) (opacity v) (length (heap w)) :: ls).
    split.
    + change (parse (v :: vs)) with
        (do l <- (do r <- alloc (grid v);
                  ret (mkLayer (id v) (name v) (visible v) (opacity v) r));
         do bs <- parse vs; ret (l :: bs)).
      unfold bind, alloc, ret. by rewrite E.
    + apply freezeAll_cons. exists (grid v), vs. simpl. split; [|split; [done|by destruct v]].
      rewrite lookup_app_r by lia. by rewrite Nat.sub_diag.
Qed.

(** * History *)

Lemma restore_run (e : HistoryState) (i : Z) (w : World) :
  ∃ w',
    (do ls <- parse (layers e);
     setLayers ls;; setGridSize (gridSize e);; setHistoryIndex i) w = Ret (tt, w')
    ∧ st_history (ui w') = st_history (ui w)
    ∧ st_historyIndex (ui w') = i
    ∧ document w' = Some e.
Proof.
  destruct (parse_run (layers e) w) as (ls & E & F).
  eexists. split; [|split; [|split]].
  - erewrite bind_Ret by exact E. reflexivity.
  - done.
  - done.
  - unfold document. simpl. rewrite F. simpl. by destruct e.
Qed.

Lemma undo_run w :
  cursor_ok (ui w) → 0 < st_historyIndex (ui w) →
  ∃ w',
    fire undo w = Ret w'
    ∧ st_history (ui w') = st_history (ui w)
    ∧ st_historyIndex (ui w') = st_historyIndex (ui w) - 1
    ∧ document w' = js_get (st_history (ui w)) (st_historyIndex (ui w) - 1).
Proof.
  intros Hok Hpos. unfold fire, undo. rewrite bool_decide_true by lia.
  destruct (js_get_lt (st_history (ui w)) (st_historyIndex (ui w) - 1)) as [e He];
    [unfold cursor_ok in Hok; lia|].
  rewrite He.
  destruct (restore_run e (st_historyIndex (ui w) - 1) w) as (w' & E & H1 & H2 & H3).
  rewrite E. eauto.
Qed.

Lemma redo_run w :
  cursor_ok (ui w) → st_historyIndex (ui w) < Z.of_nat (length (st_history (ui w))) - 1 →
  ∃ w',
    fire redo w = Ret w'
    ∧ st_history (ui w') = st_history (ui w)
    ∧ st_historyIndex (ui w') = st_historyIndex (ui w) + 1
    ∧ document w' = js_get (st_history (ui w)) (st_historyIndex (ui w) + 1).
Proof.
  intros Hok Hlt. unfold fire, redo. rewrite bool_decide_true by lia.
  destruct (js_get_lt (st_history (ui w)) (st_historyIndex (ui w) + 1)) as [e He];
    [unfold cursor_ok in Hok; lia|].
  rewrite He.
  destruct (restore_run e (st_historyIndex (ui w) + 1) w) as (w' & E & H1 & H2 & H3).
  rewrite E. eauto.
Qed.

Lemma undo_first w : st_historyIndex (ui w) ≤ 0 → fire undo w = Ret w.
Proof. intros H. unfold fire, undo. by rewrite bool_decide_false by lia. Qed.

Lemma redo_last w :
  st_historyIndex (ui w) >= Z.of_nat (length (st_history (ui w))) - 1 → fire redo w = Ret w.
Proof. intros H. unfold fire, redo. by rewrite bool_decide_false by lia. Qed.

(** Undoing [k] times walks the cursor down and stops at the first entry;
    once the cursor has moved, the live document is the entry it points
    at. *)
Lemma undo_many k :
  ∀ w, cursor_ok (ui w) →
    ∃ wk, fireN undo k w = Ret wk
      ∧ st_history (ui wk) = st_history (ui w)
      ∧ st_historyIndex (ui wk) = Z.max 0 (st_historyIndex (ui w) - Z.of_nat k)
      ∧ (st_historyIndex (ui wk) = st_historyIndex (ui w) → wk = w)
      ∧ (st_historyIndex (ui wk) < st_historyIndex (ui w) →
         document wk = js_get (st_history (ui w)) (st_historyIndex (ui wk))).
Proof.
  induction k as [|k IH]; intros w Hok.
  - exists w. unfold cursor_ok in Hok. simpl.
    split; [done|split; [done|split; [lia|split; [done|lia]]]].
  - cbn [fireN]. destruct (decide (0 < st_historyIndex (ui w))) as [Hpos|Hzero].
    + destruct (undo_run w Hok Hpos) as (w' & E & Hh & Hi & Hdoc). rewrite E.
      destruct (IH w') as (wk & Ek & Hhk & Hik & Hsame & Hmoved).
      { unfold cursor_ok in *. rewrite Hh, Hi. lia. }
      exists wk. split; [done|]. rewrite Hhk, Hik, Hh, Hi.
      split; [done|]. split; [lia|]. split; [lia|]. intros Hlt.
      destruct (decide (st_historyIndex (ui wk) = st_historyIndex (ui w'))) as [Heq|Hne].
      * rewrite (Hsame Heq), Hdoc. f_equal. lia.
      * rewrite Hmoved by lia. rewrite Hh. f_equal. lia.
    + rewrite undo_first by lia.
      destruct (IH w Hok) as (wk & Ek & Hhk & Hik & Hsame & Hmoved).
      exists wk. split; [done|]. split; [done|]. unfold cursor_ok in Hok.
      split; [lia|]. split; [done|]. done.
Qed.

Lemma addToHistory_run st ls n w snap :
  freezeAll (heap w) ls = Some snap →
  let full := js_slice0 (st_history st) (st_historyIndex st + 1) ++ [mkHistoryState snap n] in
  let h' := if bool_decide (Z.of_nat (length full) > MAX_HISTORY) then drop 1 full else full in
  addToHistory st ls n w
    = Ret (tt, mkWorld (heap w)
                 (with_historyIndex (Z.of_nat (length h') - 1) (with_history h' (ui w)))).
Proof.
  intros Hsnap. unfold addToHistory. erewrite bind_Ret by by apply stringify_run.
  reflexivity.
Qed.

Lemma js_slice0_cursor {A} (a : list A) (i : Z) :
  0 ≤ i < Z.of_nat (length a) →
  js_slice0 a (i + 1) = take (Z.to_nat (i + 1)) a
  ∧ Z.of_nat (length (js_slice0 a (i + 1))) = i + 1.
Proof.
  intros Hi. unfold js_slice0. rewrite bool_decide_false by lia.
  rewrite Z.min_l by lia. split; [done|]. rewrite length_take. lia.
Qed.

(** C3.  On a history whose cursor points at an entry and that holds at
    most [MAX_HISTORY] entries, [addToHistory] keeps the entries up to the
    cursor and drops the later ones, appends a snapshot holding the contents
    of the layers it is given, drops the oldest entry if that makes more than
    20, and leaves the cursor on the last entry, which is the snapshot.  The
    history then has at most 20 entries, and undoing any number of times
    stays inside it, fewer than 20 entries behind the snapshot. *)
Theorem addToHistory_commits st ls n w snap :
  cursor_ok st →
  Z.of_nat (length (st_history st)) ≤ MAX_HISTORY →
  freezeAll (heap w) ls = Some snap →
  ∃ w' h',
    addToHistory st ls n w = Ret (tt, w')
    ∧ heap w' = heap w
    ∧ st_history (ui w') = h'
    ∧ (let full := take (Z.to_nat (st_historyIndex st + 1)) (st_history st)
                     ++ [mkHistoryState snap n] in
       h' = if bool_decide (Z.of_nat (length full) > MAX_HISTORY) then drop 1 full else full)
    ∧ st_historyIndex (ui w') = Z.of_nat (length h') - 1
    ∧ js_get h' (st_historyIndex (ui w')) = Some (mkHistoryState snap n)
    ∧ Z.of_nat (length h') ≤ MAX_HISTORY
    ∧ ∀ k, ∃ wk,
        fireN undo k w' = Ret wk
        ∧ st_history (ui wk) = h'
        ∧ 0 ≤ st_historyIndex (ui wk) ≤ st_historyIndex (ui w')
        ∧ st_historyIndex (ui w') - st_historyIndex (ui wk) < MAX_HISTORY
        ∧ (st_historyIndex (ui wk) < st_historyIndex (ui w') →
           document wk = js_get h' (st_historyIndex (ui wk))).
Proof.
  intros Hok Hcap Hsnap.
  destruct (js_slice0_cursor (st_history st) (st_historyIndex st) Hok) as [Hslice Hlen].
  pose proof (addToHistory_run st ls n w snap Hsnap) as E. cbv zeta in E.
  rewrite Hslice in E. rewrite Hslice in Hlen.
  set (full := take (Z.to_nat (st_historyIndex st + 1)) (st_history st)
                 ++ [mkHistoryState snap n]) in *.
  assert (Hfull : Z.of_nat (length full) = st_historyIndex st + 2).
  { unfold full. rewrite length_app. simpl. lia. }
  set (h' := if bool_decide (Z.of_nat (length full) > MAX_HISTORY) then drop 1 full else full) in *.
  assert (Hlast : ∀ i, Z.of_nat (length full) = i + 1 → full !! Z.to_nat i = Some (mkHistoryState snap n)).
  { intros i Hi. unfold full in *. rewrite length_app in Hi. simpl in Hi.
    rewrite lookup_app_r by lia.
    replace (Z.to_nat i - length (take (Z.to_nat (st_historyIndex st + 1)) (st_history st)))%nat
      with 0%nat by lia. done. }
  assert (Hh' : 1 ≤ Z.of_nat (length h') ≤ MAX_HISTORY
                ∧ js_get h' (Z.of_nat (length h') - 1) = Some (mkHistoryState snap n)).
  { unfold cursor_ok, MAX_HISTORY in *. unfold h'. case_bool_decide as Hbig.
    - rewrite length_drop. split; [lia|]. apply js_get_Some. split; [lia|].
      rewrite lookup_drop. rewrite <- (Hlast (Z.of_nat (length full) - 1)) by lia.
      f_equal. lia.
    - split; [lia|]. apply js_get_Some. split; [lia|].
      rewrite <- (Hlast (Z.of_nat (length full) - 1)) by lia. done. }
  destruct Hh' as [Hlen' Hget'].
  eexists _, h'. split; [exact E|]. simpl.
  split; [done|]. split; [done|]. split; [done|]. split; [done|].
  split; [done|]. split; [lia|].
  intros k.
  destruct (undo_many k (mkWorld (heap w)
              (with_historyIndex (Z.of_nat (length h') - 1) (with_history h' (ui w)))))
    as (wk & Ek & Hhk & Hik & _ & Hmoved).
  { unfold cursor_ok. simpl. lia. }
  simpl in Hhk, Hik, Hmoved. exists wk.
  split; [done|]. split; [done|]. split; [lia|]. split; [lia|]. done.
Qed.

Lemma document_gridSize w e : document w = Some e → st_gridSize (ui w) = gridSize e.
Proof.
  unfold document. destruct (freezeAll (heap w) (st_layers (ui w))); [|done].
  simpl. by intros [= <-].
Qed.

(** After commits only, the cursor is on the last entry and the capacity is
    respected. *)
Lemma committed_last h i :
  committed h i → i = Z.of_nat (length h) - 1 ∧ 1 ≤ Z.of_nat (length h) ≤ MAX_HISTORY.
Proof.
  induction 1 as [w w' Hempty E|st ls n w w' _ [IHi IHlen] E].
  - unfold fire, initHistory in E. rewrite Hempty in E. simpl in E.
    unfold bind in E. destruct (stringify (st_layers (ui w)) w) as [[vs w0]|e|s]; [|done..].
    injection E as <-. simpl. unfold MAX_HISTORY. lia.
  - unfold addToHistory in E. unfold bind at 1 in E.
    destruct (stringify ls w) as [[vs w0]|e|s]; [|done..].
    injection E as <-. cbn [ui st_history st_historyIndex with_historyIndex with_history].
    set (full := js_slice0 _ _ ++ _).
    assert (Hfull : Z.of_nat (length full) = Z.of_nat (length (st_history st)) + 1).
    { unfold full, js_slice0. rewrite length_app, length_take. simpl.
      rewrite bool_decide_false by lia. lia. }
    unfold MAX_HISTORY in *. case_bool_decide.
    + rewrite length_drop. lia.
    + lia.
Qed.

(** C4.  On a history made by the initializing effect and any number of
    commits, with the live document equal to the entry at the cursor, [undo]
    followed by [redo] returns and leaves the document (layers with their
    grids, and the grid size), the history and the cursor as they were before
    the [undo].  Besides, [undo] leaves everything as it is when the cursor is
    [0], and so does [redo] when the cursor is on the last entry. *)
Theorem undo_redo_roundtrip w :
  (committed (st_history (ui w)) (st_historyIndex (ui w)) →
   document w = js_get (st_history (ui w)) (st_historyIndex (ui w)) →
   ∃ w1 w2,
     fire undo w = Ret w1
     ∧ fire redo w1 = Ret w2
     ∧ document w2 = document w
     ∧ st_gridSize (ui w2) = st_gridSize (ui w)
     ∧ st_history (ui w2) = st_history (ui w)
     ∧ st_historyIndex (ui w2) = st_historyIndex (ui w))
  ∧ (st_historyIndex (ui w) = 0 → fire undo w = Ret w)
  ∧ (st_historyIndex (ui w) = Z.of_nat (length (st_history (ui w))) - 1 →
     fire redo w = Ret w).
Proof.
  split; [|split; [intros H0; apply undo_first; lia|intros H0; apply redo_last; lia]].
  intros [Hi Hlen]%committed_last Hdoc.
  destruct (decide (0 < st_historyIndex (ui w))) as [Hpos|Hzero].
  - destruct (undo_run w) as (w1 & E1 & Hh1 & Hi1 & _); [unfold cursor_ok; lia|done|].
    destruct (redo_run w1) as (w2 & E2 & Hh2 & Hi2 & Hdoc2).
    { unfold cursor_ok. rewrite Hh1, Hi1. lia. }
    { rewrite Hh1, Hi1. lia. }
    assert (Hback : document w2 = document w).
    { rewrite Hdoc2, Hh1, Hi1, Hdoc. f_equal. lia. }
    exists w1, w2. split; [done|]. split; [done|]. split; [done|].
    split; [|rewrite Hh2, Hi2, Hh1, Hi1; split; [done|lia]].
    destruct (js_get_lt (st_history (ui w)) (st_historyIndex (ui w))) as [e He]; [lia|].
    rewrite He in Hdoc. rewrite Hdoc in Hback.
    by rewrite (document_gridSize _ _ Hback), (document_gridSize _ _ Hdoc).
  - exists w, w. rewrite undo_first by lia. rewrite redo_last by lia. done.
Qed.

(** * Well-formed documents *)

Lemma wf_layers_lookup h n ls j l :
  wf_layers h n ls → ls !! j = Some l → ∃ g, h !! grid l = Some g ∧ square n g.
Proof.
  intros Hwf Hj. unfold wf_layers in Hwf. rewrite Forall_forall in Hwf.
  apply Hwf. by eapply list_elem_of_lookup_2.
Qed.

Lemma freezeAll_wf h n ls : wf_layers h n ls → ∃ vs, freezeAll h ls = Some vs.
Proof.
  induction 1 as [|l ls (g & Hg & _) _ [vs IH]]; [by exists []|].
  eexists. apply freezeAll_cons. eauto.
Qed.

Lemma freezeAll_lookup h ls vs j l :
  freezeAll h ls = Some vs → ls !! j = Some l →
  ∃ g, h !! grid l = Some g
       ∧ vs !! j = Some (mkLayer (id l) (name l) (visible l) (opacity l) g).
Proof.
  revert vs j. induction ls as [|l0 ls IH]; intros vs j Hvs Hj; [done|].
  apply freezeAll_cons in Hvs as (g & vs' & Hg & Hvs' & ->).
  destruct j as [|j]; simplify_eq/=; eauto.
Qed.

Lemma readCell_layer h u l p n :
  (∃ g, h !! grid l = Some g ∧ square n g) → inside n p →
  ∃ c, readCell (grid l) p.1 p.2 (mkWorld h u) = Ret (Some c, mkWorld h u)
       ∧ layerCell h l p = Some c.
Proof.
  intros (g & Hg & Hsq) Hin.
  destruct (proj2 (cell_inside n g p Hsq) Hin) as [c Hc].
  exists c. unfold layerCell. rewrite Hg. simpl. split; [|done].
  erewrite readCell_run; [|done|].
  - destruct p. simpl. by rewrite Hc.
  - apply js_get_lt. destruct Hsq as [Hn _], Hin. lia.
Qed.

(** * The picker *)

Lemma truthy_Some s : truthy (Some s) = true ↔ s ≠ EmptyString.
Proof.
  unfold truthy. case_bool_decide; split; intros; done.
Qed.

(** The loop, about to look at the layers below index [k]: it stops at the
    topmost one that is visible and not empty at [p]. *)
Lemma pickLoop_run st p w k :
  wf_layers (heap w) (st_gridSize st) (st_layers st) →
  inside (st_gridSize st) p →
  (k ≤ length (st_layers st))%nat →
  (∃ i l c,
      (i < k)%nat ∧ st_layers st !! i = Some l ∧ visible l = true
      ∧ layerCell (heap w) l p = Some c ∧ c ≠ EmptyString
      ∧ (∀ j l', (i < j < k)%nat → st_layers st !! j = Some l' → passed (heap w) l' p)
      ∧ pickLoop st p.1 p.2 k w
          = Ret (tt, mkWorld (heap w) (with_tool pencil (with_selectedColor c (ui w)))))
  ∨ ((∀ j l', (j < k)%nat → st_layers st !! j = Some l' → passed (heap w) l' p)
     ∧ pickLoop st p.1 p.2 k w = Ret (tt, w)).
Proof.
  intros Hwf Hin. induction k as [|k IH]; intros Hk.
  { right. split; [intros; lia|done]. }
  destruct (lookup_lt_is_Some_2 (st_layers st) k) as [l Hl]; [lia|].
  cbn [pickLoop]. rewrite Hl.
  assert (Hstep : passed (heap w) l p →
    (∀ j l', (j < k)%nat → st_layers st !! j = Some l' → passed (heap w) l' p) →
    ∀ j l', (j < S k)%nat → st_layers st !! j = Some l' → passed (heap w) l' p).
  { intros Hpass Hbelow j l' Hj Hl'. destruct (decide (j = k)) as [->|]; [|apply (Hbelow j); [lia|done]].
    by simplify_eq. }
  assert (Hstep' : passed (heap w) l p → ∀ i,
    (∀ j l', (i < j < k)%nat → st_layers st !! j = Some l' → passed (heap w) l' p) →
    ∀ j l', (i < j < S k)%nat → st_layers st !! j = Some l' → passed (heap w) l' p).
  { intros Hpass i Hbelow j l' Hj Hl'. destruct (decide (j = k)) as [->|]; [|apply (Hbelow j); [lia|done]].
    by simplify_eq. }
  assert (Hrest : passed (heap w) l p →
    (∃ i l0 c,
      (i < S k)%nat ∧ st_layers st !! i = Some l0 ∧ visible l0 = true
      ∧ layerCell (heap w) l0 p = Some c ∧ c ≠ EmptyString
      ∧ (∀ j l', (i < j < S k)%nat → st_layers st !! j = Some l' → passed (heap w) l' p)
      ∧ pickLoop st p.1 p.2 k w
          = Ret (tt, mkWorld (heap w) (with_tool pencil (with_selectedColor c (ui w)))))
    ∨ ((∀ j l', (j < S k)%nat → st_layers st !! j = Some l' → passed (heap w) l' p)
       ∧ pickLoop st p.1 p.2 k w = Ret (tt, w))).
  { intros Hpass. destruct IH as [(i & l0 & c & Hi & Hl0 & Hv & Hc & Hne & Habove & E)|[Hbelow E]]; [lia| |].
    - left. exists i, l0, c. split; [lia|]. repeat (split; [done|]). split; [|done].
      by apply Hstep'.
    - right. split; [|done]. by apply Hstep. }
  destruct (visible l) eqn:Hvis; [|apply Hrest; by left].
  destruct (readCell_layer (heap w) (ui w) l p (st_gridSize st)) as (c & E & Hc);
    [by eapply wf_layers_lookup|done|].
  replace (mkWorld (heap w) (ui w)) with w in E by by destruct w.
  erewrite bind_Ret by exact E. cbv beta iota.
  destruct (truthy (Some c)) eqn:Htr.
  - left. exists k, l, c. apply truthy_Some in Htr.
    split; [lia|]. repeat (split; [done|]). split; [intros; lia|]. reflexivity.
  - apply Hrest. right. rewrite Hc. f_equal.
    destruct (decide (c = EmptyString)) as [->|Hne]; [done|].
    apply truthy_Some in Hne. congruence.
Qed.

(** What [handleDraw] does with the picker on a cell of the grid. *)
Lemma picker_run w x y isClick :
  wf w →
  inside (st_gridSize (ui w)) (x, y) →
  st_tool (ui w) = picker →
  let li := findIndex (λ l, bool_decide (id l = st_activeLayerId (ui w))) (st_layers (ui w)) in
  let pick := fire (λ st, handleDraw st x y isClick) w in
  (∀ L, js_get (st_layers (ui w)) li = Some L → visible L = true →
     (∃ i l c,
         st_layers (ui w) !! i = Some l ∧ visible l = true
         ∧ layerCell (heap w) l (x, y) = Some c ∧ c ≠ EmptyString
         ∧ (∀ j l', (i < j)%nat → st_layers (ui w) !! j = Some l' → passed (heap w) l' (x, y))
         ∧ pick = Ret (mkWorld (heap w) (with_tool pencil (with_selectedColor c (ui w)))))
     ∨ ((∀ j l', st_layers (ui w) !! j = Some l' → passed (heap w) l' (x, y))
        ∧ pick = Ret w))
  ∧ (li = -1 → pick = Ret w)
  ∧ (∀ L, js_get (st_layers (ui w)) li = Some L → visible L = false → pick = Ret w).
Proof.
  intros Hwf Hin Htool li pick.
  assert (Hguard : bool_decide (x < 0 ∨ x >= st_gridSize (ui w) ∨ y < 0 ∨ y >= st_gridSize (ui w)) = false).
  { apply bool_decide_false. destruct Hin. simpl in *. lia. }
  split; [|split].
  - intros L HL Hvis.
    assert (Hli : li ≠ -1).
    { intros Heq. rewrite Heq in HL. done. }
    assert (Hpick : pick = match pickLoop (ui w) x y (length (st_layers (ui w))) w with
                           | Ret (_, w') => Ret w'
                           | Throw e => Throw e
                           | Stuck s => Stuck s
                           end).
    { unfold pick, fire, handleDraw. rewrite Hguard. fold li.
      rewrite bool_decide_false by done. rewrite HL, Hvis, Htool. done. }
    destruct (pickLoop_run (ui w) (x, y) w (length (st_layers (ui w))) Hwf Hin)
      as [(i & l & c & Hi & Hl & Hv & Hc & Hne & Habove & E)|[Hall E]]; [done| |].
    + left. exists i, l, c. repeat (split; [done|]). split.
      * intros j l' Hj Hl'. apply (Habove j); [|done].
        apply lookup_lt_Some in Hl'. lia.
      * rewrite Hpick. simpl in E. by rewrite E.
    + right. split.
      * intros j l' Hl'. apply (Hall j); [|done]. by apply lookup_lt_Some in Hl'.
      * rewrite Hpick. simpl in E. by rewrite E.
  - intros Hli. unfold pick, fire, handleDraw. rewrite Hguard. fold li.
    by rewrite bool_decide_true.
  - intros L HL Hvis. unfold pick, fire, handleDraw. rewrite Hguard. fold li.
    destruct (bool_decide (li = -1)); [done|]. by rewrite HL, Hvis.
Qed.

(** * The pencil and the eraser *)

Lemma with_layers_same u : with_layers (st_layers u) u = u.
Proof. by destruct u. Qed.

Lemma wf_layers_weaken h h' n ls :
  (∀ k g, h !! k = Some g → h' !! k = Some g) →
  wf_layers h n ls → wf_layers h' n ls.
Proof.
  intros Hext Hwf. unfold wf_layers in *. eapply Forall_impl; [exact Hwf|].
  intros l (g & Hg & Hsq). eauto.
Qed.

Lemma layerCell_weaken h h' l q :
  (∀ k g, h !! k = Some g → h' !! k = Some g) →
  is_Some (h !! grid l) → layerCell h' l q = layerCell h l q.
Proof.
  intros Hext [g Hg]. unfold layerCell. by rewrite Hg, (Hext _ _ Hg).
Qed.

Lemma heap_grow (h : list PixelGrid) g1 k g :
  h !! k = Some g → (h ++ [g1]) !! k = Some g.
Proof. apply lookup_app_l_Some. Qed.

Lemma heap_grow_set (h : list PixelGrid) g1 g2 k g :
  h !! k = Some g → (<[length h := g2]> (h ++ [g1])) !! k = Some g.
Proof.
  intros Hk. pose proof (lookup_lt_Some _ _ _ Hk).
  rewrite list_lookup_insert_ne by lia. by apply lookup_app_l_Some.
Qed.

(** One stroke of the pencil or the eraser on a cell of the grid, with a
    visible active layer: only the layers are rescheduled, every layer keeps
    its fields, and the grids show what they showed before, except that the
    active layer shows the colour of the tool at the cell. *)
Lemma paint_run w x y isClick L :
  wf w →
  inside (st_gridSize (ui w)) (x, y) →
  st_tool (ui w) = pencil ∨ st_tool (ui w) = eraser →
  let li := findIndex (λ l, bool_decide (id l = st_activeLayerId (ui w))) (st_layers (ui w)) in
  js_get (st_layers (ui w)) li = Some L →
  visible L = true →
  let c := if is_eraser (st_tool (ui w)) then EmptyString else st_selectedColor (ui w) in
  ∃ w1 ls1,
    fire (λ st, handleDraw st x y isClick) w = Ret w1
    ∧ ui w1 = with_layers ls1 (ui w)
    ∧ wf w1
    ∧ length ls1 = length (st_layers (ui w))
    ∧ ∀ j l, st_layers (ui w) !! j = Some l →
        ∃ l1, ls1 !! j = Some l1
          ∧ id l1 = id l ∧ name l1 = name l ∧ visible l1 = visible l ∧ opacity l1 = opacity l
          ∧ ∀ q, layerCell (heap w1) l1 q
                 = if bool_decide (j = Z.to_nat li ∧ q = (x, y)) then Some c
                   else layerCell (heap w) l q.
Proof.
  intros Hwf Hin Htool li HL Hvis c.
  pose proof HL as [Hli0 HLnat]%js_get_Some.
  destruct (wf_layers_lookup _ _ _ _ _ Hwf HLnat) as (g & Hg & Hsq).
  destruct (proj2 (cell_inside _ g (x, y) Hsq) Hin) as [c0 Hc0].
  destruct (js_get_lt g y) as [row Hrow]; [destruct Hsq, Hin; simpl in *; lia|].
  pose proof (square_row _ _ _ _ Hsq Hrow) as Hlen.
  assert (Hx : 0 ≤ x < Z.of_nat (length row)) by (destruct Hin; simpl in *; lia).
  set (copy := length (heap w)).
  set (newLayers := <[Z.to_nat li := mkLayer (id L) (name L) (visible L) (opacity L) copy]>
                      (st_layers (ui w))).
  set (wa := mkWorld (heap w ++ [g]) (ui w)).
  assert (Hcopy : heap wa !! copy = Some g).
  { unfold wa, copy. simpl. rewrite lookup_app_r by lia. by rewrite Nat.sub_diag. }
  assert (Hrun : fire (λ st, handleDraw st x y isClick) w =
    match (if bool_decide (Some c0 ≠ Some c)
           then writeCell copy x y c;; setLayers newLayers else ret tt) wa with
    | Ret (_, w') => Ret w'
    | Throw e => Throw e
    | Stuck s => Stuck s
    end).
  { unfold fire, handleDraw. rewrite bool_decide_false by (destruct Hin; simpl in *; lia).
    fold li. rewrite bool_decide_false by lia. rewrite HL, Hvis. cbn [negb].
    assert (Hkind : is_picker (st_tool (ui w)) = false
                    ∧ is_bucket (st_tool (ui w)) = false
                    ∧ is_pencil (st_tool (ui w)) || is_eraser (st_tool (ui w)) = true).
    { by destruct Htool as [-> | ->]. }
    destruct Hkind as (-> & -> & ->). cbn [andb].
    erewrite bind_Ret by by apply deref_run.
    erewrite bind_Ret by reflexivity.
    erewrite bind_Ret by (eapply readCell_run; eauto).
    fold copy wa c. rewrite Hc0. unfold newLayers. by rewrite Hvis. }
  assert (Hold : ∀ k g0, heap w !! k = Some g0 → (heap w ++ [g]) !! k = Some g0)
    by (intros; by apply heap_grow).
  case_bool_decide as Hchange.
  - (* the cell changes *)
    erewrite bind_Ret in Hrun; [|eapply writeCell_run; [exact Hcopy|exact Hrow|exact Hx]].
    set (g1 := setCell g x y c row) in *.
    assert (Hold1 : ∀ k g0, heap w !! k = Some g0 → (<[copy := g1]> (heap w ++ [g])) !! k = Some g0)
      by (intros; by apply heap_grow_set).
    assert (Hnew : (<[copy := g1]> (heap w ++ [g])) !! copy = Some g1).
    { apply list_lookup_insert_eq. rewrite length_app. simpl. unfold copy. lia. }
    eexists _, newLayers. split; [exact Hrun|]. simpl.
    split; [done|]. split; [|split; [by unfold newLayers; rewrite length_insert|]].
    + unfold wf. simpl. unfold newLayers, wf_layers. apply Forall_insert.
      * eapply wf_layers_weaken; [exact Hold1|exact Hwf].
      * exists g1. split; [done|]. by eapply square_setCell.
    + intros j l Hl. destruct (decide (j = Z.to_nat li)) as [->|Hj].
      * assert (l = L) as -> by congruence.
        eexists. split; [unfold newLayers; apply list_lookup_insert_eq; by eapply lookup_lt_Some|].
        simpl. repeat (split; [done|]). intros q.
        unfold layerCell. simpl. rewrite Hnew, Hg. simpl.
        unfold g1. rewrite cell_setCell by done.
        destruct (decide (q = (x, y))) as [->|Hq].
        -- by rewrite !bool_decide_true.
        -- rewrite (bool_decide_false (q = _)) by done.
           by rewrite bool_decide_false by (intros [_ ?]; done).
      * exists l. split; [unfold newLayers; by rewrite list_lookup_insert_ne|].
        repeat (split; [done|]). intros q.
        rewrite bool_decide_false by (intros [? _]; done).
        apply layerCell_weaken; [done|].
        destruct (wf_layers_lookup _ _ _ _ _ Hwf Hl) as (g0 & Hg0 & _). eauto.
  - (* the cell already has the colour *)
    assert (c0 = c) as -> by congruence.
    exists wa, (st_layers (ui w)). split; [exact Hrun|]. simpl.
    split; [by rewrite with_layers_same|]. split; [|split; [done|]].
    + unfold wf, wa. simpl. eapply wf_layers_weaken; [exact Hold|exact Hwf].
    + intros j l Hl. exists l. repeat (split; [done|]). intros q.
      destruct (wf_layers_lookup _ _ _ _ _ Hwf Hl) as (g0 & Hg0 & _).
      rewrite (layerCell_weaken (heap w)); [|done|eauto].
      case_bool_decide as Hjq; [|done]. destruct Hjq as [-> ->].
      assert (l = L) as -> by congruence.
      unfold layerCell. rewrite Hg. done.
Qed.

(** * Painting and picking *)

Lemma findIndex_ext {A B} (p : A → bool) (q : B → bool) l l' :
  Forall2 (λ a b, p a = q b) l l' → findIndex p l = findIndex q l'.
Proof.
  induction 1 as [|a b l l' Hab _ IH]; [done|].
  cbn [findIndex]. by rewrite Hab, IH.
Qed.

Lemma passed_not h l p c :
  visible l = true → layerCell h l p = Some c → c ≠ EmptyString → ¬ passed h l p.
Proof. intros Hv Hc Hne [?|?]; congruence. Qed.

(** C7, as the source has it.  On a well-formed document with a visible
    active layer, the picker at a cell of the grid selects the colour of the
    topmost visible layer that is not empty there and switches to the pencil,
    whichever layer is active; if every layer is hidden or empty there, it
    changes nothing.  It never throws.  When the active layer is missing or
    hidden, [handleDraw] returns before the picker runs and changes
    nothing. *)
Theorem picker_picks_topmost w x y isClick :
  let li := findIndex (λ l, bool_decide (id l = st_activeLayerId (ui w))) (st_layers (ui w)) in
  let pick := fire (λ st, handleDraw st x y isClick) w in
  (wf w → inside (st_gridSize (ui w)) (x, y) → st_tool (ui w) = picker →
   ∀ L, js_get (st_layers (ui w)) li = Some L → visible L = true →
     (∃ i l c,
         st_layers (ui w) !! i = Some l ∧ visible l = true
         ∧ layerCell (heap w) l (x, y) = Some c ∧ c ≠ EmptyString
         ∧ (∀ j l', (i < j)%nat → st_layers (ui w) !! j = Some l' → passed (heap w) l' (x, y))
         ∧ pick = Ret (mkWorld (heap w) (with_tool pencil (with_selectedColor c (ui w)))))
     ∨ ((∀ j l', st_layers (ui w) !! j = Some l' → passed (heap w) l' (x, y))
        ∧ pick = Ret w))
  ∧ (li = -1 → pick = Ret w)
  ∧ (∀ L, js_get (st_layers (ui w)) li = Some L → visible L = false → pick = Ret w).
Proof.
  intros li pick. split; [|split].
  - intros Hwf Hin Htool. by apply picker_run.
  - intros Hli. unfold pick, fire, handleDraw. fold li.
    destruct (bool_decide (x < 0 ∨ _)); [done|]. by rewrite bool_decide_true.
  - intros L HL Hvis. unfold pick, fire, handleDraw. fold li.
    destruct (bool_decide (x < 0 ∨ _)); [done|].
    destruct (bool_decide (li = -1)); [done|]. by rewrite HL, Hvis.
Qed.

(** C9.  With the pencil, a non-empty selected colour [c], a visible active
    layer and a cell of the grid at which every higher layer is hidden or
    empty: after one stroke of the pencil at the cell, whatever colour is
    selected next, the picker at the same cell selects [c]. *)
Theorem paint_then_pick w x y L c c' click click' :
  wf w →
  inside (st_gridSize (ui w)) (x, y) →
  st_tool (ui w) = pencil →
  st_selectedColor (ui w) = c →
  c ≠ EmptyString →
  let li := findIndex (λ l, bool_decide (id l = st_activeLayerId (ui w))) (st_layers (ui w)) in
  js_get (st_layers (ui w)) li = Some L →
  visible L = true →
  (∀ j l', (Z.to_nat li < j)%nat → st_layers (ui w) !! j = Some l' → passed (heap w) l' (x, y)) →
  ∃ w1 w2,
    fire (λ st, handleDraw st x y click) w = Ret w1
    ∧ fire (λ st, handleDraw st x y click')
           (mkWorld (heap w1) (with_tool picker (with_selectedColor c' (ui w1)))) = Ret w2
    ∧ st_selectedColor (ui w2) = c.
Proof.
  intros Hwf Hin Htool Hsel Hne li HL Hvis Habove.
  destruct (paint_run w x y click L Hwf Hin (or_introl Htool) HL Hvis)
    as (w1 & ls1 & E1 & Hui & Hwf1 & Hlen & Hlayers).
  fold li in Hlayers. rewrite Htool, Hsel in Hlayers. cbn [is_eraser] in Hlayers.
  set (wp := mkWorld (heap w1) (with_tool picker (with_selectedColor c' (ui w1)))).
  assert (Hls : st_layers (ui wp) = ls1) by (unfold wp; simpl; by rewrite Hui).
  assert (Hgs : st_gridSize (ui wp) = st_gridSize (ui w)) by (unfold wp; simpl; by rewrite Hui).
  assert (Hact : st_activeLayerId (ui wp) = st_activeLayerId (ui w)) by (unfold wp; simpl; by rewrite Hui).
  assert (Hwfp : wf wp).
  { unfold wf in *. rewrite Hls, Hgs. unfold wp. simpl. rewrite Hui in Hwf1. exact Hwf1. }
  pose proof HL as [Hli0 HLnat]%js_get_Some.
  destruct (Hlayers _ _ HLnat) as (L1 & HL1 & _ & _ & Hvis1 & _ & Hcell1).
  assert (Hli : findIndex (λ l, bool_decide (id l = st_activeLayerId (ui wp))) (st_layers (ui wp)) = li).
  { rewrite Hls, Hact. unfold li. apply findIndex_ext.
    apply Forall2_same_length_lookup_2; [done|].
    intros j a b Ha Hb. destruct (Hlayers _ _ Hb) as (l1 & Hl1 & Hid & _).
    assert (a = l1) as -> by congruence. by rewrite Hid. }
  destruct (picker_run wp x y click' Hwfp) as (Hpick & _ & _);
    [by rewrite Hgs|done|].
  rewrite Hli in Hpick.
  destruct (Hpick L1) as [(i & l & cf & Hl & Hv & Hc & Hcne & Hab & E2)|[Hall E2]].
  { rewrite Hls. apply js_get_Some. done. }
  { by rewrite Hvis1. }
  - exists w1, (mkWorld (heap wp) (with_tool pencil (with_selectedColor cf (ui wp)))).
    split; [done|]. split; [done|]. simpl.
    rewrite Hls in Hl, Hab.
    assert (Hmine : ¬ passed (heap w1) L1 (x, y)).
    { eapply passed_not; [by rewrite Hvis1| |exact Hne].
      rewrite Hcell1. by rewrite bool_decide_true. }
    destruct (decide (i < Z.to_nat li)%nat) as [Hlt|Hge].
    { exfalso. apply Hmine. by apply (Hab (Z.to_nat li)). }
    destruct (decide (i = Z.to_nat li)) as [->|Hineq].
    { assert (l = L1) as -> by congruence.
      unfold wp in Hc. simpl in Hc. rewrite Hcell1 in Hc.
      rewrite bool_decide_true in Hc by done. congruence. }
    exfalso.
    destruct (lookup_lt_is_Some_2 (st_layers (ui w)) i) as [l0 Hl0].
    { rewrite <- Hlen. by eapply lookup_lt_Some. }
    destruct (Hlayers _ _ Hl0) as (l1 & Hl1 & _ & _ & Hv1 & _ & Hc1).
    assert (l1 = l) as -> by congruence.
    unfold wp in Hc. simpl in Hc. rewrite Hc1 in Hc.
    rewrite bool_decide_false in Hc by (intros [? _]; done).
    apply (passed_not (heap w) l0 (x, y) cf); [congruence|done|done|].
    apply (Habove i); [lia|done].
  - exfalso. rewrite Hls in Hall.
    apply (passed_not (heap wp) L1 (x, y) c); [by rewrite Hvis1| |done|by apply (Hall (Z.to_nat li))].
    unfold wp. simpl. rewrite Hcell1. by rewrite bool_decide_true.
Qed.

(** * The bucket *)

Lemma commit_last (pre : list HistoryState) (e : HistoryState) :
  let full := pre ++ [e] in
  let h' := if bool_decide (Z.of_nat (length full) > MAX_HISTORY) then drop 1 full else full in
  js_get h' (Z.of_nat (length h') - 1) = Some e.
Proof.
  intros full h'.
  assert (Hfull : length full = S (length pre)) by (unfold full; rewrite length_app; simpl; lia).
  assert (Hlast : full !! length pre = Some e).
  { unfold full. rewrite lookup_app_r by lia. by rewrite Nat.sub_diag. }
  apply js_get_Some. unfold h', MAX_HISTORY. case_bool_decide as Hbig.
  - rewrite length_drop. split; [lia|]. rewrite lookup_drop. rewrite <- Hlast. f_equal. lia.
  - split; [lia|]. rewrite <- Hlast. f_equal. lia.
Qed.

(** C5.  A click with the bucket on a cell of the grid, with a visible
    active layer: [floodFill] writes into the grid that the rendered layers
    refer to, and the entry that [addToHistory] then puts at the cursor is
    made from the copy taken before.  So the entry holds, for the active
    layer, the grid as it was before the fill, while the live layer holds the
    filled grid; the entry differs from the live document whenever the fill
    changed the grid, which it does whenever the clicked cell did not already
    have the selected colour. *)
Theorem bucket_commits_prefill w x y L g :
  wf w →
  inside (st_gridSize (ui w)) (x, y) →
  st_tool (ui w) = bucket →
  let li := findIndex (λ l, bool_decide (id l = st_activeLayerId (ui w))) (st_layers (ui w)) in
  let sel := st_selectedColor (ui w) in
  js_get (st_layers (ui w)) li = Some L →
  visible L = true →
  heap w !! grid L = Some g →
  ∃ w' g' e,
    fire (λ st, handleDraw st x y true) w = Ret w'
    ∧ st_layers (ui w') = st_layers (ui w)
    ∧ heap w' !! grid L = Some g'
    ∧ (cell g (x, y) = Some sel → g' = g)
    ∧ (∀ t, cell g (x, y) = Some t → t ≠ sel → recoloured g t sel (x, y) g')
    ∧ js_get (st_history (ui w')) (st_historyIndex (ui w')) = Some e
    ∧ (∃ v, layers e !! Z.to_nat li = Some v ∧ grid v = g)
    ∧ (g' ≠ g → document w' ≠ Some e)
    ∧ (cell g (x, y) ≠ Some sel → g' ≠ g).
Proof.
  intros Hwf Hin Htool li sel HL Hvis Hg.
  pose proof HL as [Hli0 HLnat]%js_get_Some.
  destruct (wf_layers_lookup _ _ _ _ _ Hwf HLnat) as (g0 & Hg0 & Hsq).
  assert (g0 = g) as -> by congruence. clear Hg0.
  destruct (proj2 (cell_inside _ g (x, y) Hsq) Hin) as [t0 Ht0].
  set (copy := length (heap w)).
  assert (HgL : (grid L < copy)%nat) by by eapply lookup_lt_Some.
  set (newLayers := <[Z.to_nat li := mkLayer (id L) (name L) true (opacity L) copy]>
                      (st_layers (ui w))).
  set (wa := mkWorld (heap w ++ [g]) (ui w)).
  assert (Hcopy : heap wa !! copy = Some g).
  { unfold wa, copy. simpl. rewrite lookup_app_r by lia. by rewrite Nat.sub_diag. }
  assert (HgLa : heap wa !! grid L = Some g) by by apply heap_grow.
  (* the fill *)
  assert (Hfill : ∃ g',
    floodFill (S (cellCount g)) (ui w) li x y (Some t0) sel wa
      = Ret (tt, mkWorld (<[grid L := g']> (heap wa)) (ui w))
    ∧ square (st_gridSize (ui w)) g'
    ∧ (t0 = sel → g' = g)
    ∧ (t0 ≠ sel → recoloured g t0 sel (x, y) g')).
  { destruct (decide (t0 = sel)) as [Heq|Hneq].
    - exists g. cbn [floodFill]. rewrite bool_decide_true by congruence.
      unfold ret. rewrite (world_same wa) by done. done.
    - destruct (floodFill_run (ui w) li L t0 sel (S (cellCount g)) wa g (x, y) HL Hneq HgLa Hsq)
        as (g' & E & Hsq' & Hrec).
      { pose proof (countColor_le_cellCount t0 g). lia. }
      exists g'. cbn [fst snd] in E. rewrite E. unfold fill_ui.
      rewrite bool_decide_true by done. unfold wa at 2. simpl.
      rewrite with_layers_same. done. }
  destruct Hfill as (g' & Efill & Hsq' & Hsame & Hrec).
  set (wb := mkWorld (<[grid L := g']> (heap wa)) (ui w)) in *.
  assert (HgLb : heap wb !! grid L = Some g').
  { unfold wb, wa. simpl. apply list_lookup_insert_eq. rewrite length_app. fold copy. lia. }
  assert (Hcopyb : heap wb !! copy = Some g).
  { unfold wb. simpl. rewrite list_lookup_insert_ne by lia. done. }
  (* the snapshot *)
  assert (Hwfb : wf_layers (heap wb) (st_gridSize (ui w)) newLayers).
  { unfold newLayers, wf_layers. apply Forall_insert; [|by exists g; simpl].
    eapply Forall_impl; [exact Hwf|]. intros l (gl & Hgl & Hsql).
    destruct (decide (grid l = grid L)) as [Heq|Hneq].
    - exists g'. by rewrite Heq.
    - exists gl. split; [|done]. unfold wb. simpl.
      rewrite list_lookup_insert_ne by done. by apply heap_grow. }
  destruct (freezeAll_wf _ _ _ Hwfb) as [snap Hsnap].
  pose proof (addToHistory_run (ui w) newLayers (st_gridSize (ui w)) wb snap Hsnap) as Ecommit.
  cbv zeta in Ecommit.
  set (e := mkHistoryState snap (st_gridSize (ui w))) in *.
  set (pre := js_slice0 (st_history (ui w)) (st_historyIndex (ui w) + 1)) in *.
  pose proof (commit_last pre e) as Hlast. cbv zeta in Hlast.
  set (h' := if bool_decide (Z.of_nat (length (pre ++ [e])) > MAX_HISTORY)
             then drop 1 (pre ++ [e]) else pre ++ [e]) in *.
  set (w' := mkWorld (heap wb) (with_historyIndex (Z.of_nat (length h') - 1) (with_history h' (ui w)))).
  assert (Hrun : fire (λ st, handleDraw st x y true) w = Ret w').
  { unfold fire, handleDraw. rewrite bool_decide_false by (destruct Hin; simpl in *; lia).
    fold li. rewrite bool_decide_false by lia. rewrite HL, Hvis, Htool. cbn [negb is_picker is_bucket andb].
    erewrite bind_Ret by by apply deref_run.
    erewrite bind_Ret by reflexivity.
    erewrite bind_Ret by (eapply readCell_run; [exact Hcopy|]; apply js_get_lt;
                           destruct Hsq, Hin; simpl in *; lia).
    fold copy wa sel newLayers. rewrite Ht0.
    erewrite bind_Ret by exact Efill. fold wb. by rewrite Ecommit. }
  assert (Hentry : ∃ v, layers e !! Z.to_nat li = Some v ∧ grid v = g).
  { destruct (freezeAll_lookup _ _ _ (Z.to_nat li)
                (mkLayer (id L) (name L) true (opacity L) copy) Hsnap) as (gc & Hgc & Hv).
    { unfold newLayers. apply list_lookup_insert_eq. by eapply lookup_lt_Some. }
    simpl in Hgc. unfold wb, wa in Hcopyb. simpl in Hcopyb.
    eexists. split; [exact Hv|]. simpl. congruence. }
  exists w', g', e. split; [done|]. split; [done|]. split; [done|].
  split; [intros; apply Hsame; congruence|].
  split; [intros t Ht Hne; assert (t = t0) as -> by congruence; by apply Hrec|].
  split; [done|]. split; [done|]. split.
  - intros Hdiff Hdoc. unfold document in Hdoc.
    change (heap w') with (heap wb) in Hdoc.
    change (st_layers (ui w')) with (st_layers (ui w)) in Hdoc.
    destruct (freezeAll (heap wb) (st_layers (ui w))) as [vs|] eqn:Hvs; [|done].
    simpl in Hdoc. injection Hdoc as Hdoc.
    destruct (freezeAll_lookup _ _ _ _ _ Hvs HLnat) as (gl & Hgl & Hv).
    destruct Hentry as (v & Hv' & Hgv). unfold e in Hv'. simpl in Hv'.
    rewrite <- Hdoc in Hv'. rewrite Hv in Hv'. injection Hv' as <-.
    simpl in Hgv. congruence.
  - intros Hne Heq. subst g'.
    assert (Hts : t0 ≠ sel) by congruence.
    destruct (Hrec Hts (x, y)) as [[_ Hc]|[Hn _]].
    + congruence.
    + apply Hn. by apply region_here.
Qed.

(** * Layers *)

Lemma wf_layers_filter h n (P : Layer loc → Prop) `{∀ l, Decision (P l)} ls :
  wf_layers h n ls → wf_layers h n (filter P ls).
Proof.
  unfold wf_layers. rewrite !Forall_forall. intros Hwf l Hl.
  apply Hwf. apply list_elem_of_filter in Hl. tauto.
Qed.

(** With distinct ids, removing an id that is present removes one layer. *)
Lemma filter_id_length (ls : list (Layer loc)) (l : Layer loc) :
  NoDup (id <$> ls) → l ∈ ls →
  S (length (filter (λ l', id l' ≠ id l) ls)) = length ls.
Proof.
  induction ls as [|a ls IH]; intros Hnd Hl; [by apply not_elem_of_nil in Hl|].
  rewrite fmap_cons in Hnd. apply NoDup_cons in Hnd as [Ha Hnd].
  destruct (decide (id a = id l)) as [Heq|Hneq].
  - rewrite filter_cons_False by (intros ?; done). simpl. f_equal.
    assert (Hall : Forall (λ l', id l' ≠ id l) ls).
    { apply Forall_forall. intros b Hb Hbl. apply Ha. rewrite Heq, <- Hbl.
      by apply list_elem_of_fmap_2. }
    clear -Hall. induction Hall as [|b ls Hb _ IH]; [done|].
    rewrite filter_cons_True by done. simpl. by rewrite IH.
  - rewrite filter_cons_True by done. simpl. f_equal.
    apply IH; [done|]. apply elem_of_cons in Hl as [->|Hl]; done.
Qed.

Lemma filter_id_nonempty (ls : list (Layer loc)) (i : string) :
  NoDup (id <$> ls) → (1 < length ls)%nat →
  (0 < length (filter (λ l', id l' ≠ i) ls))%nat.
Proof.
  intros Hnd Hlen.
  destruct (decide (Exists (λ l, id l = i) ls)) as [Hex|Hno].
  - apply Exists_exists in Hex as (l & Hl & <-).
    pose proof (filter_id_length ls l Hnd Hl). lia.
  - apply not_Exists_Forall in Hno; [|intros ?; apply _].
    assert (Hsame : filter (λ l', id l' ≠ i) ls = ls).
    { clear -Hno. induction Hno as [|b ls Hb _ IH]; [done|].
      rewrite filter_cons_True by done. by rewrite IH. }
    rewrite Hsame. lia.
Qed.

(** C6, as the source has it.  [deleteLayer] on a document with a single
    layer returns without an error and without a change: layers, grid size,
    active layer and history stay as they are.  On a well-formed document of
    several layers with distinct ids it keeps, in order, exactly the layers
    whose id differs from the given one, so it removes the one layer that has
    the id, and it leaves the grids and the grid size alone. *)
Theorem deleteLayer_guarded w id_ :
  (length (st_layers (ui w)) = 1%nat → fire (λ st, deleteLayer st id_) w = Ret w)
  ∧ (wf w →
     NoDup (id <$> st_layers (ui w)) →
     (1 < length (st_layers (ui w)))%nat →
      ∃ w',
        fire (λ st, deleteLayer st id_) w = Ret w'
        ∧ st_layers (ui w') = filter (λ l, id l ≠ id_) (st_layers (ui w))
        ∧ (∀ l, l ∈ st_layers (ui w') ↔ l ∈ st_layers (ui w) ∧ id l ≠ id_)
        ∧ (∀ l, l ∈ st_layers (ui w) → id l = id_ →
                S (length (st_layers (ui w'))) = length (st_layers (ui w)))
        ∧ heap w' = heap w
        ∧ st_gridSize (ui w') = st_gridSize (ui w)).
Proof.
  split.
  - intros Hone. unfold fire, deleteLayer. by rewrite bool_decide_true by lia.
  - intros Hwf Hnd Hmany.
    set (newLayers := filter (λ l, id l ≠ id_) (st_layers (ui w))).
    destruct (freezeAll_wf (heap w) (st_gridSize (ui w)) newLayers) as [snap Hsnap].
    { by apply wf_layers_filter. }
    pose proof (filter_id_nonempty _ id_ Hnd Hmany) as Hne. fold newLayers in Hne.
    destruct (js_get_lt newLayers (Z.of_nat (length newLayers) - 1)) as [top Htop]; [lia|].
    assert (Hrun : ∃ u',
      fire (λ st, deleteLayer st id_) w = Ret (mkWorld (heap w) u')
      ∧ st_layers u' = newLayers ∧ st_gridSize u' = st_gridSize (ui w)).
    { unfold fire, deleteLayer. rewrite bool_decide_false by lia. fold newLayers.
      erewrite bind_Ret by reflexivity.
      destruct (bool_decide (st_activeLayerId (ui w) = id_)).
      - erewrite bind_Ret by (rewrite Htop; reflexivity).
        erewrite (addToHistory_run (ui w) newLayers) by done.
        eexists. split; [reflexivity|done].
      - erewrite bind_Ret by reflexivity.
        erewrite (addToHistory_run (ui w) newLayers) by done.
        eexists. split; [reflexivity|done]. }
    destruct Hrun as (u' & E & Hls & Hgs).
    exists (mkWorld (heap w) u'). simpl. rewrite Hls.
    split; [done|]. split; [done|]. split; [|split; [|done]].
    + intros l. unfold newLayers. by rewrite list_elem_of_filter, (comm and).
    + intros l Hl <-. by apply filter_id_length.
Qed.

(** C10, as the source has it.  [updateLayerOpacity] neither clamps nor
    fails: for every integer [v] it returns and stores [v] itself in every
    layer that has the given id, so the stored opacity lies in [0,100]
    exactly when [v] does.  No other field of such a layer, no other layer
    and no grid changes. *)
Theorem updateLayerOpacity_stores w id_ v :
  ∃ ls',
    fire (λ st, updateLayerOpacity st id_ v) w = Ret (mkWorld (heap w) (with_layers ls' (ui w)))
    ∧ length ls' = length (st_layers (ui w))
    ∧ ∀ j l, st_layers (ui w) !! j = Some l →
        ∃ l', ls' !! j = Some l'
          ∧ id l' = id l ∧ name l' = name l ∧ visible l' = visible l ∧ grid l' = grid l
          ∧ (id l = id_ → opacity l' = v ∧ (0 ≤ opacity l' ≤ 100 ↔ 0 ≤ v ≤ 100))
          ∧ (id l ≠ id_ → l' = l).
Proof.
  eexists. split; [reflexivity|]. split; [by rewrite length_map|].
  intros j l Hl. eexists. split.
  { change (map ?f ?l) with (f <$> l). rewrite list_lookup_fmap, Hl. reflexivity. }
  case_bool_decide as Hid; simpl.
  - do 4 (split; [done|]). split; [intros _; split; [done|tauto]|intros ?; done].
  - do 4 (split; [done|]). split; [intros ?; done|done].
Qed.

(** * Resizing *)

Lemma cell_empty n q :
  0 ≤ n → inside n q →
  cell (replicate (Z.to_nat n) (replicate (Z.to_nat n) EmptyString)) q = Some EmptyString.
Proof.
  intros Hn [Hx Hy]. unfold cell, js_get.
  rewrite bool_decide_true by lia. rewrite lookup_replicate_2 by lia.
  rewrite bool_decide_true by lia. by rewrite lookup_replicate_2 by lia.
Qed.

Lemma square_empty n :
  0 ≤ n → square n (replicate (Z.to_nat n) (replicate (Z.to_nat n) EmptyString)).
Proof.
  intros Hn. split.
  - rewrite length_replicate. lia.
  - apply Forall_replicate. rewrite length_replicate. lia.
Qed.

Lemma insert_last {A} (h : list A) (a b : A) : <[length h := b]> (h ++ [a]) = h ++ [b].
Proof. rewrite insert_app_r_alt by lia. by rewrite Nat.sub_diag. Qed.

Section Resize.
Variables (size gs : Z) (src new : loc) (g : PixelGrid).
Hypothesis src_new : src ≠ new.
Hypothesis g_square : square gs g.

Lemma copyCell_run w ng x y :
  heap w !! src = Some g → heap w !! new = Some ng → square size ng →
  0 ≤ x < Z.min size gs → 0 ≤ y < Z.min size gs →
  ∃ ng',
    copyCell src new x y w = Ret (tt, mkWorld (<[new := ng']> (heap w)) (ui w))
    ∧ square size ng'
    ∧ ∀ q, cell ng' q = if bool_decide (q.1 = x ∧ q.2 = y) then cell g q else cell ng q.
Proof.
  intros Hsrc Hnew Hsq Hx Hy.
  destruct (proj2 (cell_inside gs g (x, y) g_square)) as [c Hc]; [split; simpl; lia|].
  destruct (js_get_lt ng y) as [row Hrow]; [destruct Hsq; lia|].
  pose proof (square_row _ _ _ _ Hsq Hrow) as Hlen.
  exists (setCell ng x y c row). split; [|split].
  - unfold copyCell. erewrite bind_Ret.
    2:{ eapply readCell_run; [exact Hsrc|]. apply js_get_lt. destruct g_square. lia. }
    rewrite Hc. eapply writeCell_run; [done..|lia].
  - by eapply square_setCell.
  - intros [a b]. rewrite cell_setCell by (done || lia). simpl.
    repeat case_bool_decide; try done.
    + destruct H0 as [-> ->]. by rewrite Hc.
    + exfalso. injection H as -> ->. tauto.
    + exfalso. destruct H0 as [-> ->]. done.
Qed.

Lemma copyRow_run n :
  ∀ from w ng y,
    heap w !! src = Some g → heap w !! new = Some ng → square size ng →
    0 ≤ from → from + Z.of_nat n ≤ Z.min size gs → 0 ≤ y < Z.min size gs →
    ∃ ng',
      forLoop from n (λ x, copyCell src new x y) w
        = Ret (tt, mkWorld (<[new := ng']> (heap w)) (ui w))
      ∧ square size ng'
      ∧ ∀ q, cell ng' q = if bool_decide (q.2 = y ∧ from ≤ q.1 < from + Z.of_nat n)
                          then cell g q else cell ng q.
Proof.
  induction n as [|n IH]; intros from w ng y Hsrc Hnew Hsq Hfrom Hn Hy.
  - exists ng. cbn [forLoop]. unfold ret. rewrite world_same by done.
    split; [done|]. split; [done|]. intros q. by rewrite bool_decide_false by lia.
  - destruct (copyCell_run w ng from y) as (ng1 & E1 & Hsq1 & Hc1); [done..|lia|done|].
    destruct (IH (from + 1) (mkWorld (<[new := ng1]> (heap w)) (ui w)) ng1 y)
      as (ng2 & E2 & Hsq2 & Hc2); simpl.
    { by rewrite list_lookup_insert_ne. }
    { apply list_lookup_insert_eq. by eapply lookup_lt_Some. }
    { done. } { lia. } { lia. } { done. }
    exists ng2. cbn [forLoop]. erewrite bind_Ret by exact E1. rewrite E2. simpl.
    rewrite list_insert_insert_eq. split; [done|]. split; [done|].
    intros [a b]. rewrite Hc2, Hc1. simpl.
    repeat case_bool_decide; simplify_eq/=; try done; exfalso; lia.
Qed.

Lemma copyGrid_run n :
  ∀ from w ng,
    heap w !! src = Some g → heap w !! new = Some ng → square size ng →
    0 ≤ from → from + Z.of_nat n ≤ Z.min size gs →
    ∃ ng',
      forLoop from n (λ y, forLoop 0 (Z.to_nat (Z.min size gs)) (λ x, copyCell src new x y)) w
        = Ret (tt, mkWorld (<[new := ng']> (heap w)) (ui w))
      ∧ square size ng'
      ∧ ∀ q, cell ng' q = if bool_decide (from ≤ q.2 < from + Z.of_nat n ∧ 0 ≤ q.1 < Z.min size gs)
                          then cell g q else cell ng q.
Proof.
  induction n as [|n IH]; intros from w ng Hsrc Hnew Hsq Hfrom Hn.
  - exists ng. cbn [forLoop]. unfold ret. rewrite world_same by done.
    split; [done|]. split; [done|]. intros q. by rewrite bool_decide_false by lia.
  - destruct (copyRow_run (Z.to_nat (Z.min size gs)) 0 w ng from)
      as (ng1 & E1 & Hsq1 & Hc1); [done..|lia|lia|].
    destruct (IH (from + 1) (mkWorld (<[new := ng1]> (heap w)) (ui w)) ng1)
      as (ng2 & E2 & Hsq2 & Hc2); simpl.
    { by rewrite list_lookup_insert_ne. }
    { apply list_lookup_insert_eq. by eapply lookup_lt_Some. }
    { done. } { lia. } { lia. }
    exists ng2. cbn [forLoop]. erewrite bind_Ret by exact E1. rewrite E2. simpl.
    rewrite list_insert_insert_eq. split; [done|]. split; [done|].
    intros [a b]. rewrite Hc2, Hc1. simpl.
    repeat case_bool_decide; simplify_eq/=; try done; exfalso; lia.
Qed.

End Resize.

Lemma resizeLayer_run st size layer w g :
  heap w !! grid layer = Some g →
  square (st_gridSize st) g →
  0 ≤ size < 2 ^ 32 →
  ∃ ng,
    resizeLayer st size layer w
      = Ret (mkLayer (id layer) (name layer) (visible layer) (opacity layer) (length (heap w)),
             mkWorld (heap w ++ [ng]) (ui w))
    ∧ square size ng
    ∧ resized (st_gridSize st) size (cell g) (cell ng).
Proof.
  intros Hg Hsq Hsize.
  pose proof (lookup_lt_Some _ _ _ Hg) as Hlt.
  set (empty := replicate (Z.to_nat size) (replicate (Z.to_nat size) EmptyString)).
  set (wa := mkWorld (heap w ++ [empty]) (ui w)).
  assert (Hgs : 0 ≤ st_gridSize st) by (destruct Hsq; lia).
  destruct (copyGrid_run size (st_gridSize st) (grid layer) (length (heap w)) g
              ltac:(lia) Hsq (Z.to_nat (Z.min size (st_gridSize st))) 0 wa empty)
    as (ng & E & Hsqn & Hcell).
  { by apply heap_grow. }
  { unfold wa. simpl. rewrite lookup_app_r by lia. by rewrite Nat.sub_diag. }
  { apply square_empty. lia. }
  { lia. } { lia. }
  exists ng. split; [|split; [done|]].
  - unfold resizeLayer, createEmptyGrid. rewrite bool_decide_true by done.
    erewrite bind_Ret by reflexivity. fold empty wa.
    erewrite bind_Ret by exact E. unfold ret, wa. simpl. by rewrite insert_last.
  - intros q Hq. rewrite Hcell. unfold inside in *.
    case_bool_decide; case_bool_decide; try done; try (exfalso; lia).
    apply cell_empty; [lia|done].
Qed.

(** The layers after [layers.map]: each new layer keeps the fields of the old
    one and refers to a new grid of the new size. *)
Lemma resizeAll_run st size ls :
  0 ≤ size < 2 ^ 32 →
  ∀ w, wf_layers (heap w) (st_gridSize st) ls →
    ∃ ls' ngs,
      traverse (resizeLayer st size) ls w = Ret (ls', mkWorld (heap w ++ ngs) (ui w))
      ∧ wf_layers (heap w ++ ngs) size ls'
      ∧ Forall2 (λ l l',
          id l' = id l ∧ name l' = name l ∧ visible l' = visible l ∧ opacity l' = opacity l
          ∧ resized (st_gridSize st) size (layerCell (heap w) l) (layerCell (heap w ++ ngs) l'))
          ls ls'.
Proof.
  intros Hsize. induction ls as [|l ls IH]; intros w Hwf.
  - exists [], []. rewrite app_nil_r. unfold ret. simpl.
    split; [by destruct w|]. split; [by apply Forall_nil|by apply Forall2_nil].
  - apply Forall_cons in Hwf as [(g & Hg & Hsq) Hwf].
    destruct (resizeLayer_run st size l w g Hg Hsq Hsize) as (ng & E & Hsqn & Hres).
    set (w1 := mkWorld (heap w ++ [ng]) (ui w)).
    assert (Hext : ∀ k g0, heap w !! k = Some g0 → heap w1 !! k = Some g0)
      by (intros; by apply heap_grow).
    destruct (IH w1) as (ls' & ngs & E' & Hwf' & Hrel).
    { eapply wf_layers_weaken; [exact Hext|exact Hwf]. }
    unfold w1 in E', Hwf', Hrel. simpl in E', Hwf', Hrel.
    rewrite <- app_assoc in E', Hwf', Hrel. simpl in E', Hwf', Hrel.
    eexists (_ :: ls'), (ng :: ngs). split; [|split].
    + cbn [traverse]. erewrite bind_Ret by exact E. erewrite bind_Ret by exact E'. reflexivity.
    + apply Forall_cons. split; [|done]. exists ng. simpl. split; [|done].
      rewrite lookup_app_r by lia. by rewrite Nat.sub_diag.
    + apply Forall2_cons. split.
      * simpl. repeat (split; [done|]). intros q Hq.
        unfold layerCell. simpl. rewrite Hg.
        rewrite lookup_app_r by lia. rewrite Nat.sub_diag. simpl. by apply Hres.
      * apply Forall2_same_length_lookup_2; [by eapply Forall2_length|].
        intros i a b Ha Hb.
        destruct (Forall2_lookup_lr _ _ _ _ _ _ Hrel Ha Hb) as (? & ? & ? & ? & Hab).
        repeat (split; [done|]).
        intros q Hq. rewrite (Hab q Hq). case_bool_decide; [|done].
        apply layerCell_weaken; [exact Hext|].
        destruct (wf_layers_lookup _ _ _ _ _ Hwf Ha) as (ga & Hga & _). eauto.
Qed.

(** C8.  [changeGridSize] with the current size changes nothing.  On a
    well-formed document and with another size that is an array length it
    returns, the grid size becomes the new size, every layer keeps its fields
    and gets a grid of the new size, in which a cell that is inside both the
    old and the new grid holds what the old grid held there and every other
    cell is empty. *)
Theorem changeGridSize_resizes w size :
  (size = st_gridSize (ui w) → fire (λ st, changeGridSize st size) w = Ret w)
  ∧ (wf w →
     0 ≤ size < 2 ^ 32 →
     size ≠ st_gridSize (ui w) →
      ∃ w',
        fire (λ st, changeGridSize st size) w = Ret w'
        ∧ st_gridSize (ui w') = size
        ∧ wf w'
        ∧ Forall2 (λ l l',
            id l' = id l ∧ name l' = name l ∧ visible l' = visible l ∧ opacity l' = opacity l
            ∧ (∃ ng, heap w' !! grid l' = Some ng ∧ square size ng)
            ∧ ∀ q, inside size q →
                layerCell (heap w') l' q
                = if bool_decide (inside (st_gridSize (ui w)) q)
                  then layerCell (heap w) l q else Some EmptyString)
            (st_layers (ui w)) (st_layers (ui w'))).
Proof.
  split.
  - intros ->. unfold fire, changeGridSize. by rewrite bool_decide_true.
  - intros Hwf Hsize Hne.
    destruct (resizeAll_run (ui w) size (st_layers (ui w)) Hsize w Hwf)
      as (ls' & ngs & E & Hwf' & Hrel).
    destruct (freezeAll_wf _ _ _ Hwf') as [snap Hsnap].
    eexists. split; [|split; [|split]].
    + unfold fire, changeGridSize. rewrite bool_decide_false by done.
      erewrite bind_Ret by exact E.
      erewrite bind_Ret by reflexivity. erewrite bind_Ret by reflexivity.
      erewrite addToHistory_run by exact Hsnap. reflexivity.
    + done.
    + exact Hwf'.
    + simpl. apply Forall2_same_length_lookup_2; [by eapply Forall2_length|].
      intros i a b Ha Hb.
      destruct (Forall2_lookup_lr _ _ _ _ _ _ Hrel Ha Hb) as (? & ? & ? & ? & Hab).
      repeat (split; [done|]). split; [|exact Hab].
      by eapply wf_layers_lookup.
Qed.

(** * The recursion bound of the model is never reached *)

Lemma fueled_bind {A B} (m : M A) (k : A → M B) (w : World) :
  fueled (m w) →
  (∀ a w', m w = Ret (a, w') → fueled (k a w')) →
  fueled (bind m k w).
Proof.
  unfold fueled, bind. destruct (m w) as [[a w']|e|s]; intros Hm Hk;
    [exact (Hk a w' eq_refl)|discriminate|intros [= ->]; by apply Hm].
Qed.

Lemma fueled_deref l w : fueled (deref l w).
Proof. unfold fueled, deref. by destruct (heap w !! l). Qed.

Lemma fueled_readCell l x y w : fueled (readCell l x y w).
Proof.
  unfold readCell. apply fueled_bind; [apply fueled_deref|].
  intros g w' _. by destruct (js_get g y).
Qed.

Lemma fueled_writeCell l x y c w : fueled (writeCell l x y c w).
Proof.
  unfold writeCell. apply fueled_bind; [apply fueled_deref|].
  intros g w' _. destruct (js_get g y); [|done]. by case_bool_decide.
Qed.

Lemma readCell_inv l x y w v w' :
  readCell l x y w = Ret (v, w') →
  w' = w ∧ ∃ g row, heap w !! l = Some g ∧ js_get g y = Some row ∧ v = js_get row x.
Proof.
  unfold readCell, bind, deref. destruct (heap w !! l) as [g|]; [|done].
  destruct (js_get g y) as [row|] eqn:Hrow; [|done].
  intros [= <- <-]. eauto 6.
Qed.

(** A fill whose target is not the replacement uses up at most one unit of
    fuel per cell of the target colour, whatever the shape of the grid. *)
Lemma floodFill_fueled st li L t r fuel :
  js_get (st_layers st) li = Some L →
  t ≠ r →
  ∀ x y w g,
    heap w !! grid L = Some g →
    (countColor t g < fuel)%nat →
    match floodFill fuel st li x y (Some t) r w with
    | Ret (_, w') => ∃ g', heap w' = <[grid L := g']> (heap w)
                           ∧ (countColor t g' ≤ countColor t g)%nat
    | Throw _ => True
    | Stuck s => s = IllTyped
    end.
Proof.
  intros HL Htr. induction fuel as [|fuel IH]; intros x y w g Hg Hfuel; [lia|].
  assert (Hsame : ∃ g', heap w = <[grid L := g']> (heap w)
                        ∧ (countColor t g' ≤ countColor t g)%nat).
  { exists g. by rewrite list_insert_id. }
  cbn [floodFill]. rewrite bool_decide_false by congruence.
  case_bool_decide; [done|]. rewrite HL. cbn zeta.
  unfold bind at 1. unfold readCell, bind, deref. rewrite Hg.
  destruct (js_get g y) as [row|] eqn:Hrow; [|done]. unfold ret.
  case_bool_decide as Hcur; [done|].
  unfold writeCell, bind, deref. rewrite Hg, Hrow.
  pose proof (js_get_range _ _ _ Hcur) as Hx. rewrite bool_decide_true by done.
  set (g1 := setCell g x y r row).
  assert (Hcnt1 : S (countColor t g1) = countColor t g) by by apply countColor_setCell.
  assert (Hlt : (grid L < length (heap w))%nat) by by eapply lookup_lt_Some.
  set (w1 := mkWorld (<[grid L := g1]> (heap w)) (ui w)).
  pose proof (IH (x + 1) y w1 g1) as H1.
  destruct (floodFill fuel st li (x + 1) y (Some t) r w1) as [[[] w2]|e|s];
    [|done|apply H1; [by apply list_lookup_insert_eq|lia]].
  destruct H1 as (g2 & Hh2 & Hc2); [by apply list_lookup_insert_eq|lia|].
  simpl in Hh2. rewrite list_insert_insert_eq in Hh2.
  pose proof (IH (x - 1) y w2 g2) as H2.
  assert (Hg2 : heap w2 !! grid L = Some g2) by (rewrite Hh2; by apply list_lookup_insert_eq).
  destruct (floodFill fuel st li (x - 1) y (Some t) r w2) as [[[] w3]|e|s];
    [|done|apply H2; [done|lia]].
  destruct H2 as (g3 & Hh3 & Hc3); [done|lia|].
  rewrite Hh2, list_insert_insert_eq in Hh3.
  pose proof (IH x (y + 1) w3 g3) as H3.
  assert (Hg3 : heap w3 !! grid L = Some g3) by (rewrite Hh3; by apply list_lookup_insert_eq).
  destruct (floodFill fuel st li x (y + 1) (Some t) r w3) as [[[] w4]|e|s];
    [|done|apply H3; [done|lia]].
  destruct H3 as (g4 & Hh4 & Hc4); [done|lia|].
  rewrite Hh3, list_insert_insert_eq in Hh4.
  pose proof (IH x (y - 1) w4 g4) as H4.
  assert (Hg4 : heap w4 !! grid L = Some g4) by (rewrite Hh4; by apply list_lookup_insert_eq).
  destruct (floodFill fuel st li x (y - 1) (Some t) r w4) as [[[] w5]|e|s];
    [|done|apply H4; [done|lia]].
  destruct H4 as (g5 & Hh5 & Hc5); [done|lia|].
  rewrite Hh4, list_insert_insert_eq in Hh5.
  exists g5. simpl. split; [done|lia].
Qed.

Lemma pickLoop_fueled st x y n w : fueled (pickLoop st x y n w).
Proof.
  induction n as [|n IH]; [done|]. cbn [pickLoop].
  destruct (st_layers st !! n) as [l|]; [|done].
  destruct (visible l); [|done].
  apply fueled_bind; [apply fueled_readCell|].
  intros [s|] w' [-> _]%readCell_inv; [|done]. by destruct (truthy (Some s)).
Qed.

Lemma stringify_fueled ls w : fueled (stringify ls w).
Proof.
  induction ls as [|l ls IH]; [done|].
  change (stringify (l :: ls)) with
    (do v <- (do g <- deref (grid l);
              ret (mkLayer (id l) (name l) (visible l) (opacity l) g));
     do bs <- stringify ls; ret (v :: bs)).
  unfold fueled, bind, deref, ret in *. destruct (heap w !! grid l); [|done].
  by destruct (stringify ls w) as [[bs w0]|e|s].
Qed.

Lemma addToHistory_fueled st ls n w : fueled (addToHistory st ls n w).
Proof.
  unfold addToHistory. apply fueled_bind; [apply stringify_fueled|]. done.
Qed.

(** [handleDraw] gives [floodFill] enough fuel, on every state and every
    store: the recursion bound is a device of the model and never decides
    what a handler does. *)
Lemma handleDraw_fueled st x y isClick w : fueled (handleDraw st x y isClick w).
Proof.
  unfold handleDraw. case_bool_decide as Hout; [done|].
  case_bool_decide as Hli; [done|].
  destruct (js_get (st_layers st) _) as [L|] eqn:HL; [|done].
  destruct (visible L); [|done]. cbn [negb].
  destruct (is_picker (st_tool st)); [apply pickLoop_fueled|].
  apply fueled_bind; [apply fueled_deref|]. intros g w0 Hderef.
  assert (w0 = w ∧ heap w !! grid L = Some g) as [-> Hg].
  { unfold deref in Hderef. destruct (heap w !! grid L); [|done]. by injection Hderef as -> ->. }
  apply fueled_bind; [done|]. intros copy wa [= <- <-].
  assert (HgL : heap (mkWorld (heap w ++ [g]) (ui w)) !! grid L = Some g) by by apply heap_grow.
  set (wa := mkWorld (heap w ++ [g]) (ui w)) in *.
  destruct (is_bucket (st_tool st) && isClick).
  - apply fueled_bind; [apply fueled_readCell|].
    intros v w1 (-> & g0 & row & Hcopy & Hrow & ->)%readCell_inv.
    assert (g0 = g) as ->.
    { unfold wa in Hcopy. simpl in Hcopy. rewrite lookup_app_r in Hcopy by lia.
      rewrite Nat.sub_diag in Hcopy. by injection Hcopy. }
    apply fueled_bind; [|intros; apply addToHistory_fueled].
    destruct (js_get row x) as [t0|] eqn:Hcur.
    + destruct (decide (t0 = st_selectedColor st)) as [->|Hne].
      * cbn [floodFill]. by rewrite bool_decide_true.
      * pose proof (floodFill_fueled st _ L t0 (st_selectedColor st) (S (cellCount g))
                      HL Hne x y wa g HgL) as Hff.
        pose proof (countColor_le_cellCount t0 g).
        unfold fueled. destruct (floodFill _ _ _ _ _ _ _ _) as [[[] w2]|e|s]; [done..|].
        rewrite Hff by lia. done.
    + cbn [floodFill]. rewrite bool_decide_false by done.
      rewrite bool_decide_false by done. rewrite HL. cbn zeta.
      unfold fueled, bind, readCell, bind, deref. rewrite HgL, Hrow, Hcur. unfold ret.
      rewrite bool_decide_false by (intros ?; done).
      unfold writeCell, bind, deref. rewrite HgL, Hrow.
      rewrite bool_decide_false; [done|].
      intros Hx. destruct (js_get_lt row x Hx) as [c Hc]. congruence.
  - destruct (is_pencil (st_tool st) || is_eraser (st_tool st)); [|done].
    apply fueled_bind; [apply fueled_readCell|]. intros v w1 [-> _]%readCell_inv.
    case_bool_decide; [|done].
    apply fueled_bind; [apply fueled_writeCell|]. done.
Qed.

(** * The theorems on the sample documents *)

Ltac sample_wf :=
  unfold wf, wf_layers; simpl;
  repeat (apply Forall_cons; split;
          [eexists; split; [reflexivity|split; [reflexivity|repeat constructor]]|]);
  apply Forall_nil; exact I.

Ltac sample_inside := split; simpl; lia.

(** Filling [sampleGrid] from its corner [(0,0)] with yellow recolours the
    corner and leaves the empty cell [(1,1)] empty. *)
Lemma floodFill_fills_region_witness :
  ∃ g',
    floodFill 5 (ui (sampleWorld bucket)) 0 0 0 (Some green) yellow (sampleWorld bucket)
      = Ret (tt, mkWorld (<[0%nat := g']> [sampleGrid])
                         (with_layers [sampleLayer] (ui (sampleWorld bucket))))
    ∧ square 2 g'
    ∧ cell g' (0, 0) = Some yellow
    ∧ cell g' (1, 1) = Some EmptyString.
Proof.
  destruct (floodFill_fills_region (ui (sampleWorld bucket)) 0 sampleLayer
              (sampleWorld bucket) sampleGrid 0 0 yellow 5) as [_ Hfill].
  - reflexivity.
  - reflexivity.
  - split; [reflexivity|repeat constructor].
  - vm_compute. lia.
  - destruct (Hfill green) as (g' & E & Hsq & Hq); [reflexivity|discriminate|].
    exists g'. split; [exact E|]. split; [exact Hsq|]. split.
    + destruct (Hq (0, 0)) as [[_ H]|[H _]]; [exact H|].
      exfalso. apply H. apply region_here. reflexivity.
    + destruct (Hq (1, 1)) as [[H _]|[_ H]]; [|exact H].
      apply region_end in H. discriminate H.
Defined.

(** Filling [fullGrid] never nests deeper than five calls. *)
Lemma floodFill_depth_bounded_witness :
  ∃ d w',
    floodFill_depth 5 (ui fullWorld) 0 0 0 (Some green) yellow fullWorld = Ret (d, w')
    ∧ (d ≤ 5)%nat.
Proof.
  destruct (floodFill_depth_bounded (ui fullWorld) 0 sampleLayer fullWorld fullGrid
              0 0 green yellow 5) as (d & w' & E & _ & Hd & _).
  - reflexivity.
  - reflexivity.
  - split; [reflexivity|repeat constructor].
  - vm_compute. lia.
  - exists d, w'. split; [exact E|]. vm_compute in Hd. lia.
Defined.

(** C2, as the spec states it, fails.  Filling the four cells of [fullGrid]
    nests five calls of [floodFill] inside one another, one per recoloured
    cell and one that returns at a guard: the traversal is a recursion on the
    call stack, not a loop over a frontier, whose calls would not nest. *)
Lemma floodFill_nests_per_cell :
  floodFill_depth 5 (ui fullWorld) 0 0 0 (Some green) yellow fullWorld
    = Ret (5%nat, mkWorld [[[yellow; yellow]; [yellow; yellow]]] (ui fullWorld))
  ∧ ¬ (∀ fuel st li x y tc rc w d w',
         floodFill_depth fuel st li x y tc rc w = Ret (d, w') → d = 1%nat).
Proof.
  assert (E : floodFill_depth 5 (ui fullWorld) 0 0 0 (Some green) yellow fullWorld
              = Ret (5%nat, mkWorld [[[yellow; yellow]; [yellow; yellow]]] (ui fullWorld)))
    by (vm_compute; reflexivity).
  split; [exact E|]. intros Hflat. specialize (Hflat _ _ _ _ _ _ _ _ _ _ E). discriminate Hflat.
Qed.

(** A commit on the full history evicts the oldest entry: 20 entries remain
    and the cursor is on the last one, the new snapshot. *)
Lemma addToHistory_commits_witness :
  ∃ w',
    addToHistory fullHistory [sampleLayer] 2 (sampleWorld pencil) = Ret (tt, w')
    ∧ length (st_history (ui w')) = 20%nat
    ∧ st_historyIndex (ui w') = 19
    ∧ js_get (st_history (ui w')) (st_historyIndex (ui w')) = Some sampleEntry.
Proof.
  destruct (addToHistory_commits fullHistory [sampleLayer] 2 (sampleWorld pencil)
              [mkLayer "layer-1" "Layer 1" true 100 sampleGrid])
    as (w' & h' & E & _ & Hh & Hfull & Hi & Hget & _).
  - unfold cursor_ok. simpl. lia.
  - simpl. unfold MAX_HISTORY. lia.
  - reflexivity.
  - exists w'. split; [exact E|]. subst h'. cbv zeta in Hfull.
    split; [rewrite Hfull; vm_compute; reflexivity|].
    split; [rewrite Hi, Hfull; vm_compute; reflexivity|]. exact Hget.
Defined.

(** After the initializing effect and one commit, undo followed by redo
    leaves the document as it was. *)
Lemma undo_redo_roundtrip_witness :
  ∃ w1 w2,
    fire undo afterCommit = Ret w1
    ∧ fire redo w1 = Ret w2
    ∧ document w2 = Some sampleEntry.
Proof.
  destruct (undo_redo_roundtrip afterCommit) as [Hround _].
  destruct Hround as (w1 & w2 & E1 & E2 & Hdoc & _).
  - apply (committed_commit (ui (sampleWorld pencil)) [sampleLayer] 2
             (sampleWorld pencil) afterCommit).
    + apply (committed_init beforeInit (sampleWorld pencil)); reflexivity.
    + reflexivity.
  - reflexivity.
  - exists w1, w2. split; [exact E1|]. split; [exact E2|]. rewrite Hdoc. reflexivity.
Defined.

(** A bucket click on the green corner of [sampleGrid] with yellow selected:
    the entry at the cursor is not the live document. *)
Lemma bucket_commits_prefill_witness :
  ∃ w' e,
    fire (λ st, handleDraw st 0 0 true) (sampleWorld bucket) = Ret w'
    ∧ js_get (st_history (ui w')) (st_historyIndex (ui w')) = Some e
    ∧ document w' ≠ Some e.
Proof.
  destruct (bucket_commits_prefill (sampleWorld bucket) 0 0 sampleLayer sampleGrid)
    as (w' & g' & e & E & _ & _ & _ & _ & He & _ & Hdiff & Hchg).
  - sample_wf.
  - sample_inside.
  - reflexivity.
  - reflexivity.
  - reflexivity.
  - reflexivity.
  - exists w', e. split; [exact E|]. split; [exact He|].
    apply Hdiff, Hchg. intros H. vm_compute in H. discriminate H.
Defined.

(** C6, as the spec states it, fails.  Deleting the only layer returns
    normally, with the state as it was; nothing is thrown. *)
Lemma deleteLayer_last_returns :
  length (st_layers (ui (sampleWorld pencil))) = 1%nat
  ∧ fire (λ st, deleteLayer st "layer-1") (sampleWorld pencil) = Ret (sampleWorld pencil)
  ∧ ∀ e, fire (λ st, deleteLayer st "layer-1") (sampleWorld pencil) ≠ Throw e.
Proof.
  split; [reflexivity|]. split; [reflexivity|]. intros e H. vm_compute in H. discriminate H.
Qed.

(** Deleting the top layer of two leaves the bottom one. *)
Lemma deleteLayer_guarded_witness :
  ∃ w',
    fire (λ st, deleteLayer st "layer-2") (twoLayers "layer-1" pencil) = Ret w'
    ∧ st_layers (ui w') = [sampleLayer].
Proof.
  destruct (deleteLayer_guarded (twoLayers "layer-1" pencil) "layer-2") as [_ Hmany].
  destruct Hmany as (w' & E & Hls & _).
  - sample_wf.
  - apply (bool_decide_unpack _). vm_compute. exact I.
  - simpl. lia.
  - exists w'. split; [exact E|]. rewrite Hls. reflexivity.
Defined.

(** C7, as the spec states it, fails.  With the hidden top layer active, the
    picker at [(0,0)] changes nothing, although the visible bottom layer is
    green there. *)
Lemma picker_needs_visible_active_layer :
  visible sampleLayer = true
  ∧ layerCell (heap (twoLayers "layer-2" picker)) sampleLayer (0, 0) = Some green
  ∧ st_selectedColor (ui (twoLayers "layer-2" picker)) = yellow
  ∧ fire (λ st, handleDraw st 0 0 true) (twoLayers "layer-2" picker)
    = Ret (twoLayers "layer-2" picker).
Proof. repeat split; reflexivity. Qed.

(** With the visible bottom layer active, the picker selects a colour. *)
Lemma picker_picks_topmost_witness :
  ∃ c,
    c ≠ EmptyString
    ∧ fire (λ st, handleDraw st 0 0 true) (twoLayers "layer-1" picker)
      = Ret (mkWorld (heap (twoLayers "layer-1" picker))
                     (with_tool pencil (with_selectedColor c (ui (twoLayers "layer-1" picker))))).
Proof.
  destruct (picker_picks_topmost (twoLayers "layer-1" picker) 0 0 true) as (Hpick & _ & _).
  destruct (Hpick ltac:(sample_wf) ltac:(sample_inside) eq_refl sampleLayer eq_refl eq_refl)
    as [(i & l & c & _ & _ & _ & Hne & _ & E)|[Hall _]].
  - exists c. split; [exact Hne|exact E].
  - exfalso. destruct (Hall 0%nat sampleLayer) as [H|H]; [reflexivity|..];
      vm_compute in H; discriminate H.
Defined.

(** Growing the sample document to 3 by 3. *)
Lemma changeGridSize_resizes_witness :
  ∃ w',
    fire (λ st, changeGridSize st 3) (sampleWorld pencil) = Ret w'
    ∧ st_gridSize (ui w') = 3
    ∧ wf w'.
Proof.
  destruct (changeGridSize_resizes (sampleWorld pencil) 3) as [_ Hresize].
  destruct Hresize as (w' & E & Hgs & Hwf & _).
  - sample_wf.
  - lia.
  - discriminate.
  - exists w'. split; [exact E|]. split; [exact Hgs|exact Hwf].
Defined.

(** Painting the empty cell [(1,1)] yellow and picking there, with green
    selected in between, selects yellow. *)
Lemma paint_then_pick_witness :
  ∃ w1 w2,
    fire (λ st, handleDraw st 1 1 true) (sampleWorld pencil) = Ret w1
    ∧ fire (λ st, handleDraw st 1 1 true)
           (mkWorld (heap w1) (with_tool picker (with_selectedColor green (ui w1)))) = Ret w2
    ∧ st_selectedColor (ui w2) = yellow.
Proof.
  apply (paint_then_pick (sampleWorld pencil) 1 1 sampleLayer yellow green true true).
  - sample_wf.
  - sample_inside.
  - reflexivity.
  - reflexivity.
  - discriminate.
  - reflexivity.
  - reflexivity.
  - intros j l' Hj Hl. destruct j as [|j]; [simpl in Hj; lia|discriminate Hl].
Defined.

(** C10, as the spec states it, fails.  An opacity of 150 is stored as it
    is: nothing is clamped and nothing is thrown. *)
Lemma updateLayerOpacity_out_of_range :
  ∃ w',
    fire (λ st, updateLayerOpacity st "layer-1" 150) (sampleWorld pencil) = Ret w'
    ∧ opacity <$> st_layers (ui w') = [150]
    ∧ ¬ (0 ≤ 150 ≤ 100).
Proof.
  eexists. split; [reflexivity|]. split; [reflexivity|lia].
Qed.

(** * Two sessions *)

(** An 8 by 8 document: paint [(0,0)] red, paint it blue, undo, undo, redo,
    redo. *)
Example session_paint_undo_redo :
  let start := [initHistory; λ st, changeGridSize st 8] in
  let red := choose "#ff0044" pencil ++ click 0 0 in
  let blue := choose "#3b5dc9" pencil ++ click 0 0 in
  shows (session (start ++ red ++ blue ++ [undo]) initialWorld) 0 (0, 0) = Some "#ff0044"
  ∧ shows (session (start ++ red ++ blue ++ [undo; undo]) initialWorld) 0 (0, 0) = Some EmptyString
  ∧ shows (session (start ++ red ++ blue ++ [undo; undo; redo; redo]) initialWorld) 0 (0, 0)
    = Some "#3b5dc9".
Proof. vm_compute. repeat split; reflexivity. Qed.

(** A 4 by 4 layer, green except for the empty cell [(3,3)]: a bucket click
    on [(0,0)] with yellow turns the 15 green cells yellow and leaves
    [(3,3)] empty. *)
Example session_fill_green :
  let g := [[green; green; green; green]; [green; green; green; green];
            [green; green; green; green]; [green; green; green; EmptyString]] in
  let w := mkWorld [g] (mkUi 4 [sampleLayer] "layer-1" yellow bucket false [] (-1)) in
  match session (initHistory :: click 0 0) w with
  | Ret w' =>
      heap w' !! 0%nat
      = Some [[yellow; yellow; yellow; yellow]; [yellow; yellow; yellow; yellow];
              [yellow; yellow; yellow; yellow]; [yellow; yellow; yellow; EmptyString]]
  | _ => False
  end.
Proof. vm_compute. reflexivity. Qed.

(** * Hooks that a piece of code leaves alone *)

Lemma framed_ret f {A} (a : A) : framed f (ret a).
Proof. done. Qed.

Lemma framed_throw f {A} e : framed f (@throw A e).
Proof. done. Qed.

Lemma framed_halt f {A} s : framed f (@halt A s).
Proof. done. Qed.

Lemma framed_bind f {A B} (m : M A) (k : A → M B) :
  framed f m → (∀ a, framed f (k a)) → framed f (bind m k).
Proof.
  intros Hm Hk w. unfold bind. rewrite Hm.
  destruct (m w) as [[a w']|e|s]; [apply Hk|done..].
Qed.

Lemma framed_deref f l : framed f (deref l).
Proof. intros w. unfold deref, lift. simpl. by destruct (heap w !! l). Qed.

Lemma framed_alloc f g : framed f (alloc g).
Proof. done. Qed.

Lemma framed_readCell f l x y : framed f (readCell l x y).
Proof.
  unfold readCell. apply framed_bind; [apply framed_deref|].
  intros g. destruct (js_get g y); [apply framed_ret|apply framed_throw].
Qed.

Lemma framed_writeCell f l x y c : framed f (writeCell l x y c).
Proof.
  unfold writeCell. apply framed_bind; [apply framed_deref|].
  intros g. destruct (js_get g y); [|apply framed_throw].
  case_bool_decide; [done|apply framed_halt].
Qed.

Lemma framed_schedule f g :
  (∀ u, f (g u) = g (f u)) → framed f (schedule g).
Proof. intros Hfg w. unfold schedule, lift. simpl. by rewrite Hfg. Qed.

Lemma framed_traverse f {A B} (k : A → M B) l :
  (∀ a, framed f (k a)) → framed f (traverse k l).
Proof.
  intros Hk. induction l as [|a l IH]; [apply framed_ret|].
  cbn [traverse]. apply framed_bind; [apply Hk|]. intros b.
  apply framed_bind; [apply IH|]. intros bs. apply framed_ret.
Qed.

Lemma framed_stringify f ls : framed f (stringify ls).
Proof.
  apply framed_traverse. intros l. apply framed_bind; [apply framed_deref|].
  intros g. apply framed_ret.
Qed.

Lemma framed_addToHistory b st ls n : framed (with_isDrawing b) (addToHistory st ls n).
Proof.
  unfold addToHistory. apply framed_bind; [apply framed_stringify|]. intros snap.
  apply framed_bind; [by apply framed_schedule|]. intros _. by apply framed_schedule.
Qed.

Lemma framed_floodFill b fuel st li tc rc :
  ∀ x y, framed (with_isDrawing b) (floodFill fuel st li x y tc rc).
Proof.
  induction fuel as [|fuel IH]; intros x y; [apply framed_halt|].
  cbn [floodFill]. case_bool_decide; [apply framed_ret|].
  case_bool_decide; [apply framed_ret|].
  destruct (js_get (st_layers st) li) as [layer|]; [|apply framed_throw].
  apply framed_bind; [apply framed_readCell|]. intros cur.
  case_bool_decide; [apply framed_ret|].
  apply framed_bind; [apply framed_writeCell|]. intros _.
  do 4 (apply framed_bind; [apply IH|]; intros _).
  by apply framed_schedule.
Qed.

Lemma framed_pickLoop b st x y n : framed (with_isDrawing b) (pickLoop st x y n).
Proof.
  induction n as [|n IH]; [apply framed_ret|]. cbn [pickLoop].
  destruct (st_layers st !! n) as [l|]; [|apply framed_throw].
  destruct (visible l); [|done].
  apply framed_bind; [apply framed_readCell|]. intros [s|]; [|done].
  destruct (truthy (Some s)); [|done].
  apply framed_bind; [by apply framed_schedule|]. intros _. by apply framed_schedule.
Qed.

(** [handleDraw] never sets [isDrawing]. *)
Lemma framed_handleDraw b st x y isClick :
  framed (with_isDrawing b) (handleDraw st x y isClick).
Proof.
  unfold handleDraw. case_bool_decide; [apply framed_ret|].
  case_bool_decide; [apply framed_ret|].
  destruct (js_get (st_layers st) _) as [L|]; [|apply framed_throw].
  destruct (negb (visible L)); [apply framed_ret|].
  destruct (is_picker (st_tool st)); [apply framed_pickLoop|].
  apply framed_bind; [apply framed_deref|]. intros g.
  apply framed_bind; [apply framed_alloc|]. intros copy.
  destruct (is_bucket (st_tool st) && isClick).
  - apply framed_bind; [apply framed_readCell|]. intros tc.
    apply framed_bind; [apply framed_floodFill|]. intros _. apply framed_addToHistory.
  - destruct (is_pencil (st_tool st) || is_eraser (st_tool st)); [|apply framed_ret].
    apply framed_bind; [apply framed_readCell|]. intros cur.
    case_bool_decide; [|apply framed_ret].
    apply framed_bind; [apply framed_writeCell|]. intros _. by apply framed_schedule.
Qed.

(** Pressing the pointer is drawing with [isDrawing] set. *)
Lemma handlePointerDown_run x y w :
  fire (λ st, handlePointerDown st x y) w
  = match fire (λ st, handleDraw st x y true) w with
    | Ret w' => Ret (lift (with_isDrawing true) w')
    | Throw e => Throw e
    | Stuck s => Stuck s
    end.
Proof.
  unfold fire, handlePointerDown, bind, setIsDrawing, schedule.
  pose proof (framed_handleDraw true (ui w) x y true w) as H.
  unfold lift in H. simpl in H. rewrite H.
  by destruct (handleDraw (ui w) x y true w) as [[[] w']|e|s].
Qed.

(** * Documents and entries *)

Lemma freezeAll_ids h ls vs : freezeAll h ls = Some vs → id <$> vs = id <$> ls.
Proof.
  revert vs. induction ls as [|l ls IH]; intros vs Hvs.
  - by injection Hvs as <-.
  - apply freezeAll_cons in Hvs as (g & vs' & _ & Hvs' & ->). csimpl. by rewrite (IH vs').
Qed.

Lemma freezeAll_squares h n ls vs :
  freezeAll h ls = Some vs →
  (wf_layers h n ls ↔ Forall (λ v, square n (grid v)) vs).
Proof.
  revert vs. induction ls as [|l ls IH]; intros vs Hvs.
  - injection Hvs as <-. unfold wf_layers. by rewrite !Forall_nil.
  - apply freezeAll_cons in Hvs as (g & vs' & Hg & Hvs' & ->).
    unfold wf_layers in *. rewrite !Forall_cons, (IH vs' Hvs'). simpl.
    split; [intros [(g0 & Hg0 & Hsq) ?]|intros [? ?]]; split; eauto. congruence.
Qed.

Lemma document_inv w e :
  document w = Some e →
  freezeAll (heap w) (st_layers (ui w)) = Some (layers e)
  ∧ st_gridSize (ui w) = gridSize e.
Proof.
  unfold document. destruct (freezeAll (heap w) (st_layers (ui w))) as [vs|]; [|done].
  simpl. by intros [= <-].
Qed.

Lemma document_Some w vs :
  freezeAll (heap w) (st_layers (ui w)) = Some vs →
  document w = Some (mkHistoryState vs (st_gridSize (ui w))).
Proof. unfold document. by intros ->. Qed.

Lemma fmap_nil_iff {A B} (f : A → B) (l : list A) : f <$> l = [] ↔ l = [].
Proof. by destruct l. Qed.

(** The snapshot of a document is an entry. *)
Lemma entry_of_live h u vs :
  live_ok h u → freezeAll h (st_layers u) = Some vs →
  entry_ok (mkHistoryState vs (st_gridSize u)).
Proof.
  intros (Hwf & Hsize & Hne & Hids & _) Hvs. unfold entry_ok. simpl.
  split; [done|]. split; [|split].
  - intros ->. apply freezeAll_ids in Hvs. simpl in Hvs.
    symmetry in Hvs. by apply fmap_nil_iff in Hvs.
  - by rewrite (freezeAll_ids _ _ _ Hvs).
  - by apply (freezeAll_squares _ _ _ _ Hvs).
Qed.

(** * Commits *)

Lemma pushEntry_ok st e :
  history_ok st → entry_ok e →
  1 ≤ Z.of_nat (length (pushEntry st e)) ≤ MAX_HISTORY
  ∧ Forall entry_ok (pushEntry st e)
  ∧ js_get (pushEntry st e) (Z.of_nat (length (pushEntry st e)) - 1) = Some e.
Proof.
  intros (Hcur & Hlen & Hall) He.
  destruct (js_slice0_cursor (st_history st) (st_historyIndex st) Hcur) as [Hslice Hpre].
  split; [|split; [|apply commit_last]].
  - unfold pushEntry, MAX_HISTORY in *. cbv zeta. case_bool_decide as Hbig.
    + rewrite length_drop. rewrite length_app in *. simpl in *. unfold cursor_ok in Hcur. lia.
    + rewrite length_app in *. simpl in *. lia.
  - assert (Hfull : Forall entry_ok (js_slice0 (st_history st) (st_historyIndex st + 1) ++ [e])).
    { apply Forall_app. split; [|by apply Forall_singleton].
      unfold js_slice0. by apply Forall_take. }
    unfold pushEntry. cbv zeta. case_bool_decide; [by apply Forall_drop|done].
Qed.

Lemma commit_run st ls n w snap :
  freezeAll (heap w) ls = Some snap →
  addToHistory st ls n w = Ret (tt, lift (commitUi st (mkHistoryState snap n)) w).
Proof. intros Hsnap. by rewrite (addToHistory_run st ls n w snap Hsnap). Qed.

Lemma history_ok_commit st e u :
  history_ok st → entry_ok e → history_ok (commitUi st e u).
Proof.
  intros Hst He. destruct (pushEntry_ok st e Hst He) as (Hlen & Hall & _).
  unfold history_ok, cursor_ok, commitUi. simpl. split; [lia|]. split; [lia|done].
Qed.

(** The state left by a handler that schedules layers and a grid size and
    commits them. *)
Lemma Inv_commit st h u vs :
  history_ok st → live_ok h u → freezeAll h (st_layers u) = Some vs →
  let w' := mkWorld h (commitUi st (mkHistoryState vs (st_gridSize u)) u) in
  Inv w' ∧ synced w'.
Proof.
  intros Hst Hlive Hvs w'. pose proof (entry_of_live h u vs Hlive Hvs) as He.
  split; [split|].
  - exact Hlive.
  - by apply history_ok_commit.
  - unfold synced, w'. rewrite (document_Some _ vs) by done. simpl.
    destruct (pushEntry_ok st _ Hst He) as (_ & _ & Hlast). by rewrite Hlast.
Qed.

(** * Handlers on the list of layers *)

Lemma live_ok_map h u (f : Layer loc → Layer loc) :
  (∀ l, id (f l) = id l ∧ grid (f l) = grid l) →
  live_ok h u → live_ok h (with_layers (f <$> st_layers u) u).
Proof.
  intros Hf (Hwf & Hsize & Hne & Hids & Hlocs). unfold live_ok. simpl.
  assert (Hid : id <$> (f <$> st_layers u) = id <$> st_layers u).
  { rewrite <- list_fmap_compose. apply list_fmap_ext. intros _ l _. apply Hf. }
  assert (Hgrid : grid <$> (f <$> st_layers u) = grid <$> st_layers u).
  { rewrite <- list_fmap_compose. apply list_fmap_ext. intros _ l _. apply Hf. }
  rewrite Hid, Hgrid. split; [|split; [done|split; [|done]]].
  - unfold wf_layers in *. apply Forall_fmap. eapply Forall_impl; [exact Hwf|].
    intros l Hl. simpl. by rewrite (proj2 (Hf l)).
  - by rewrite fmap_nil_iff.
Qed.

Lemma live_ok_filter h u (P : Layer loc → Prop) `{∀ l, Decision (P l)} :
  filter P (st_layers u) ≠ [] →
  live_ok h u → live_ok h (with_layers (filter P (st_layers u)) u).
Proof.
  intros Hne (Hwf & Hsize & _ & Hids & Hlocs). unfold live_ok. simpl.
  split; [by apply wf_layers_filter|]. split; [done|]. split; [done|].
  split; (eapply sublist_NoDup; [done|apply fmap_sublist, sublist_filter]).
Qed.

Lemma live_ok_wf w : live_ok (heap w) (ui w) → wf w.
Proof. by intros [? _]. Qed.

Lemma live_ok_fields h u u' :
  st_gridSize u' = st_gridSize u → st_layers u' = st_layers u →
  live_ok h u → live_ok h u'.
Proof. unfold live_ok. by intros -> ->. Qed.

Lemma history_ok_fields u u' :
  st_history u' = st_history u → st_historyIndex u' = st_historyIndex u →
  history_ok u → history_ok u'.
Proof. unfold history_ok, cursor_ok. by intros -> ->. Qed.

Lemma live_ok_grow h h' u :
  (∀ k g, h !! k = Some g → h' !! k = Some g) → live_ok h u → live_ok h' u.
Proof.
  intros Hext (Hwf & Hrest). split; [|done]. by eapply wf_layers_weaken.
Qed.

(** [toggleLayerVisibility] flips the layers with the id, commits, and
    leaves the grids alone. *)
Lemma toggle_run w i :
  live_ok (heap w) (ui w) →
  let ls' := (λ l, if bool_decide (id l = i)
                   then mkLayer (id l) (name l) (negb (visible l)) (opacity l) (grid l)
                   else l) <$> st_layers (ui w) in
  ∃ vs,
    freezeAll (heap w) ls' = Some vs
    ∧ live_ok (heap w) (with_layers ls' (ui w))
    ∧ fire (λ st, toggleLayerVisibility st i) w
      = Ret (mkWorld (heap w)
               (commitUi (ui w) (mkHistoryState vs (st_gridSize (ui w))) (with_layers ls' (ui w)))).
Proof.
  intros Hlive ls'.
  assert (Hlive' : live_ok (heap w) (with_layers ls' (ui w))).
  { apply live_ok_map; [|done]. intros l. by case_bool_decide. }
  destruct (freezeAll_wf _ _ _ (proj1 Hlive')) as [vs Hvs]. simpl in Hvs.
  exists vs. split; [done|]. split; [done|].
  unfold fire, toggleLayerVisibility. change (map ?f ?l) with (f <$> l). fold ls'.
  erewrite bind_Ret by reflexivity. by erewrite commit_run by exact Hvs.
Qed.

(** [handlePointerUp] commits the rendered layers if a gesture is going on,
    and does nothing otherwise. *)
Lemma pointerUp_run w :
  live_ok (heap w) (ui w) →
  ∃ vs,
    freezeAll (heap w) (st_layers (ui w)) = Some vs
    ∧ fire handlePointerUp w
      = Ret (if st_isDrawing (ui w)
             then mkWorld (heap w)
                    (commitUi (ui w) (mkHistoryState vs (st_gridSize (ui w)))
                              (with_isDrawing false (ui w)))
             else w).
Proof.
  intros Hlive. destruct (freezeAll_wf _ _ _ (proj1 Hlive)) as [vs Hvs].
  exists vs. split; [done|]. unfold fire, handlePointerUp.
  destruct (st_isDrawing (ui w)); [|done].
  erewrite bind_Ret by reflexivity. by erewrite commit_run by exact Hvs.
Qed.

(** [deleteLayer] on several layers with distinct ids. *)
Lemma delete_run w i :
  live_ok (heap w) (ui w) → (1 < length (st_layers (ui w)))%nat →
  let ls' := filter (λ l, id l ≠ i) (st_layers (ui w)) in
  ∃ vs top,
    freezeAll (heap w) ls' = Some vs
    ∧ last ls' = Some top
    ∧ live_ok (heap w) (with_layers ls' (ui w))
    ∧ fire (λ st, deleteLayer st i) w
      = Ret (mkWorld (heap w)
               (commitUi (ui w) (mkHistoryState vs (st_gridSize (ui w)))
                  (if bool_decide (st_activeLayerId (ui w) = i)
                   then with_activeLayerId (id top) (with_layers ls' (ui w))
                   else with_layers ls' (ui w)))).
Proof.
  intros Hlive Hmany ls'.
  pose proof (filter_id_nonempty _ i (proj1 (proj2 (proj2 (proj2 Hlive)))) Hmany) as Hne.
  fold ls' in Hne.
  assert (Hlive' : live_ok (heap w) (with_layers ls' (ui w))).
  { apply live_ok_filter; [|done]. intros Heq. fold ls' in Heq. rewrite Heq in Hne. simpl in Hne. lia. }
  destruct (freezeAll_wf _ _ _ (proj1 Hlive')) as [vs Hvs]. simpl in Hvs.
  destruct (js_get_lt ls' (Z.of_nat (length ls') - 1)) as [top Htop]; [lia|].
  exists vs, top. split; [done|]. split.
  { apply js_get_Some in Htop as [_ Htop]. rewrite last_lookup. rewrite <- Htop. f_equal. lia. }
  split; [done|].
  unfold fire, deleteLayer. rewrite bool_decide_false by lia. fold ls'.
  erewrite bind_Ret by reflexivity.
  destruct (bool_decide (st_activeLayerId (ui w) = i)).
  - erewrite bind_Ret by (rewrite Htop; reflexivity). by erewrite commit_run by exact Hvs.
  - erewrite bind_Ret by reflexivity. by erewrite commit_run by exact Hvs.
Qed.

Lemma wf_layers_alloc h n ls k :
  wf_layers h n ls → k ∈ grid <$> ls → (k < length h)%nat.
Proof.
  intros Hwf (l & -> & Hl)%list_elem_of_fmap.
  unfold wf_layers in Hwf. rewrite Forall_forall in Hwf.
  destruct (Hwf l Hl) as (g & Hg & _). by eapply lookup_lt_Some.
Qed.

(** [addLayer] with an id that no layer has. *)
Lemma addLayer_run w newId :
  live_ok (heap w) (ui w) →
  newId ∉ id <$> st_layers (ui w) →
  let n := st_gridSize (ui w) in
  let empty := replicate (Z.to_nat n) (replicate (Z.to_nat n) EmptyString) in
  let newLayer :=
    mkLayer newId ("Layer " +:+ pretty (length (st_layers (ui w)) + 1)%nat) true 100
            (length (heap w)) in
  let ls' := st_layers (ui w) ++ [newLayer] in
  ∃ vs,
    freezeAll (heap w ++ [empty]) ls' = Some vs
    ∧ live_ok (heap w ++ [empty]) (with_layers ls' (ui w))
    ∧ fire (λ st, addLayer st newId) w
      = Ret (mkWorld (heap w ++ [empty])
               (commitUi (ui w) (mkHistoryState vs n)
                  (with_activeLayerId newId (with_layers ls' (ui w))))).
Proof.
  intros Hlive Hfresh n empty newLayer ls'.
  pose proof Hlive as (Hwf & Hsize & Hne & Hids & Hlocs).
  assert (Hlive' : live_ok (heap w ++ [empty]) (with_layers ls' (ui w))).
  { unfold live_ok. simpl. split; [|split; [done|split; [|split]]].
    - unfold ls', wf_layers. apply Forall_app. split.
      + eapply wf_layers_weaken; [|exact Hwf]. intros. by apply heap_grow.
      + apply Forall_singleton. exists empty. simpl. split.
        * rewrite lookup_app_r by lia. by rewrite Nat.sub_diag.
        * apply square_empty. unfold sizeOk in Hsize. fold n in Hsize. lia.
    - unfold ls'. by destruct (st_layers (ui w)).
    - unfold ls'. rewrite fmap_app. apply NoDup_app. split; [done|]. split.
      + intros i Hi Hin. simpl in Hin. apply list_elem_of_singleton in Hin. by subst.
      + simpl. apply NoDup_singleton.
    - unfold ls'. rewrite fmap_app. apply NoDup_app. split; [done|]. split.
      + intros k Hk Hin. simpl in Hin. apply list_elem_of_singleton in Hin.
        pose proof (wf_layers_alloc _ _ _ _ Hwf Hk). lia.
      + simpl. apply NoDup_singleton. }
  destruct (freezeAll_wf _ _ _ (proj1 Hlive')) as [vs Hvs]. simpl in Hvs.
  exists vs. split; [done|]. split; [done|].
  unfold fire, addLayer, createEmptyGrid. rewrite bool_decide_true by done.
  erewrite bind_Ret by reflexivity. cbv zeta.
  erewrite bind_Ret by reflexivity. erewrite bind_Ret by reflexivity.
  by erewrite commit_run by exact Hvs.
Qed.

(** * Restoring an entry *)

Lemma parse_full vs :
  ∀ w, ∃ ls,
    parse vs w = Ret (ls, mkWorld (heap w ++ (grid <$> vs)) (ui w))
    ∧ freezeAll (heap w ++ (grid <$> vs)) ls = Some vs
    ∧ grid <$> ls = seq (length (heap w)) (length vs).
Proof.
  induction vs as [|v vs IH]; intros w.
  - exists []. unfold parse, ret. simpl. rewrite app_nil_r. by destruct w.
  - destruct (IH (mkWorld (heap w ++ [grid v]) (ui w))) as (ls & E & F & Hlocs).
    simpl in E, F, Hlocs. rewrite <- app_assoc in E, F. simpl in E, F.
    exists (mkLayer (id v) (name v) (visible v) (opacity v) (length (heap w)) :: ls).
    split; [|split].
    + change (parse (v :: vs)) with
        (do l <- (do r <- alloc (grid v);
                  ret (mkLayer (id v) (name v) (visible v) (opacity v) r));
         do bs <- parse vs; ret (l :: bs)).
      unfold bind, alloc, ret. by rewrite E.
    + apply freezeAll_cons. exists (grid v), vs. simpl. split; [|split; [done|by destruct v]].
      rewrite lookup_app_r by lia. by rewrite Nat.sub_diag.
    + csimpl. rewrite Hlocs, length_app. simpl. f_equal. f_equal. lia.
Qed.

(** The layers that [undo] and [redo] put in place of the live ones are the
    document of the entry. *)
Lemma live_of_entry h u e :
  freezeAll h (st_layers u) = Some (layers e) →
  st_gridSize u = gridSize e →
  NoDup (grid <$> st_layers u) →
  entry_ok e → live_ok h u.
Proof.
  intros Hfr Hgs Hlocs (Hsize & Hne & Hids & Hsq). unfold live_ok. rewrite Hgs.
  split; [by apply (freezeAll_squares _ _ _ _ Hfr)|]. split; [done|].
  rewrite <- (freezeAll_ids _ _ _ Hfr). split; [|done].
  intros Hnil. rewrite Hnil in Hfr. simpl in Hfr. injection Hfr as Hfr. by symmetry in Hfr.
Qed.

Lemma restore_full (e : HistoryState) (i : Z) (w : World) :
  entry_ok e →
  ∃ ls,
    (do ls <- parse (layers e);
     setLayers ls;; setGridSize (gridSize e);; setHistoryIndex i) w
      = Ret (tt, mkWorld (heap w ++ (grid <$> layers e))
                   (with_historyIndex i (with_gridSize (gridSize e) (with_layers ls (ui w)))))
    ∧ freezeAll (heap w ++ (grid <$> layers e)) ls = Some (layers e)
    ∧ live_ok (heap w ++ (grid <$> layers e))
              (with_historyIndex i (with_gridSize (gridSize e) (with_layers ls (ui w)))).
Proof.
  intros He. destruct (parse_full (layers e) w) as (ls & E & F & Hlocs).
  exists ls. split; [|split; [done|]].
  - erewrite bind_Ret by exact E. reflexivity.
  - apply (live_of_entry _ _ e); [done|done| |done]. simpl. rewrite Hlocs. apply NoDup_seq.
Qed.

(** Moving the cursor to an entry of the history puts the document of the
    entry in place of the live one. *)
Lemma jump_run w j e :
  Inv w → js_get (st_history (ui w)) j = Some e →
  ∃ w',
    (do ls <- parse (layers e);
     setLayers ls;; setGridSize (gridSize e);; setHistoryIndex j) w = Ret (tt, w')
    ∧ Inv w' ∧ synced w'
    ∧ st_history (ui w') = st_history (ui w)
    ∧ st_historyIndex (ui w') = j
    ∧ st_activeLayerId (ui w') = st_activeLayerId (ui w)
    ∧ document w' = Some e.
Proof.
  intros [_ (Hcur & Hlen & Hall)] He.
  assert (Hok : entry_ok e).
  { rewrite Forall_forall in Hall. apply Hall.
    apply js_get_Some in He as [_ He]. by eapply list_elem_of_lookup_2. }
  destruct (restore_full e j w Hok) as (ls & E & F & Hlive).
  eexists. split; [exact E|].
  assert (Hdoc : document (mkWorld (heap w ++ (grid <$> layers e))
                   (with_historyIndex j (with_gridSize (gridSize e) (with_layers ls (ui w)))))
                 = Some e).
  { unfold document. simpl. rewrite F. simpl. by destruct e. }
  split; [split; [done|]|].
  - unfold history_ok, cursor_ok. simpl. split; [by eapply js_get_range|done].
  - split; [|done]. unfold synced. rewrite Hdoc. simpl. by rewrite He.
Qed.

Lemma undo_inv w :
  Inv w →
  ∃ w',
    fire undo w = Ret w' ∧ Inv w'
    ∧ st_history (ui w') = st_history (ui w)
    ∧ st_historyIndex (ui w') = Z.max 0 (st_historyIndex (ui w) - 1)
    ∧ st_activeLayerId (ui w') = st_activeLayerId (ui w)
    ∧ (0 < st_historyIndex (ui w) →
       synced w' ∧ document w' = js_get (st_history (ui w)) (st_historyIndex (ui w) - 1))
    ∧ (st_historyIndex (ui w) ≤ 0 → w' = w).
Proof.
  intros HInv. pose proof HInv as [_ (Hcur & _)]. unfold cursor_ok in Hcur.
  destruct (decide (0 < st_historyIndex (ui w))) as [Hpos|Hzero].
  - destruct (js_get_lt (st_history (ui w)) (st_historyIndex (ui w) - 1)) as [e He]; [lia|].
    destruct (jump_run w _ e HInv He) as (w' & E & HInv' & Hs & Hh & Hi & Ha & Hdoc).
    exists w'. unfold fire, undo. rewrite bool_decide_true by lia. rewrite He, E.
    split; [done|]. split; [done|]. split; [done|]. split; [lia|]. split; [done|].
    split; [by intros _|lia].
  - exists w. rewrite undo_first by lia. split; [done|]. split; [done|]. split; [done|].
    split; [lia|]. split; [done|]. split; [lia|done].
Qed.

Lemma redo_inv w :
  Inv w →
  ∃ w',
    fire redo w = Ret w' ∧ Inv w'
    ∧ st_history (ui w') = st_history (ui w)
    ∧ st_historyIndex (ui w')
      = Z.min (Z.of_nat (length (st_history (ui w))) - 1) (st_historyIndex (ui w) + 1)
    ∧ st_activeLayerId (ui w') = st_activeLayerId (ui w)
    ∧ (st_historyIndex (ui w) < Z.of_nat (length (st_history (ui w))) - 1 →
       synced w' ∧ document w' = js_get (st_history (ui w)) (st_historyIndex (ui w) + 1))
    ∧ (st_historyIndex (ui w) >= Z.of_nat (length (st_history (ui w))) - 1 → w' = w).
Proof.
  intros HInv. pose proof HInv as [_ (Hcur & _)]. unfold cursor_ok in Hcur.
  destruct (decide (st_historyIndex (ui w) < Z.of_nat (length (st_history (ui w))) - 1))
    as [Hlt|Hlast].
  - destruct (js_get_lt (st_history (ui w)) (st_historyIndex (ui w) + 1)) as [e He]; [lia|].
    destruct (jump_run w _ e HInv He) as (w' & E & HInv' & Hs & Hh & Hi & Ha & Hdoc).
    exists w'. unfold fire, redo. rewrite bool_decide_true by lia. rewrite He, E.
    split; [done|]. split; [done|]. split; [done|]. split; [lia|]. split; [done|].
    split; [by intros _|lia].
  - exists w. rewrite redo_last by lia. split; [done|]. split; [done|]. split; [done|].
    split; [lia|]. split; [done|]. split; [lia|done].
Qed.

(** * Resizing, with the grid objects *)

Lemma resizeAll_locs st size ls :
  sizeOk size →
  ∀ w ls' w',
    wf_layers (heap w) (st_gridSize st) ls →
    traverse (resizeLayer st size) ls w = Ret (ls', w') →
    grid <$> ls' = seq (length (heap w)) (length ls)
    ∧ id <$> ls' = id <$> ls.
Proof.
  intros Hsize. induction ls as [|l ls IH]; intros w ls' w' Hwf E.
  - by injection E as <- <-.
  - apply Forall_cons in Hwf as [(g & Hg & Hsq) Hwf].
    destruct (resizeLayer_run st size l w g Hg Hsq Hsize) as (ng & E1 & _).
    cbn [traverse] in E. erewrite bind_Ret in E by exact E1.
    unfold bind at 1 in E.
    destruct (traverse (resizeLayer st size) ls _) as [[bs w1]|e|s] eqn:E2; [|done..].
    injection E as <- <-.
    assert (Hwf1 : wf_layers (heap w ++ [ng]) (st_gridSize st) ls).
    { eapply wf_layers_weaken; [|exact Hwf]. intros. by apply heap_grow. }
    destruct (IH (mkWorld (heap w ++ [ng]) (ui w)) _ _ Hwf1 E2) as [Hlocs Hids].
    simpl in Hlocs. rewrite length_app in Hlocs. simpl in Hlocs.
    csimpl. rewrite Hlocs, Hids. split; [|done]. f_equal. f_equal. lia.
Qed.

Lemma resize_run w size :
  Inv w → sizeOk size → size ≠ st_gridSize (ui w) →
  ∃ ls' ngs snap,
    let u1 := with_layers ls' (with_gridSize size (ui w)) in
    fire (λ st, changeGridSize st size) w
    = Ret (mkWorld (heap w ++ ngs) (commitUi (ui w) (mkHistoryState snap size) u1))
    ∧ live_ok (heap w ++ ngs) u1
    ∧ freezeAll (heap w ++ ngs) ls' = Some snap
    ∧ Forall2 (λ l l',
        id l' = id l ∧ name l' = name l ∧ visible l' = visible l ∧ opacity l' = opacity l
        ∧ resized (st_gridSize (ui w)) size (layerCell (heap w) l) (layerCell (heap w ++ ngs) l'))
        (st_layers (ui w)) ls'.
Proof.
  intros [Hlive Hhist] Hsize Hne.
  pose proof Hlive as (Hwf & _ & Hnil & Hids & _).
  destruct (resizeAll_run (ui w) size (st_layers (ui w)) Hsize w Hwf)
    as (ls' & ngs & E & Hwf' & Hrel).
  destruct (resizeAll_locs (ui w) size _ Hsize _ _ _ Hwf E) as [Hlocs Hids'].
  destruct (freezeAll_wf _ _ _ Hwf') as [snap Hsnap].
  exists ls', ngs, snap. intros u1.
  assert (Hlive' : live_ok (heap w ++ ngs) u1).
  { unfold live_ok, u1. simpl. split; [done|]. split; [done|]. split; [|split].
    - intros ->. apply Forall2_length in Hrel. simpl in Hrel. by destruct (st_layers (ui w)).
    - by rewrite Hids'.
    - rewrite Hlocs. apply NoDup_seq. }
  split; [|done].
  unfold fire, changeGridSize. rewrite bool_decide_false by done.
  erewrite bind_Ret by exact E.
  erewrite bind_Ret by reflexivity. erewrite bind_Ret by reflexivity.
  by erewrite commit_run by exact Hsnap.
Qed.

Lemma Forall2_fmap_eq {A B C} (f : A → C) (g : B → C) (R : A → B → Prop) l l' :
  (∀ a b, R a b → g b = f a) → Forall2 R l l' → g <$> l' = f <$> l.
Proof.
  intros HR Hall. induction Hall as [|a b l l' Hab _ IH]; [done|].
  csimpl. by rewrite IH, (HR a b Hab).
Qed.

Lemma changeGridSize_run w size :
  Inv w → sizeOk size → size ≠ st_gridSize (ui w) →
  ∃ w',
    fire (λ st, changeGridSize st size) w = Ret w'
    ∧ Inv w' ∧ synced w'
    ∧ st_gridSize (ui w') = size
    ∧ id <$> st_layers (ui w') = id <$> st_layers (ui w)
    ∧ st_activeLayerId (ui w') = st_activeLayerId (ui w).
Proof.
  intros HI Hsize Hne.
  destruct (resize_run w size HI Hsize Hne) as (ls' & ngs & snap & E & Hlive' & Hsnap & Hrel).
  destruct HI as [_ Hhist].
  destruct (Inv_commit (ui w) (heap w ++ ngs) _ snap Hhist Hlive' Hsnap) as [HInv Hsync].
  eexists. split; [exact E|]. split; [exact HInv|]. split; [exact Hsync|].
  split; [done|]. split; [|done]. simpl.
  eapply Forall2_fmap_eq; [|exact Hrel]. by intros a b (-> & _).
Qed.

(** * Drawing, with the grid objects *)

Lemma NoDup_insert_fresh {A} (l : list A) (i : nat) (x : A) :
  NoDup l → x ∉ l → NoDup (<[i := x]> l).
Proof.
  intros Hnd. revert i. induction Hnd as [|a l Ha Hnd IH]; intros i Hx; [simpl; apply NoDup_nil_2|].
  apply not_elem_of_cons in Hx as [Hxa Hxl].
  destruct i as [|i]; simpl; apply NoDup_cons.
  - done.
  - split; [|by apply IH]. intros Hin.
    apply list_elem_of_lookup in Hin as [j Hj].
    destruct (decide (i = j)) as [->|Hij].
    + pose proof (lookup_lt_Some _ _ _ Hj) as Hlt. rewrite length_insert in Hlt.
      rewrite list_lookup_insert_eq in Hj by done. congruence.
    + rewrite list_lookup_insert_ne in Hj by done. apply Ha. by eapply list_elem_of_lookup_2.
Qed.

(** The layers with the active one referring to a new grid object. *)
Lemma live_ok_clone h u i L g1 :
  live_ok h u → st_layers u !! i = Some L → square (st_gridSize u) g1 →
  live_ok (h ++ [g1])
    (with_layers (<[i := mkLayer (id L) (name L) (visible L) (opacity L) (length h)]>
                    (st_layers u)) u).
Proof.
  intros (Hwf & Hsize & Hne & Hids & Hlocs) HL Hsq. unfold live_ok. simpl.
  split; [|split; [done|split; [|split]]].
  - unfold wf_layers. apply Forall_insert.
    + eapply wf_layers_weaken; [|exact Hwf]. intros. by apply heap_grow.
    + exists g1. simpl. split; [|done]. rewrite lookup_app_r by lia. by rewrite Nat.sub_diag.
  - intros Hnil. apply (f_equal length) in Hnil. rewrite length_insert in Hnil.
    by destruct (st_layers u).
  - rewrite list_fmap_insert. simpl. rewrite list_insert_id; [done|].
    by rewrite list_lookup_fmap, HL.
  - rewrite list_fmap_insert. simpl. apply NoDup_insert_fresh; [done|].
    intros Hin. pose proof (wf_layers_alloc _ _ _ _ Hwf Hin). lia.
Qed.

(** One stroke of the pencil or the eraser: the state it leaves. *)
Lemma pencil_run w x y isClick L g :
  inside (st_gridSize (ui w)) (x, y) →
  st_tool (ui w) = pencil ∨ st_tool (ui w) = eraser →
  let li := findIndex (λ l, bool_decide (id l = st_activeLayerId (ui w))) (st_layers (ui w)) in
  js_get (st_layers (ui w)) li = Some L →
  visible L = true →
  heap w !! grid L = Some g →
  square (st_gridSize (ui w)) g →
  let c := if is_eraser (st_tool (ui w)) then EmptyString else st_selectedColor (ui w) in
  let newLayers :=
    <[Z.to_nat li := mkLayer (id L) (name L) (visible L) (opacity L) (length (heap w))]>
      (st_layers (ui w)) in
  fire (λ st, handleDraw st x y isClick) w
  = Ret (if bool_decide (cell g (x, y) = Some c)
         then mkWorld (heap w ++ [g]) (ui w)
         else mkWorld (heap w ++ [paintGrid g x y c]) (with_layers newLayers (ui w))).
Proof.
  intros Hin Htool li HL Hvis Hg Hsq c newLayers.
  destruct (js_get_lt g y) as [row Hrow]; [destruct Hsq, Hin; simpl in *; lia|].
  pose proof (square_row _ _ _ _ Hsq Hrow) as Hlen.
  assert (Hx : 0 ≤ x < Z.of_nat (length row)) by (destruct Hin; simpl in *; lia).
  set (wa := mkWorld (heap w ++ [g]) (ui w)).
  assert (Hcopy : heap wa !! length (heap w) = Some g).
  { unfold wa. simpl. rewrite lookup_app_r by lia. by rewrite Nat.sub_diag. }
  pose proof HL as [Hli0 _]%js_get_Some.
  unfold fire, handleDraw. rewrite bool_decide_false by (destruct Hin; simpl in *; lia).
  fold li. rewrite bool_decide_false by lia. rewrite HL, Hvis. cbn [negb].
  assert (Hkind : is_picker (st_tool (ui w)) = false
                  ∧ is_bucket (st_tool (ui w)) = false
                  ∧ is_pencil (st_tool (ui w)) || is_eraser (st_tool (ui w)) = true).
  { by destruct Htool as [-> | ->]. }
  destruct Hkind as (-> & -> & ->). cbn [andb].
  erewrite bind_Ret by by apply deref_run.
  erewrite bind_Ret by reflexivity.
  erewrite bind_Ret by (eapply readCell_run; eauto).
  fold wa c. destruct (decide (cell g (x, y) = Some c)) as [Hsame|Hdiff].
  - rewrite (bool_decide_false (_ ≠ _)) by (intros Hne; by apply Hne).
    by rewrite bool_decide_true.
  - rewrite (bool_decide_true (_ ≠ _)) by done. rewrite bool_decide_false by done.
    erewrite bind_Ret by (eapply writeCell_run; [exact Hcopy|exact Hrow|exact Hx]).
    unfold setLayers, schedule, wa, paintGrid. simpl. rewrite Hrow, insert_last.
    unfold newLayers. by rewrite Hvis.
Qed.

Lemma square_paintGrid n g x y c : square n g → square n (paintGrid g x y c).
Proof.
  intros Hsq. unfold paintGrid. destruct (js_get g y) eqn:Hrow; [|done].
  by eapply square_setCell.
Qed.

Lemma cell_paintGrid n g x y c q :
  square n g → inside n (x, y) →
  cell (paintGrid g x y c) q = if bool_decide (q = (x, y)) then Some c else cell g q.
Proof.
  intros Hsq Hin. destruct (js_get_lt g y) as [row Hrow]; [destruct Hsq, Hin; simpl in *; lia|].
  unfold paintGrid. rewrite Hrow. apply cell_setCell; [done|].
  rewrite (square_row _ _ _ _ Hsq Hrow). by destruct Hin.
Qed.

(** Two lists of layers with the same fields and the same grid contents
    have the same snapshot. *)
Lemma freezeAll_agree h h' ls ls' vs :
  freezeAll h ls = Some vs →
  Forall2 (λ l l', id l' = id l ∧ name l' = name l ∧ visible l' = visible l
                   ∧ opacity l' = opacity l ∧ h' !! grid l' = h !! grid l) ls ls' →
  freezeAll h' ls' = Some vs.
Proof.
  intros Hvs Hrel. revert vs Hvs.
  induction Hrel as [|l l' ls ls' (Hi & Hn & Hv & Ho & Hg) _ IH]; intros vs Hvs; [done|].
  apply freezeAll_cons in Hvs as (g & vs' & Hgl & Hvs' & ->).
  apply freezeAll_cons. exists g, vs'. rewrite Hg, Hi, Hn, Hv, Ho. auto.
Qed.

Lemma Forall2_insert_diag {A} (R : A → A → Prop) (l : list A) (i : nat) (a b : A) :
  l !! i = Some a → R a b → (∀ j c, j ≠ i → l !! j = Some c → R c c) →
  Forall2 R l (<[i := b]> l).
Proof.
  intros Ha Rab Hrest. apply Forall2_same_length_lookup_2; [by rewrite length_insert|].
  intros j c d Hc Hd. destruct (decide (j = i)) as [->|Hji].
  - rewrite list_lookup_insert_eq in Hd by by eapply lookup_lt_Some. by simplify_eq.
  - rewrite list_lookup_insert_ne in Hd by done. simplify_eq. by eapply Hrest.
Qed.

Lemma NoDup_fmap_lookup {A B} (f : A → B) (l : list A) i j a b :
  NoDup (f <$> l) → l !! i = Some a → l !! j = Some b → f a = f b → i = j.
Proof.
  intros Hnd Ha Hb Hab. eapply NoDup_lookup; [exact Hnd|..].
  - by rewrite list_lookup_fmap, Ha.
  - rewrite list_lookup_fmap, Hb. simpl. by rewrite Hab.
Qed.

(** A click with the bucket: the state it leaves.  The entry it commits is
    the document as it was before the click. *)
Lemma bucket_run w x y L g :
  live_ok (heap w) (ui w) →
  inside (st_gridSize (ui w)) (x, y) →
  st_tool (ui w) = bucket →
  let li := findIndex (λ l, bool_decide (id l = st_activeLayerId (ui w))) (st_layers (ui w)) in
  let sel := st_selectedColor (ui w) in
  js_get (st_layers (ui w)) li = Some L →
  visible L = true →
  heap w !! grid L = Some g →
  ∃ g' vs,
    freezeAll (heap w) (st_layers (ui w)) = Some vs
    ∧ fire (λ st, handleDraw st x y true) w
      = Ret (mkWorld (<[grid L := g']> (heap w ++ [g]))
                     (commitUi (ui w) (mkHistoryState vs (st_gridSize (ui w))) (ui w)))
    ∧ square (st_gridSize (ui w)) g'
    ∧ (cell g (x, y) = Some sel → g' = g)
    ∧ (∀ t, cell g (x, y) = Some t → t ≠ sel → recoloured g t sel (x, y) g').
Proof.
  intros Hlive Hin Htool li sel HL Hvis Hg.
  pose proof Hlive as (Hwf & _ & _ & _ & Hlocs).
  pose proof HL as [Hli0 HLnat]%js_get_Some.
  destruct (wf_layers_lookup _ _ _ _ _ Hwf HLnat) as (g0 & Hg0 & Hsq).
  assert (g0 = g) as -> by congruence. clear Hg0.
  destruct (proj2 (cell_inside _ g (x, y) Hsq) Hin) as [t0 Ht0].
  set (copy := length (heap w)).
  assert (HgL : (grid L < copy)%nat) by by eapply lookup_lt_Some.
  set (newLayers := <[Z.to_nat li := mkLayer (id L) (name L) true (opacity L) copy]>
                      (st_layers (ui w))).
  set (wa := mkWorld (heap w ++ [g]) (ui w)).
  assert (Hcopy : heap wa !! copy = Some g).
  { unfold wa, copy. simpl. rewrite lookup_app_r by lia. by rewrite Nat.sub_diag. }
  assert (HgLa : heap wa !! grid L = Some g) by by apply heap_grow.
  assert (Hfill : ∃ g',
    floodFill (S (cellCount g)) (ui w) li x y (Some t0) sel wa
      = Ret (tt, mkWorld (<[grid L := g']> (heap wa)) (ui w))
    ∧ square (st_gridSize (ui w)) g'
    ∧ (t0 = sel → g' = g)
    ∧ (t0 ≠ sel → recoloured g t0 sel (x, y) g')).
  { destruct (decide (t0 = sel)) as [Heq|Hneq].
    - exists g. cbn [floodFill]. rewrite bool_decide_true by congruence.
      unfold ret. rewrite (world_same wa) by done. done.
    - destruct (floodFill_run (ui w) li L t0 sel (S (cellCount g)) wa g (x, y) HL Hneq HgLa Hsq)
        as (g' & E & Hsq' & Hrec).
      { pose proof (countColor_le_cellCount t0 g). lia. }
      exists g'. cbn [fst snd] in E. rewrite E. unfold fill_ui.
      rewrite bool_decide_true by done. unfold wa at 2. simpl.
      rewrite with_layers_same. done. }
  destruct Hfill as (g' & Efill & Hsq' & Hsame & Hrec).
  set (wb := mkWorld (<[grid L := g']> (heap wa)) (ui w)) in *.
  destruct (freezeAll_wf _ _ _ Hwf) as [vs Hvs].
  assert (Hsnap : freezeAll (heap wb) newLayers = Some vs).
  { eapply freezeAll_agree; [exact Hvs|].
    unfold newLayers. eapply Forall2_insert_diag; [exact HLnat| |].
    - simpl. repeat (split; [done|]). unfold wb, wa. simpl.
      rewrite list_lookup_insert_ne by lia. fold copy.
      rewrite lookup_app_r by (unfold copy; lia). unfold copy. by rewrite Nat.sub_diag.
    - intros j l Hj Hl. repeat (split; [done|]). unfold wb, wa. simpl.
      destruct (wf_layers_lookup _ _ _ _ _ Hwf Hl) as (gl & Hgl & _).
      rewrite list_lookup_insert_ne.
      + rewrite Hgl. by apply heap_grow.
      + intros Heq. apply Hj. symmetry.
        by eapply (NoDup_fmap_lookup grid (st_layers (ui w))). }
  exists g', vs. split; [done|]. split; [|split; [done|split]].
  - unfold fire, handleDraw. rewrite bool_decide_false by (destruct Hin; simpl in *; lia).
    fold li. rewrite bool_decide_false by lia. rewrite HL, Hvis, Htool.
    cbn [negb is_picker is_bucket andb].
    erewrite bind_Ret by by apply deref_run.
    erewrite bind_Ret by reflexivity.
    erewrite bind_Ret by (eapply readCell_run; [exact Hcopy|]; apply js_get_lt;
                           destruct Hsq, Hin; simpl in *; lia).
    fold copy wa sel newLayers. rewrite Ht0.
    erewrite bind_Ret by exact Efill. fold wb.
    by erewrite commit_run by exact Hsnap.
  - intros Hc. apply Hsame. congruence.
  - intros t Ht Hne. assert (t = t0) as -> by congruence. by apply Hrec.
Qed.

(** [findIndex] answers -1 or the index of an element that satisfies the
    test, the first one. *)
Lemma findIndex_found {A} (p : A → bool) (l : list A) :
  findIndex p l = -1 ∨ ∃ a, js_get l (findIndex p l) = Some a ∧ p a = true.
Proof.
  induction l as [|a l IH]; [by left|]. cbn [findIndex].
  destruct (p a) eqn:Hp; [right; by exists a|].
  destruct IH as [->|(b & Hb & Hpb)]; [by left|].
  pose proof (js_get_range _ _ _ Hb) as Hr.
  right. exists b. rewrite bool_decide_false by lia. split; [|done].
  apply js_get_Some in Hb as [? Hb]. apply js_get_Some. split; [lia|].
  replace (Z.to_nat (findIndex p l + 1)) with (S (Z.to_nat (findIndex p l))) by lia. done.
Qed.

Lemma live_ok_set h u k g' :
  live_ok h u → (k < length h)%nat → square (st_gridSize u) g' →
  live_ok (<[k := g']> h) u.
Proof.
  intros (Hwf & Hrest) Hk Hsq. split; [|done].
  unfold wf_layers in *. apply Forall_forall. intros l Hl. rewrite Forall_forall in Hwf.
  destruct (Hwf l Hl) as (g & Hg & Hsg).
  destruct (decide (grid l = k)) as [->|Hne].
  - exists g'. by rewrite list_lookup_insert_eq.
  - exists g. by rewrite list_lookup_insert_ne.
Qed.

Lemma drawFrame_refl w : drawFrame w w.
Proof. done. Qed.

Lemma handleDraw_inv w x y isClick :
  Inv w →
  ∃ w', fire (λ st, handleDraw st x y isClick) w = Ret w' ∧ Inv w' ∧ drawFrame w w'
        ∧ ((st_tool (ui w) = bucket → isClick = false) → sameHistory w w').
Proof.
  intros [Hlive Hhist].
  destruct (decide (inside (st_gridSize (ui w)) (x, y))) as [Hin|Hout]; last first.
  { exists w. split; [|done]. unfold fire, handleDraw.
    rewrite bool_decide_true; [by destruct w|].
    unfold inside in Hout. simpl in Hout. lia. }
  set (li := findIndex (λ l, bool_decide (id l = st_activeLayerId (ui w))) (st_layers (ui w))).
  destruct (findIndex_found (λ l, bool_decide (id l = st_activeLayerId (ui w)))
              (st_layers (ui w))) as [Hno|(L & HL & _)]; fold li in Hno || fold li in HL.
  { exists w. split; [|done]. unfold fire, handleDraw.
    rewrite bool_decide_false by (destruct Hin; simpl in *; lia).
    fold li. rewrite bool_decide_true by done. by destruct w. }
  pose proof (js_get_range _ _ _ HL) as Hli.
  pose proof HL as [_ HLnat]%js_get_Some.
  destruct (visible L) eqn:Hvis; last first.
  { exists w. split; [|done]. unfold fire, handleDraw.
    rewrite bool_decide_false by (destruct Hin; simpl in *; lia).
    fold li. rewrite bool_decide_false by lia. rewrite HL, Hvis. by destruct w. }
  pose proof Hlive as (Hwf & Hsz & Hne & Hids & Hlocs).
  destruct (wf_layers_lookup _ _ _ _ _ Hwf HLnat) as (g & Hg & Hsq).
  assert (Hpaint : st_tool (ui w) = pencil ∨ st_tool (ui w) = eraser →
    ∃ w', fire (λ st, handleDraw st x y isClick) w = Ret w' ∧ Inv w' ∧ drawFrame w w'
          ∧ ((st_tool (ui w) = bucket → isClick = false) → sameHistory w w')).
  { intros Htool.
    rewrite (pencil_run w x y isClick L g Hin Htool HL Hvis Hg Hsq).
    eexists. split; [done|]. case_bool_decide.
    - split; [|done]. split; [|done]. simpl. eapply live_ok_grow; [|done].
      intros. by apply heap_grow.
    - split; [split|split; [|done]].
      + cbn [heap ui].
        apply (live_ok_clone (heap w) (ui w) (Z.to_nat li) L _ Hlive HLnat).
        by apply square_paintGrid.
      + done.
      + split; [done|]. split; [|done]. simpl. rewrite list_fmap_insert. simpl.
        fold li. apply list_insert_id. by rewrite list_lookup_fmap, HLnat. }
  destruct (st_tool (ui w)) eqn:Htool.
  - apply Hpaint. by left.
  - apply Hpaint. by right.
  - (* bucket *)
    destruct isClick.
    + destruct (bucket_run w x y L g Hlive Hin Htool HL Hvis Hg)
        as (g' & vs & Hvs & -> & Hsq' & _).
      eexists. split; [done|]. split; [|split; [done|intros Hq; by specialize (Hq eq_refl)]].
      split.
      * simpl. apply live_ok_set; [| |done].
        -- eapply live_ok_grow; [|exact Hlive]. intros. by apply heap_grow.
        -- rewrite length_app. apply lookup_lt_Some in Hg. lia.
      * simpl. apply history_ok_commit; [done|]. by eapply entry_of_live.
    + exists (mkWorld (heap w ++ [g]) (ui w)). split; [|split; [split; [|done]|done]].
      * unfold fire, handleDraw.
        rewrite bool_decide_false by (destruct Hin; simpl in *; lia).
        fold li. rewrite bool_decide_false by lia. rewrite HL, Hvis, Htool.
        cbn [negb is_picker is_bucket is_pencil is_eraser andb orb].
        erewrite bind_Ret by by apply deref_run.
        erewrite bind_Ret by reflexivity. done.
      * simpl. eapply live_ok_grow; [|done]. intros. by apply heap_grow.
  - (* picker *)
    destruct (picker_run w x y isClick (live_ok_wf _ Hlive) Hin Htool) as (Hpick & _).
    destruct (Hpick L HL Hvis) as [(i & l & c & _ & _ & _ & _ & _ & ->)|[_ ->]].
    + eexists. split; [done|]. done.
    + by exists w.
Qed.

(** * Every handler keeps the invariant *)

Lemma opacity_run w i v :
  fire (λ st, updateLayerOpacity st i v) w
  = Ret (lift (with_layers
                 ((λ l, if bool_decide (id l = i)
                        then mkLayer (id l) (name l) (visible l) v (grid l) else l)
                    <$> st_layers (ui w))) w).
Proof. done. Qed.

Lemma initHistory_run w :
  live_ok (heap w) (ui w) →
  ∃ vs,
    freezeAll (heap w) (st_layers (ui w)) = Some vs
    ∧ fire initHistory w
      = Ret (if bool_decide (length (st_history (ui w)) = 0%nat)
             then lift (λ u, with_historyIndex 0
                         (with_history [mkHistoryState vs (st_gridSize (ui w))] u)) w
             else w).
Proof.
  intros Hlive. destruct (freezeAll_wf _ _ _ (proj1 Hlive)) as [vs Hvs].
  exists vs. split; [done|]. unfold fire, initHistory. case_bool_decide.
  - by erewrite bind_Ret by by apply stringify_run.
  - by destruct w.
Qed.

Lemma initHistory_inv w w' :
  live_ok (heap w) (ui w) → st_history (ui w) = [] →
  fire initHistory w = Ret w' →
  Inv w' ∧ synced w' ∧ heap w' = heap w
  ∧ ∃ e, document w = Some e ∧ st_history (ui w') = [e] ∧ st_historyIndex (ui w') = 0.
Proof.
  intros Hlive Hnil. destruct (initHistory_run w Hlive) as (vs & Hvs & E).
  rewrite E, Hnil. intros [= <-].
  pose proof (entry_of_live _ _ _ Hlive Hvs) as He.
  split; [split|split; [|split; [done|]]].
  - by eapply live_ok_fields; [..|exact Hlive].
  - split; [|split]; simpl; [unfold cursor_ok; simpl; lia|unfold MAX_HISTORY; lia|].
    apply Forall_cons. split; [done|]. by apply Forall_nil.
  - unfold synced, document. simpl. by rewrite Hvs.
  - eexists. split; [by apply document_Some|]. done.
Qed.

Lemma session_cons h hs w :
  session (h :: hs) w = match fire h w with
                        | Ret w' => session hs w'
                        | Throw e => Throw e
                        | Stuck s => Stuck s
                        end.
Proof.
  unfold session. cbn [foldl]. destruct (fire h w) as [w'|e|s]; [done|..].
  - induction hs as [|h' hs IH]; [done|]. exact IH.
  - induction hs as [|h' hs IH]; [done|]. exact IH.
Qed.

Lemma session_app hs1 hs2 w :
  session (hs1 ++ hs2) w = match session hs1 w with
                           | Ret w' => session hs2 w'
                           | Throw e => Throw e
                           | Stuck s => Stuck s
                           end.
Proof.
  revert w. induction hs1 as [|h hs1 IH]; intros w; [done|].
  change ((h :: hs1) ++ hs2) with (h :: (hs1 ++ hs2)). rewrite !session_cons.
  destruct (fire h w); [apply IH|done..].
Qed.

Ltac by_commit Hhist Hl Hvs :=
  match goal with
  | |- Inv (mkWorld ?h (commitUi ?st (mkHistoryState ?vs _) ?u)) =>
      refine (proj1 (Inv_commit st h u vs Hhist _ Hvs));
      first [exact Hl | by eapply live_ok_fields; [..|exact Hl]]
  end.

Lemma handler_inv e w :
  Inv w → allowed e (ui w) → ∃ w', fire (handler e) w = Ret w' ∧ Inv w'.
Proof.
  intros HI Hal. pose proof HI as [Hlive Hhist].
  destruct e as [x y|x y| | | |newId|i|i|i v|size|i|c|t]; cbn [handler allowed] in *.
  - rewrite handlePointerDown_run.
    destruct (handleDraw_inv w x y true HI) as (w' & -> & [Hl Hh] & _ & _).
    eexists. split; [done|]. split.
    + by eapply live_ok_fields; [..|exact Hl].
    + by eapply history_ok_fields; [..|exact Hh].
  - destruct (st_isDrawing (ui w)) eqn:Hd.
    + destruct (handleDraw_inv w x y false HI) as (w' & E & HI' & _ & _).
      exists w'. split; [|done]. unfold fire, handlePointerMove in *. by rewrite Hd.
    + exists w. split; [|done]. unfold fire, handlePointerMove. rewrite Hd. by destruct w.
  - destruct (pointerUp_run w Hlive) as (vs & Hvs & ->). eexists. split; [done|].
    destruct (st_isDrawing (ui w)); [|done].
    by_commit Hhist Hlive Hvs.
  - destruct (undo_inv w HI) as (w' & E & HI' & _). by exists w'.
  - destruct (redo_inv w HI) as (w' & E & HI' & _). by exists w'.
  - destruct (addLayer_run w newId Hlive Hal) as (vs & Hvs & Hl & ->).
    eexists. split; [done|].
    by_commit Hhist Hl Hvs.
  - destruct (decide (1 < length (st_layers (ui w)))%nat) as [Hlen|Hlen].
    + destruct (delete_run w i Hlive Hlen) as (vs & top & Hvs & Htop & Hl & ->).
      eexists. split; [done|]. case_bool_decide.
      * by_commit Hhist Hl Hvs.
      * by_commit Hhist Hl Hvs.
    + exists w. split; [|done]. unfold fire, deleteLayer.
      rewrite bool_decide_true by lia. by destruct w.
  - destruct (toggle_run w i Hlive) as (vs & Hvs & Hl & ->).
    eexists. split; [done|]. by_commit Hhist Hl Hvs.
  - rewrite opacity_run. eexists. split; [done|]. split.
    + simpl. apply live_ok_map; [|done]. intros l. by case_bool_decide.
    + done.
  - destruct (decide (size = st_gridSize (ui w))) as [->|Hne].
    + exists w. split; [|done]. unfold fire, changeGridSize.
      rewrite bool_decide_true by done. by destruct w.
    + destruct (changeGridSize_run w size HI Hal Hne) as (w' & E & HI' & _). by exists w'.
  - eexists. split; [done|]. split; [by eapply live_ok_fields; [..|exact Hlive]|done].
  - eexists. split; [done|]. split; [by eapply live_ok_fields; [..|exact Hlive]|done].
  - eexists. split; [done|]. split; [by eapply live_ok_fields; [..|exact Hlive]|done].
Qed.

Lemma play_inv es :
  ∀ w, Inv w → admissible es w → ∃ w', play es w = Ret w' ∧ Inv w'.
Proof.
  induction es as [|e es IH]; intros w HI Had; [by exists w|].
  destruct Had as [Hal Hrest].
  destruct (handler_inv e w HI Hal) as (w1 & E & HI1).
  destruct (IH w1 HI1 (Hrest w1 E)) as (w' & E' & HI').
  exists w'. split; [|done]. unfold play in *. rewrite fmap_cons, session_cons, E. exact E'.
Qed.

Lemma initialWorld_live : live_ok (heap initialWorld) (ui initialWorld).
Proof.
  split; [|split; [|split; [done|split]]].
  - apply Forall_cons. split; [|by apply Forall_nil].
    eexists. split; [done|]. split; [done|]. by apply (bool_decide_unpack _).
  - unfold sizeOk. simpl. unfold DEFAULT_GRID_SIZE. lia.
  - apply (bool_decide_unpack _). by vm_compute.
  - apply (bool_decide_unpack _). by vm_compute.
Qed.

(** * Commits, from the handlers *)

Lemma pushEntry_ext st st' e :
  st_history st' = st_history st → st_historyIndex st' = st_historyIndex st →
  pushEntry st' e = pushEntry st e.
Proof. unfold pushEntry. by intros -> ->. Qed.

Lemma pushEntry_length st e :
  history_ok st →
  Z.of_nat (length (pushEntry st e)) = Z.min (st_historyIndex st + 2) MAX_HISTORY.
Proof.
  intros (Hc & Hlen & _). destruct (js_slice0_cursor _ _ Hc) as [_ Hl].
  unfold pushEntry. unfold cursor_ok, MAX_HISTORY in *.
  case_bool_decide as Hfull; rewrite ?length_drop, !length_app in *; simpl in *; lia.
Qed.

(** The entry before the new one is the entry the cursor was on. *)
Lemma pushEntry_prev st e :
  history_ok st →
  js_get (pushEntry st e) (Z.of_nat (length (pushEntry st e)) - 2)
  = js_get (st_history st) (st_historyIndex st).
Proof.
  intros (Hc & Hmax & _).
  destruct (js_slice0_cursor _ _ Hc) as [Htake Hl].
  unfold cursor_ok, MAX_HISTORY in *. unfold pushEntry. rewrite Htake in *.
  set (pre := take (Z.to_nat (st_historyIndex st + 1)) (st_history st)) in *.
  assert (Hpre : pre !! Z.to_nat (st_historyIndex st)
                 = st_history st !! Z.to_nat (st_historyIndex st)).
  { unfold pre. apply lookup_take_lt. lia. }
  assert (Hfl : Z.of_nat (length (pre ++ [e])) = st_historyIndex st + 2).
  { rewrite length_app. simpl. lia. }
  rewrite Hfl. unfold MAX_HISTORY. destruct (bool_decide (st_historyIndex st + 2 > 20)) eqn:Hb.
  - apply bool_decide_eq_true in Hb. rewrite length_drop.
    unfold js_get. rewrite !bool_decide_true by lia. rewrite lookup_drop.
    rewrite lookup_app_l by lia. rewrite <- Hpre. f_equal. lia.
  - apply bool_decide_eq_false in Hb.
    unfold js_get. rewrite !bool_decide_true by lia.
    rewrite lookup_app_l by lia. rewrite <- Hpre. f_equal. lia.
Qed.

Lemma committedFrom_commit w h u vs :
  freezeAll h (st_layers u) = Some vs →
  committedFrom w (mkWorld h (commitUi (ui w) (mkHistoryState vs (st_gridSize u)) u)).
Proof.
  intros Hvs. eexists. split; [|done]. unfold document. simpl. by rewrite Hvs.
Qed.

Lemma committedFrom_synced w w' : committedFrom w w' → synced w'.
Proof.
  intros (e & Hdoc & Hh & Hi). unfold synced. rewrite Hdoc, Hi, Hh.
  symmetry. apply commit_last.
Qed.

Ltac from_commit Hvs :=
  match goal with
  | |- committedFrom ?w (mkWorld ?h (commitUi _ (mkHistoryState ?vs _) ?u)) =>
      exact (committedFrom_commit w h u vs Hvs)
  end.

Lemma handler_commits e w :
  Inv w → allowed e (ui w) → committing e (ui w) →
  ∃ w', fire (handler e) w = Ret w' ∧ committedFrom w w'.
Proof.
  intros HI Hal Hc. pose proof HI as [Hlive Hhist].
  destruct e as [x y|x y| | | |newId|i|i|i v|size|i|c|t]; cbn [handler allowed committing] in *;
    try done.
  - destruct (pointerUp_run w Hlive) as (vs & Hvs & ->). rewrite Hc.
    eexists. split; [done|]. from_commit Hvs.
  - destruct (addLayer_run w newId Hlive Hal) as (vs & Hvs & Hl & ->).
    eexists. split; [done|]. from_commit Hvs.
  - destruct (delete_run w i Hlive Hc) as (vs & top & Hvs & Htop & Hl & ->).
    eexists. split; [done|]. case_bool_decide; from_commit Hvs.
  - destruct (toggle_run w i Hlive) as (vs & Hvs & Hl & ->).
    eexists. split; [done|]. from_commit Hvs.
  - destruct (resize_run w size HI Hal Hc) as (ls' & ngs & snap & -> & Hl & Hvs & _).
    eexists. split; [done|].
    exact (committedFrom_commit w _ (with_layers ls' (with_gridSize size (ui w))) snap Hvs).
Qed.

(** An undo after a commit shows the entry the cursor was on. *)
Lemma undo_after_commit w w' :
  Inv w → Inv w' → committedFrom w w' →
  ∃ w2, fire undo w' = Ret w2
        ∧ document w2 = js_get (st_history (ui w)) (st_historyIndex (ui w))
        ∧ st_historyIndex (ui w2) = Z.of_nat (length (st_history (ui w'))) - 2.
Proof.
  intros [_ Hhist] HI' (e & Hdoc & Hh & Hi).
  destruct (undo_inv w' HI') as (w2 & E & _ & _ & Hidx & _ & Hmove & _).
  pose proof (pushEntry_length (ui w) e Hhist) as Hlen.
  pose proof Hhist as (Hc & _). unfold cursor_ok, MAX_HISTORY in *.
  rewrite <- Hh in Hlen.
  exists w2. split; [done|]. destruct Hmove as [_ Hd]; [lia|]. split; [|lia].
  rewrite Hd, Hi, Hh. rewrite <- (pushEntry_prev (ui w) e Hhist). f_equal. lia.
Qed.

(** * Walking through the history *)

Lemma undo_steps k :
  ∀ w, Inv w → Z.of_nat k ≤ st_historyIndex (ui w) →
    ∃ wk, fireN undo k w = Ret wk ∧ Inv wk
      ∧ st_history (ui wk) = st_history (ui w)
      ∧ st_historyIndex (ui wk) = st_historyIndex (ui w) - Z.of_nat k
      ∧ st_activeLayerId (ui wk) = st_activeLayerId (ui w)
      ∧ ((0 < k)%nat →
         document wk = js_get (st_history (ui w)) (st_historyIndex (ui w) - Z.of_nat k)).
Proof.
  induction k as [|k IH]; intros w HI Hk.
  - exists w. split; [done|]. split; [done|]. split; [done|]. split; [lia|]. split; [done|lia].
  - destruct (undo_inv w HI) as (w1 & E1 & HI1 & Hh1 & Hi1 & Ha1 & Hmove & _).
    destruct Hmove as [_ Hd1]; [lia|].
    destruct (IH w1 HI1) as (wk & Ek & HIk & Hhk & Hik & Hak & Hdk); [lia|].
    exists wk. cbn [fireN]. rewrite E1. split; [done|]. split; [done|].
    split; [congruence|]. split; [lia|]. split; [congruence|]. intros _.
    destruct k as [|k'].
    + injection Ek as <-. rewrite Hd1. f_equal.
    + rewrite Hdk by lia. rewrite Hh1. f_equal. lia.
Qed.

Lemma redo_steps k :
  ∀ w, Inv w →
    st_historyIndex (ui w) + Z.of_nat k ≤ Z.of_nat (length (st_history (ui w))) - 1 →
    ∃ wk, fireN redo k w = Ret wk ∧ Inv wk
      ∧ st_history (ui wk) = st_history (ui w)
      ∧ st_historyIndex (ui wk) = st_historyIndex (ui w) + Z.of_nat k
      ∧ st_activeLayerId (ui wk) = st_activeLayerId (ui w)
      ∧ ((0 < k)%nat →
         document wk = js_get (st_history (ui w)) (st_historyIndex (ui w) + Z.of_nat k)).
Proof.
  induction k as [|k IH]; intros w HI Hk.
  - exists w. split; [done|]. split; [done|]. split; [done|]. split; [lia|]. split; [done|lia].
  - destruct (redo_inv w HI) as (w1 & E1 & HI1 & Hh1 & Hi1 & Ha1 & Hmove & _).
    destruct Hmove as [_ Hd1]; [lia|].
    destruct (IH w1 HI1) as (wk & Ek & HIk & Hhk & Hik & Hak & Hdk); [rewrite Hh1; lia|].
    exists wk. cbn [fireN]. rewrite E1. split; [done|]. split; [done|].
    split; [congruence|]. split; [lia|]. split; [congruence|]. intros _.
    destruct k as [|k'].
    + injection Ek as <-. rewrite Hd1. f_equal.
    + rewrite Hdk by lia. rewrite Hh1. f_equal. lia.
Qed.

Lemma freezeAll_opacity h ls vs : freezeAll h ls = Some vs → opacity <$> vs = opacity <$> ls.
Proof.
  revert vs. induction ls as [|l ls IH]; intros vs Hvs.
  - by injection Hvs as <-.
  - apply freezeAll_cons in Hvs as (g & vs' & _ & Hvs' & ->). csimpl. by rewrite (IH vs').
Qed.

(** * The active layer *)

Lemma findIndex_none {A} (p : A → bool) (l : list A) :
  (∀ a, a ∈ l → p a = false) → findIndex p l = -1.
Proof.
  induction l as [|a l IH]; intros Hall; [done|]. cbn [findIndex].
  rewrite (Hall a) by apply list_elem_of_here.
  rewrite IH; [done|]. intros b Hb. apply Hall. by apply list_elem_of_further.
Qed.

Lemma handleDraw_dangling w x y isClick :
  st_activeLayerId (ui w) ∉ id <$> st_layers (ui w) →
  fire (λ st, handleDraw st x y isClick) w = Ret w.
Proof.
  intros Hno. unfold fire, handleDraw. case_bool_decide; [by destruct w|].
  rewrite findIndex_none; [by destruct w|].
  intros l Hl. apply bool_decide_false. intros Hid. apply Hno. rewrite <- Hid.
  by apply list_elem_of_fmap_2.
Qed.

Lemma document_ids w w' : Inv w → document w' = document w →
  wf w' → id <$> st_layers (ui w') = id <$> st_layers (ui w).
Proof.
  intros [Hlive _] Hdoc Hwf'.
  destruct (freezeAll_wf _ _ _ (proj1 Hlive)) as [vs Hvs].
  destruct (freezeAll_wf _ _ _ Hwf') as [vs' Hvs'].
  rewrite (document_Some w vs Hvs), (document_Some w' vs' Hvs') in Hdoc.
  injection Hdoc as -> _.
  by rewrite <- (freezeAll_ids _ _ _ Hvs), <- (freezeAll_ids _ _ _ Hvs').
Qed.

Lemma elem_of_filter_ids (ls : list (Layer loc)) (a i : string) :
  a ∈ id <$> ls → a ≠ i → a ∈ id <$> filter (λ l, id l ≠ i) ls.
Proof.
  intros (l & -> & Hl)%list_elem_of_fmap Hne.
  apply list_elem_of_fmap. exists l. split; [done|]. by apply list_elem_of_filter.
Qed.

Lemma handler_active e w :
  Inv w → allowed e (ui w) → active_ok (ui w) → keepsActive e (ui w) →
  ∃ w', fire (handler e) w = Ret w' ∧ active_ok (ui w').
Proof.
  intros HI Hal Hact Hk. pose proof HI as [Hlive Hhist]. unfold active_ok in *.
  destruct e as [x y|x y| | | |newId|i|i|i v|size|i|c|t];
    cbn [handler allowed keepsActive] in *; try done.
  - rewrite handlePointerDown_run.
    destruct (handleDraw_inv w x y true HI) as (w' & -> & _ & (_ & Hids & Ha & _) & _).
    eexists. split; [done|]. simpl. by rewrite Hids, Ha.
  - destruct (st_isDrawing (ui w)) eqn:Hd.
    + destruct (handleDraw_inv w x y false HI) as (w' & E & _ & (_ & Hids & Ha & _) & _).
      exists w'. split; [|by rewrite Hids, Ha].
      unfold fire, handlePointerMove in *. by rewrite Hd.
    + exists w. split; [|done]. unfold fire, handlePointerMove. rewrite Hd. by destruct w.
  - destruct (pointerUp_run w Hlive) as (vs & Hvs & ->). eexists. split; [done|].
    by destruct (st_isDrawing (ui w)).
  - destruct (addLayer_run w newId Hlive Hal) as (vs & Hvs & Hl & ->).
    eexists. split; [done|]. simpl. rewrite fmap_app. apply elem_of_app. right.
    apply list_elem_of_here.
  - destruct (decide (1 < length (st_layers (ui w)))%nat) as [Hlen|Hlen].
    + destruct (delete_run w i Hlive Hlen) as (vs & top & Hvs & Htop & Hl & ->).
      eexists. split; [done|]. case_bool_decide as Hai; simpl.
      * apply list_elem_of_fmap_2. rewrite last_lookup in Htop.
        by eapply list_elem_of_lookup_2.
      * by apply elem_of_filter_ids.
    + exists w. split; [|done]. unfold fire, deleteLayer.
      rewrite bool_decide_true by lia. by destruct w.
  - destruct (toggle_run w i Hlive) as (vs & Hvs & Hl & ->).
    eexists. split; [done|]. simpl. rewrite <- list_fmap_compose.
    erewrite list_fmap_ext; [exact Hact|]. intros j l _. simpl. by case_bool_decide.
  - rewrite opacity_run. eexists. split; [done|]. simpl. rewrite <- list_fmap_compose.
    erewrite list_fmap_ext; [exact Hact|]. intros j l _. simpl. by case_bool_decide.
  - destruct (decide (size = st_gridSize (ui w))) as [->|Hne].
    + exists w. split; [|done]. unfold fire, changeGridSize.
      rewrite bool_decide_true by done. by destruct w.
    + destruct (changeGridSize_run w size HI Hal Hne) as (w' & E & _ & _ & _ & Hids & Ha).
      exists w'. split; [done|]. by rewrite Hids, Ha.
  - eexists. split; [done|]. done.
  - eexists. split; [done|]. done.
  - eexists. split; [done|]. done.
Qed.

(** * Grids cell by cell *)

Lemma grid_ext n (g g' : PixelGrid) :
  square n g → square n g' →
  (∀ q, inside n q → cell g q = cell g' q) → g = g'.
Proof.
  intros [Hlen Hrows] [Hlen' Hrows'] Hcells. apply list_eq. intros i.
  destruct (decide (i < length g)%nat) as [Hi|Hi]; last first.
  { rewrite !lookup_ge_None_2; [done|lia..]. }
  destruct (lookup_lt_is_Some_2 g i Hi) as [r Hr].
  destruct (lookup_lt_is_Some_2 g' i ltac:(lia)) as [r' Hr'].
  rewrite Hr, Hr'. f_equal.
  pose proof (proj1 (Forall_lookup _ _) Hrows i r Hr) as Hlr. simpl in Hlr.
  pose proof (proj1 (Forall_lookup _ _) Hrows' i r' Hr') as Hlr'. simpl in Hlr'.
  apply list_eq. intros j.
  destruct (decide (j < length r)%nat) as [Hj|Hj]; last first.
  { rewrite !lookup_ge_None_2; [done|lia..]. }
  specialize (Hcells (Z.of_nat j, Z.of_nat i)). unfold cell, js_get in Hcells.
  cbn [fst snd] in Hcells. rewrite !bool_decide_true in Hcells by lia.
  rewrite !Nat2Z.id, Hr, Hr' in Hcells. apply Hcells. split; simpl; lia.
Qed.

(** Layers with the same fields and the same cells have the same snapshot. *)
Lemma freezeAll_cells h h' n ls ls' :
  wf_layers h n ls → wf_layers h' n ls' →
  Forall2 (λ l l', id l' = id l ∧ name l' = name l ∧ visible l' = visible l
                   ∧ opacity l' = opacity l
                   ∧ ∀ q, inside n q → layerCell h' l' q = layerCell h l q) ls ls' →
  freezeAll h' ls' = freezeAll h ls.
Proof.
  intros Hwf Hwf' Hrel. induction Hrel as [|l l' ls ls' (Hi & Hn & Hv & Ho & Hc) _ IH]; [done|].
  apply Forall_cons in Hwf as [(g & Hg & Hsq) Hwf].
  apply Forall_cons in Hwf' as [(g' & Hg' & Hsq') Hwf'].
  cbn [freezeAll]. rewrite (IH Hwf Hwf'). unfold freeze. rewrite Hg, Hg', Hi, Hn, Hv, Ho.
  replace g' with g; [done|]. apply (grid_ext n); [done..|].
  intros q Hq. specialize (Hc q Hq). unfold layerCell in Hc. by rewrite Hg, Hg' in Hc.
Qed.

Lemma toggle_toggle i (ls : list (Layer loc)) :
  let f := λ l : Layer loc,
             if bool_decide (id l = i)
             then mkLayer (id l) (name l) (negb (visible l)) (opacity l) (grid l) else l in
  f <$> (f <$> ls) = ls.
Proof.
  intros f. rewrite <- list_fmap_compose. rewrite <- (list_fmap_id ls) at 2.
  apply list_fmap_ext. intros j l _. unfold f. cbn [compose].
  destruct (decide (id l = i)) as [Hid|Hid].
  - rewrite (bool_decide_true (id l = i)) by done. cbn [id].
    rewrite (bool_decide_true (id l = i)) by done. destruct l. simpl.
    by rewrite negb_involutive.
  - by rewrite !(bool_decide_false (id l = i)) by done.
Qed.

Lemma resize_and_back_run size w :
  Inv w → sizeOk size → size ≠ st_gridSize (ui w) →
  ∃ w1 w2,
    fire (λ st, changeGridSize st size) w = Ret w1
    ∧ fire (λ st, changeGridSize st (st_gridSize (ui w))) w1 = Ret w2
    ∧ st_gridSize (ui w2) = st_gridSize (ui w)
    ∧ wf w2
    ∧ Forall2 (λ l l2,
        id l2 = id l ∧ name l2 = name l ∧ visible l2 = visible l ∧ opacity l2 = opacity l
        ∧ ∀ q, inside (st_gridSize (ui w)) q →
            layerCell (heap w2) l2 q
            = if bool_decide (inside size q) then layerCell (heap w) l q else Some EmptyString)
        (st_layers (ui w)) (st_layers (ui w2)).
Proof.
  intros HI Hsize Hne. pose proof HI as [Hlive Hhist]. pose proof Hlive as (_ & Hsz & _).
  destruct (resize_run w size HI Hsize Hne) as (ls1 & ngs1 & snap1 & E1 & Hlive1 & Hsnap1 & Hrel1).
  set (w1 := mkWorld (heap w ++ ngs1)
               (commitUi (ui w) (mkHistoryState snap1 size)
                  (with_layers ls1 (with_gridSize size (ui w))))) in *.
  assert (HI1 : Inv w1).
  { exact (proj1 (Inv_commit (ui w) (heap w ++ ngs1) _ snap1 Hhist Hlive1 Hsnap1)). }
  destruct (resize_run w1 (st_gridSize (ui w)) HI1 Hsz) as
    (ls2 & ngs2 & snap2 & E2 & Hlive2 & Hsnap2 & Hrel2); [simpl; congruence|].
  exists w1. eexists. split; [exact E1|]. split; [exact E2|]. split; [done|].
  split; [exact (proj1 Hlive2)|]. cbn [heap ui st_layers commitUi with_historyIndex with_history
    with_layers with_gridSize st_gridSize] in *.
  eapply Forall2_trans; [|exact Hrel1|exact Hrel2].
  intros l l1 l2 (Hi1 & Hn1 & Hv1 & Ho1 & Hc1) (Hi2 & Hn2 & Hv2 & Ho2 & Hc2).
  split; [congruence|]. split; [congruence|]. split; [congruence|]. split; [congruence|].
  change (st_gridSize (ui w1)) with size in Hc2.
  change (heap w1) with (heap w ++ ngs1) in Hc2.
  change (heap w1) with (heap w ++ ngs1).
  intros q Hq. rewrite (Hc2 q Hq). destruct (decide (inside size q)) as [Hin|Hin].
  - rewrite (bool_decide_true (inside size q)) by done.
    rewrite (Hc1 q Hin). by rewrite bool_decide_true.
  - by rewrite (bool_decide_false (inside size q)).
Qed.

(** * Gestures *)

Lemma play_cons e es w :
  play (e :: es) w = match fire (handler e) w with
                     | Ret w' => play es w'
                     | Throw err => Throw err
                     | Stuck s => Stuck s
                     end.
Proof. unfold play. by rewrite fmap_cons, session_cons. Qed.

Lemma play_app es1 es2 w :
  play (es1 ++ es2) w = match play es1 w with
                        | Ret w' => play es2 w'
                        | Throw err => Throw err
                        | Stuck s => Stuck s
                        end.
Proof. unfold play. by rewrite fmap_app, session_app. Qed.

Lemma pointerDown_inv x y w :
  Inv w →
  ∃ w', fire (handler (PointerDown x y)) w = Ret w' ∧ Inv w'
        ∧ st_isDrawing (ui w') = true
        ∧ (st_tool (ui w) ≠ bucket → sameHistory w w').
Proof.
  intros HI. cbn [handler]. rewrite handlePointerDown_run.
  destruct (handleDraw_inv w x y true HI) as (w' & -> & [Hl Hh] & _ & Hsame).
  eexists. split; [done|]. split; [|split; [done|]].
  - split; [by eapply live_ok_fields; [..|exact Hl]|by eapply history_ok_fields; [..|exact Hh]].
  - intros Hnb. destruct Hsame as [Hs1 Hs2]; [done|]. by split.
Qed.

Lemma drag_inv ps :
  ∀ w, Inv w → st_isDrawing (ui w) = true →
    ∃ w', play (drag ps) w = Ret w' ∧ Inv w' ∧ st_isDrawing (ui w') = true ∧ sameHistory w w'.
Proof.
  induction ps as [|p ps IH]; intros w HI Hd; [by exists w|].
  destruct (handleDraw_inv w p.1 p.2 false HI) as (w1 & E1 & HI1 & (_ & _ & _ & Hd1) & Hsame).
  destruct Hsame as [Hh1 Hi1]; [done|].
  destruct (IH w1 HI1) as (w' & E' & HI' & Hd' & Hh' & Hi'); [congruence|].
  exists w'. split; [|split; [done|split; [done|split; congruence]]].
  unfold drag. rewrite fmap_cons. rewrite play_cons. cbn [handler].
  unfold fire, handlePointerMove in *. rewrite Hd. cbn [negb].
  destruct (handleDraw (ui w) p.1 p.2 false w) as [[[] w1']|?|?]; [|done..].
  injection E1 as ->. exact E'.
Qed.

Lemma committedFrom_ext w0 w w' :
  sameHistory w0 w → committedFrom w w' → committedFrom w0 w'.
Proof.
  intros [Hh Hi] (e & Hd & Hp & Hl). exists e. split; [done|]. split; [|done].
  rewrite Hp. by apply pushEntry_ext.
Qed.

(** Entries further back, counted from the new one. *)
Lemma pushEntry_back st e k :
  history_ok st → 1 ≤ k → 0 ≤ Z.of_nat (length (pushEntry st e)) - 1 - k →
  js_get (pushEntry st e) (Z.of_nat (length (pushEntry st e)) - 1 - k)
  = js_get (st_history st) (st_historyIndex st + 1 - k).
Proof.
  intros (Hc & Hmax & _) Hk.
  destruct (js_slice0_cursor _ _ Hc) as [Htake Hl].
  unfold cursor_ok, MAX_HISTORY in *. unfold pushEntry. rewrite Htake in *.
  set (pre := take (Z.to_nat (st_historyIndex st + 1)) (st_history st)) in *.
  assert (Hpre : ∀ j, (j < length pre)%nat → pre !! j = st_history st !! j).
  { intros j Hj. unfold pre. apply lookup_take_lt. unfold pre in Hj.
    rewrite length_take in Hj. lia. }
  assert (Hfl : Z.of_nat (length (pre ++ [e])) = st_historyIndex st + 2).
  { rewrite length_app. simpl. lia. }
  rewrite Hfl. unfold MAX_HISTORY. destruct (bool_decide (st_historyIndex st + 2 > 20)) eqn:Hb.
  - apply bool_decide_eq_true in Hb. rewrite length_drop. intros Hpos.
    unfold js_get. rewrite !bool_decide_true by lia. rewrite lookup_drop.
    rewrite lookup_app_l by lia. rewrite Hpre by lia. f_equal. lia.
  - apply bool_decide_eq_false in Hb. intros Hpos.
    unfold js_get. rewrite !bool_decide_true by lia.
    rewrite lookup_app_l by lia. rewrite Hpre by lia. f_equal. lia.
Qed.

Lemma freezeAll_weaken h h' ls vs :
  (∀ k g, h !! k = Some g → h' !! k = Some g) →
  freezeAll h ls = Some vs → freezeAll h' ls = Some vs.
Proof.
  intros Hsub. revert vs. induction ls as [|l ls IH]; intros vs Hvs; [done|].
  apply freezeAll_cons in Hvs as (g & vs' & Hg & Hvs' & ->).
  apply freezeAll_cons. exists g, vs'. split; [by apply Hsub|]. split; [by apply IH|done].
Qed.

(** * A click with the bucket *)

Lemma bucket_click_run w x y L :
  Inv w →
  inside (st_gridSize (ui w)) (x, y) →
  st_tool (ui w) = bucket →
  let li := findIndex (λ l, bool_decide (id l = st_activeLayerId (ui w))) (st_layers (ui w)) in
  js_get (st_layers (ui w)) li = Some L →
  visible L = true →
  ∃ w1 e g g',
    fire (λ st, handleDraw st x y true) w = Ret w1
    ∧ Inv w1
    ∧ document w = Some e
    ∧ st_history (ui w1) = pushEntry (ui w) e
    ∧ st_historyIndex (ui w1) = Z.of_nat (length (st_history (ui w1))) - 1
    ∧ st_layers (ui w1) = st_layers (ui w)
    ∧ st_activeLayerId (ui w1) = st_activeLayerId (ui w)
    ∧ st_selectedColor (ui w1) = st_selectedColor (ui w)
    ∧ st_tool (ui w1) = bucket
    ∧ st_gridSize (ui w1) = st_gridSize (ui w)
    ∧ heap w !! grid L = Some g
    ∧ heap w1 = <[grid L := g']> (heap w ++ [g])
    ∧ cell g' (x, y) = Some (st_selectedColor (ui w))
    ∧ (cell g (x, y) = Some (st_selectedColor (ui w)) → g' = g).
Proof.
  intros HI Hin Htool li HL Hvis. pose proof HI as [Hlive _].
  pose proof HL as [_ HLnat]%js_get_Some.
  destruct (wf_layers_lookup _ _ _ _ _ (proj1 Hlive) HLnat) as (g & Hg & Hsq).
  destruct (bucket_run w x y L g Hlive Hin Htool HL Hvis Hg)
    as (g' & vs & Hvs & E & Hsq' & Hsame & Hrec).
  destruct (handleDraw_inv w x y true HI) as (w1 & E1 & HI1 & _).
  rewrite E in E1. injection E1 as Hw1.
  exists w1, (mkHistoryState vs (st_gridSize (ui w))), g, g'. rewrite E, Hw1.
  split; [done|]. split; [done|]. split; [by apply document_Some|]. rewrite <- Hw1.
  do 7 (split; [done|]). split; [done|]. split; [done|]. split; [|done].
  destruct (proj2 (cell_inside _ g (x, y) Hsq) Hin) as [t Ht].
  destruct (decide (t = st_selectedColor (ui w))) as [->|Hne].
  - by rewrite Hsame.
  - destruct (Hrec t Ht Hne (x, y)) as [[_ Hc]|[Hnot _]]; [done|].
    exfalso. apply Hnot. by apply region_here.
Qed.

(** * The calls of the export *)

Lemma js_get_cons {A} (a : A) (l : list A) (i : Z) :
  js_get (a :: l) i = if bool_decide (i = 0) then Some a else js_get l (i - 1).
Proof.
  unfold js_get. case_bool_decide as Hi; case_bool_decide as H0.
  - subst i. done.
  - rewrite bool_decide_true by lia.
    replace (Z.to_nat i) with (S (Z.to_nat (i - 1))) by lia. done.
  - lia.
  - by rewrite bool_decide_false by lia.
Qed.

Lemma js_get_nil {A} (i : Z) : js_get (@nil A) i = None.
Proof. unfold js_get. by case_bool_decide. Qed.

Lemma paint_app px s ops1 ops2 : paint px s (ops1 ++ ops2) = paint px (paint px s ops1) ops2.
Proof. apply foldl_app. Qed.

Lemma paint_exportRow p px row :
  pixelOf p px →
  ∀ x0 y s acc,
    (paint px (s, acc) (exportRow row x0 y)).2
    = if bool_decide (p.2 = y) && truthy (js_get row (p.1 - x0))
      then js_get row (p.1 - x0) else acc.
Proof.
  intros [Hx Hy]. unfold scale in *.
  induction row as [|color row IH]; intros x0 y s acc.
  - cbn [exportRow]. rewrite js_get_nil. cbn [truthy]. by rewrite andb_false_r.
  - cbn [exportRow]. rewrite paint_app, js_get_cons.
    destruct (truthy (Some color)) eqn:Hc.
    + unfold paint at 2. cbn [foldl paintOp fst snd]. rewrite IH.
      unfold covers, scale. cbn [fst snd].
      replace (p.1 - (x0 + 1)) with (p.1 - x0 - 1) by lia.
      destruct (decide (p.1 - x0 = 0)) as [H0|H0].
      * rewrite (bool_decide_true (p.1 - x0 = 0)) by done. rewrite H0.
        replace (js_get row (0 - 1)) with (@None string)
          by (unfold js_get; by rewrite bool_decide_false by lia).
        rewrite Hc. change (truthy None) with false. rewrite andb_false_r.
        destruct (decide (p.2 = y)) as [Hpy|Hpy].
        -- rewrite (bool_decide_true (p.2 = y)) by done.
           rewrite bool_decide_true by lia. done.
        -- rewrite (bool_decide_false (p.2 = y)) by done.
           rewrite bool_decide_false by lia. done.
      * rewrite (bool_decide_false (p.1 - x0 = 0)) by done.
        rewrite (bool_decide_false (_ ∧ _)) by lia. done.
    + unfold paint at 2. cbn [foldl]. rewrite IH.
      replace (p.1 - (x0 + 1)) with (p.1 - x0 - 1) by lia.
      destruct (decide (p.1 - x0 = 0)) as [H0|H0].
      * rewrite (bool_decide_true (p.1 - x0 = 0)) by done. rewrite H0.
        replace (js_get row (0 - 1)) with (@None string)
          by (unfold js_get; by rewrite bool_decide_false by lia).
        rewrite Hc. change (truthy None) with false. by rewrite !andb_false_r.
      * by rewrite (bool_decide_false (p.1 - x0 = 0)) by done.
Qed.

Lemma paint_exportGrid p px g :
  pixelOf p px →
  ∀ y0 s acc,
    (paint px (s, acc) (exportGrid g y0)).2
    = if truthy (cell g (p.1, p.2 - y0)) then cell g (p.1, p.2 - y0) else acc.
Proof.
  intros Hpx. induction g as [|row g IH]; intros y0 s acc.
  - cbn [exportGrid]. unfold cell. by rewrite js_get_nil.
  - cbn [exportGrid]. rewrite paint_app.
    destruct (paint px (s, acc) (exportRow row 0 y0)) as [s1 acc1] eqn:Erow.
    pose proof (paint_exportRow p px row Hpx 0 y0 s acc) as Hrow.
    rewrite Erow in Hrow. cbn [snd] in Hrow. rewrite Z.sub_0_r in Hrow.
    rewrite IH. unfold cell. cbn [fst snd]. rewrite js_get_cons.
    replace (p.2 - (y0 + 1)) with (p.2 - y0 - 1) by lia.
    destruct (decide (p.2 - y0 = 0)) as [H0|H0].
    + rewrite (bool_decide_true (p.2 - y0 = 0)) by done. rewrite H0.
      replace (js_get g (0 - 1)) with (@None (list string))
        by (unfold js_get; by rewrite bool_decide_false by lia).
      change (truthy None) with false. cbv iota. rewrite Hrow.
      rewrite bool_decide_true by lia. done.
    + rewrite (bool_decide_false (p.2 - y0 = 0)) by done.
      rewrite Hrow. rewrite bool_decide_false by lia. done.
Qed.

Lemma topColor_cons h l ls p acc :
  topColor h (l :: ls) p acc
  = topColor h ls p (if visible l && truthy (layerCell h l p) then layerCell h l p else acc).
Proof. done. Qed.

Lemma exportLayer_run h u l g :
  h !! grid l = Some g →
  exportLayer l (mkWorld h u)
  = Ret (if visible l then GlobalAlpha (opacity l) :: exportGrid g 0 else [], mkWorld h u).
Proof.
  intros Hg. unfold exportLayer. destruct (visible l); [|done]. cbn [negb].
  by erewrite bind_Ret by (apply deref_run; exact Hg).
Qed.

Lemma topColor_passed h ls p acc :
  (∀ j l, ls !! j = Some l → passed h l p) → topColor h ls p acc = acc.
Proof.
  revert acc. induction ls as [|l ls IH]; intros acc Hall; [done|].
  rewrite topColor_cons.
  rewrite IH by (intros j l'; apply (Hall (S j))).
  destruct (Hall 0%nat l eq_refl) as [Hp|Hp]; rewrite Hp; [done|]. cbn [truthy].
  rewrite bool_decide_true by done. by rewrite andb_false_r.
Qed.

Lemma topColor_pick h ls p i l c :
  ls !! i = Some l → visible l = true → layerCell h l p = Some c → c ≠ EmptyString →
  (∀ j l', (i < j)%nat → ls !! j = Some l' → passed h l' p) →
  ∀ acc, topColor h ls p acc = Some c.
Proof.
  revert i. induction ls as [|l0 ls IH]; intros i Hi Hvis Hc Hne Hall acc; [done|].
  rewrite topColor_cons.
  destruct i as [|i].
  - injection Hi as ->. rewrite Hvis, Hc. cbn [truthy andb].
    rewrite bool_decide_false by done. cbn [negb].
    apply topColor_passed. intros j l' Hj. apply (Hall (S j)); [lia|done].
  - apply (IH i); [done..|]. intros j l' Hj Hl'. apply (Hall (S j)); [lia|done].
Qed.

Lemma exportRow_onCanvas n row y :
  0 ≤ y < n →
  ∀ x0, 0 ≤ x0 → x0 + Z.of_nat (length row) ≤ n →
    Forall (onCanvas (n * scale)) (exportRow row x0 y).
Proof.
  intros Hy. unfold scale. induction row as [|color row IH]; intros x0 Hx0 Hlen.
  - by apply Forall_nil.
  - cbn [exportRow]. cbn [length] in Hlen. apply Forall_app. split; [|apply IH; lia].
    destruct (truthy (Some color)); [|by apply Forall_nil].
    apply Forall_cons. split; [done|]. apply Forall_cons. split; [|by apply Forall_nil].
    unfold onCanvas, scale. lia.
Qed.

Lemma exportGrid_onCanvas n g :
  Forall (λ row, Z.of_nat (length row) = n) g →
  ∀ y0, 0 ≤ y0 → y0 + Z.of_nat (length g) ≤ n →
    Forall (onCanvas (n * scale)) (exportGrid g y0).
Proof.
  induction g as [|row g IH]; intros Hrows y0 Hy0 Hlen.
  - by apply Forall_nil.
  - apply Forall_cons in Hrows as [Hrow Hrows]. cbn [exportGrid]. cbn [length] in Hlen.
    apply Forall_app. split; [|apply IH; [done|lia..]].
    apply exportRow_onCanvas; lia.
Qed.

Lemma exportLayers_run h u ls n :
  wf_layers h n ls →
  ∃ drawn,
    traverse exportLayer ls (mkWorld h u) = Ret (drawn, mkWorld h u)
    ∧ (∀ p px s acc, pixelOf p px → (paint px (s, acc) (concat drawn)).2 = topColor h ls p acc)
    ∧ Forall (onCanvas (n * scale)) (concat drawn).
Proof.
  induction ls as [|l ls IH]; intros Hwf.
  - exists []. split; [done|]. split; [done|]. by apply Forall_nil.
  - apply Forall_cons in Hwf as [(g & Hg & [Hlen Hrows]) Hwf].
    destruct (IH Hwf) as (drawn & E & Hpaint & Hon).
    eexists (_ :: drawn). split; [|split].
    { cbn [traverse]. erewrite bind_Ret by (apply exportLayer_run; exact Hg).
      erewrite bind_Ret by exact E. done. }
    + intros p px s acc Hpx. cbn [concat]. rewrite paint_app.
      rewrite topColor_cons.
      destruct (visible l) eqn:Hvis.
      * change (GlobalAlpha (opacity l) :: exportGrid g 0)
          with ([GlobalAlpha (opacity l)] ++ exportGrid g 0).
        rewrite paint_app. unfold paint at 3. cbn [foldl paintOp].
        destruct (paint px (s, acc) (exportGrid g 0)) as [s1 acc1] eqn:Eg.
        pose proof (paint_exportGrid p px g Hpx 0 s acc) as Hgrid.
        rewrite Eg in Hgrid. cbn [snd] in Hgrid. rewrite Z.sub_0_r in Hgrid.
        rewrite (Hpaint p px) by done. cbn [andb].
        assert (Hlc : layerCell h l p = cell g p) by (unfold layerCell; by rewrite Hg).
        rewrite Hlc. destruct p as [p1 p2]. cbn [fst snd] in *. by rewrite Hgrid.
      * unfold paint at 2. cbn [foldl andb]. by apply Hpaint.
    + cbn [concat]. apply Forall_app. split; [|done].
      destruct (visible l); [|by apply Forall_nil].
      apply Forall_cons. split; [done|]. apply exportGrid_onCanvas; [done|lia..].
Qed.

Lemma handleExport_run w :
  wf w →
  ∃ drawn,
    handleExport (ui w) w
    = Ret (FillStyle "#ffffff"
             :: FillRect 0 0 (st_gridSize (ui w) * scale) (st_gridSize (ui w) * scale)
             :: concat drawn, w)
    ∧ (∀ p px s acc, pixelOf p px →
         (paint px (s, acc) (concat drawn)).2 = topColor (heap w) (st_layers (ui w)) p acc)
    ∧ Forall (onCanvas (st_gridSize (ui w) * scale)) (concat drawn).
Proof.
  intros Hwf. destruct (exportLayers_run (heap w) (ui w) _ _ Hwf) as (drawn & E & Hp & Hon).
  exists drawn. split; [|done]. unfold handleExport. destruct w as [h u]. cbn [heap ui] in *.
  by erewrite bind_Ret by exact E.
Qed.

Lemma lastFill_export w drawn p px :
  inside (st_gridSize (ui w)) p → pixelOf p px →
  (∀ p px s acc, pixelOf p px →
     (paint px (s, acc) (concat drawn)).2 = topColor (heap w) (st_layers (ui w)) p acc) →
  lastFill (FillStyle "#ffffff"
              :: FillRect 0 0 (st_gridSize (ui w) * scale) (st_gridSize (ui w) * scale)
              :: concat drawn) px
  = topColor (heap w) (st_layers (ui w)) p (Some "#ffffff").
Proof.
  intros [Hx Hy] [Hpx Hpy] Hpaint. unfold lastFill, paint. cbn [foldl paintOp fst snd].
  unfold covers. unfold scale in *. rewrite bool_decide_true by lia.
  by apply Hpaint.
Qed.

(** * The editor as a whole *)

Ltac sample_entry :=
  split; [unfold sizeOk; simpl; lia|];
  split; [discriminate|];
  split; [apply (bool_decide_unpack _); vm_compute; exact I|];
  simpl; repeat (apply Forall_cons; split; [split; [reflexivity|repeat constructor]|]);
  apply Forall_nil; exact I.

Ltac sample_live :=
  split; [sample_wf|];
  split; [unfold sizeOk; simpl; lia|];
  split; [discriminate|];
  split; apply (bool_decide_unpack _); vm_compute; exact I.

Ltac sample_history :=
  split; [unfold cursor_ok; simpl; lia|];
  split; [simpl; unfold MAX_HISTORY; lia|];
  simpl; repeat (apply Forall_cons; split; [sample_entry|]); apply Forall_nil; exact I.

Ltac sample_Inv := split; [sample_live|sample_history].

(** X1.  In a well-formed editor state (the layers are a non-empty list with
    distinct ids and distinct square grids of the grid size, the history
    holds between 1 and 20 well-formed entries and the cursor points at one
    of them) every handler, for every argument, returns normally (it neither
    throws nor reads a cell that does not exist) and leaves a well-formed
    state.  The only conditions are that [generateId] returns an id no layer
    has and that a new grid size is an array length. *)
Theorem handlers_keep_invariant e w :
  Inv w → allowed e (ui w) → ∃ w', fire (handler e) w = Ret w' ∧ Inv w'.
Proof. apply handler_inv. Qed.

(** Resizing the sample document to 3 by 3 returns and keeps it well-formed. *)
Lemma handlers_keep_invariant_witness :
  ∃ w', fire (handler (ChangeGridSize 3)) (sampleWorld pencil) = Ret w' ∧ Inv w'.
Proof.
  apply (handlers_keep_invariant (ChangeGridSize 3) (sampleWorld pencil)).
  - sample_Inv.
  - unfold allowed, sizeOk. lia.
Defined.

(** X2.  From the mounted component (the initial state after the effect
    that initializes the history) every sequence of events, each allowed in
    the state it meets, runs to the end without an exception and ends in a
    well-formed state. *)
Theorem editor_never_throws w0 es :
  mounted w0 → admissible es w0 → ∃ w', play es w0 = Ret w' ∧ Inv w'.
Proof.
  intros Hm Had. apply play_inv; [|done].
  apply (initHistory_inv initialWorld w0 initialWorld_live eq_refl Hm).
Qed.

(** A session on the mounted editor: a bucket click, a new layer, an undo. *)
Lemma editor_never_throws_witness :
  ∃ w0 w',
    mounted w0
    ∧ play [SelectTool bucket; PointerDown 3 4; PointerUp; AddLayer "layer-2"; UndoClick] w0
      = Ret w'
    ∧ Inv w'.
Proof.
  eexists.
  assert (Hm : mounted (mkWorld (heap initialWorld)
                 (with_historyIndex 0
                    (with_history
                       [mkHistoryState
                          [mkLayer "layer-1" "Layer 1" true 100
                             (replicate 16 (replicate 16 EmptyString))] 16]
                       (ui initialWorld))))) by reflexivity.
  destruct (editor_never_throws _
              [SelectTool bucket; PointerDown 3 4; PointerUp; AddLayer "layer-2"; UndoClick] Hm)
    as (w' & E & HI).
  - split; [exact I|]. intros w1 E1. vm_compute in E1. injection E1 as <-.
    split; [exact I|]. intros w2 E2. vm_compute in E2. injection E2 as <-.
    split; [exact I|]. intros w3 E3. vm_compute in E3. injection E3 as <-.
    split; [apply (bool_decide_unpack _); vm_compute; exact I|].
    intros w4 _. split; [exact I|]. intros. exact I.
  - exists w'. split; [exact Hm|]. split; [exact E|exact HI].
Defined.

(** * History, handler by handler *)

(** X3.  A handler that ends in [addToHistory] (pointer up while drawing,
    add, delete with more than one layer, toggle, resize to another size)
    leaves the history as the entries up to the old cursor followed by a
    snapshot of the document it leaves, with the cursor on that snapshot:
    what is shown is what the cursor entry holds, and a redo right after it
    does nothing, since the entries after the old cursor are gone. *)
Theorem commit_pushes_live_document e w :
  Inv w → allowed e (ui w) → committing e (ui w) →
  ∃ w', fire (handler e) w = Ret w'
        ∧ committedFrom w w' ∧ synced w' ∧ fire redo w' = Ret w'.
Proof.
  intros HI Hal Hc. destruct (handler_commits e w HI Hal Hc) as (w' & E & Hfrom).
  exists w'. split; [done|]. split; [done|]. split; [by eapply committedFrom_synced|].
  destruct Hfrom as (_ & _ & _ & Hi). apply redo_last. lia.
Qed.

(** Hiding the layer of the sample document. *)
Lemma commit_pushes_live_document_witness :
  ∃ w', fire (handler (ToggleLayer "layer-1")) (sampleWorld pencil) = Ret w'
        ∧ synced w' ∧ fire redo w' = Ret w'.
Proof.
  destruct (commit_pushes_live_document (ToggleLayer "layer-1") (sampleWorld pencil))
    as (w' & E & _ & Hs & Hr).
  - sample_Inv.
  - exact I.
  - exact I.
  - exists w'. split; [exact E|]. split; [exact Hs|exact Hr].
Defined.

(** X4.  An undo right after such a handler shows the entry the cursor was
    on before the handler ran; when that entry was the document shown (no
    uncommitted change), the undo takes the handler back: the document is
    again what it was. *)
Theorem undo_reverts_commit e w :
  Inv w → allowed e (ui w) → committing e (ui w) →
  ∃ w1 w2,
    fire (handler e) w = Ret w1
    ∧ fire undo w1 = Ret w2
    ∧ document w2 = js_get (st_history (ui w)) (st_historyIndex (ui w))
    ∧ (synced w → document w2 = document w).
Proof.
  intros HI Hal Hc. destruct (handler_commits e w HI Hal Hc) as (w1 & E & Hfrom).
  destruct (handler_inv e w HI Hal) as (w1' & E' & HI1).
  assert (w1' = w1) as -> by congruence.
  destruct (undo_after_commit w w1 HI HI1 Hfrom) as (w2 & E2 & Hdoc & _).
  exists w1, w2. split; [done|]. split; [done|]. split; [done|].
  intros Hs. by rewrite Hdoc, Hs.
Qed.

(** Adding a layer to the sample document and undoing it. *)
Lemma undo_reverts_commit_witness :
  ∃ w1 w2,
    fire (handler (AddLayer "layer-2")) (sampleWorld pencil) = Ret w1
    ∧ fire undo w1 = Ret w2
    ∧ document w2 = Some sampleEntry.
Proof.
  destruct (undo_reverts_commit (AddLayer "layer-2") (sampleWorld pencil))
    as (w1 & w2 & E1 & E2 & Hd & _).
  - sample_Inv.
  - apply (bool_decide_unpack _). vm_compute. exact I.
  - exact I.
  - exists w1, w2. split; [exact E1|]. split; [exact E2|]. rewrite Hd. reflexivity.
Defined.

(** X5.  When the document shown is the entry at the cursor, [k] undos
    followed by [k] redos, for any [k] up to the cursor, lead back to the
    same document, the same cursor and the same history. *)
Theorem undo_redo_many k w :
  Inv w → synced w → Z.of_nat k ≤ st_historyIndex (ui w) →
  ∃ wk w',
    fireN undo k w = Ret wk
    ∧ fireN redo k wk = Ret w'
    ∧ st_historyIndex (ui wk) = st_historyIndex (ui w) - Z.of_nat k
    ∧ document w' = document w
    ∧ st_historyIndex (ui w') = st_historyIndex (ui w)
    ∧ st_history (ui w') = st_history (ui w).
Proof.
  intros HI Hs Hk. pose proof HI as [_ (Hc & _)]. unfold cursor_ok in Hc.
  destruct (undo_steps k w HI Hk) as (wk & Ek & HIk & Hhk & Hik & _ & _).
  destruct (redo_steps k wk HIk) as (w' & E' & _ & Hh' & Hi' & _ & Hd'); [rewrite Hhk; lia|].
  exists wk, w'. split; [done|]. split; [done|]. split; [done|].
  split; [|split; [lia|congruence]].
  destruct k as [|k]; [by injection Ek as <-; injection E' as <-|].
  rewrite Hd' by lia. rewrite Hs, Hhk. f_equal. lia.
Qed.

(** One undo and one redo after a commit. *)
Lemma undo_redo_many_witness :
  ∃ wk w',
    fireN undo 1 afterCommit = Ret wk
    ∧ fireN redo 1 wk = Ret w'
    ∧ document w' = document afterCommit.
Proof.
  destruct (undo_redo_many 1 afterCommit) as (wk & w' & E1 & E2 & _ & Hd & _).
  - sample_Inv.
  - reflexivity.
  - simpl. lia.
  - exists wk, w'. split; [exact E1|]. split; [exact E2|exact Hd].
Defined.

(** X6.  The other way round: [k] redos followed by [k] undos, for any [k]
    up to the number of entries after the cursor, lead back to the same
    document, cursor and history. *)
Theorem redo_undo_many k w :
  Inv w → synced w →
  st_historyIndex (ui w) + Z.of_nat k ≤ Z.of_nat (length (st_history (ui w))) - 1 →
  ∃ wk w',
    fireN redo k w = Ret wk
    ∧ fireN undo k wk = Ret w'
    ∧ st_historyIndex (ui wk) = st_historyIndex (ui w) + Z.of_nat k
    ∧ document w' = document w
    ∧ st_historyIndex (ui w') = st_historyIndex (ui w)
    ∧ st_history (ui w') = st_history (ui w).
Proof.
  intros HI Hs Hk. pose proof HI as [_ (Hc & _)]. unfold cursor_ok in Hc.
  destruct (redo_steps k w HI Hk) as (wk & Ek & HIk & Hhk & Hik & _ & _).
  destruct (undo_steps k wk HIk) as (w' & E' & _ & Hh' & Hi' & _ & Hd'); [lia|].
  exists wk, w'. split; [done|]. split; [done|]. split; [done|].
  split; [|split; [lia|congruence]].
  destruct k as [|k]; [by injection Ek as <-; injection E' as <-|].
  rewrite Hd' by lia. rewrite Hs, Hhk. f_equal. lia.
Qed.

(** One redo and one undo with the cursor on the first of two entries. *)
Lemma redo_undo_many_witness :
  ∃ wk w',
    fireN redo 1 (lift (with_historyIndex 0) afterCommit) = Ret wk
    ∧ fireN undo 1 wk = Ret w'
    ∧ document w' = document afterCommit.
Proof.
  destruct (redo_undo_many 1 (lift (with_historyIndex 0) afterCommit))
    as (wk & w' & E1 & E2 & _ & Hd & _).
  - sample_Inv.
  - reflexivity.
  - simpl. lia.
  - exists wk, w'. split; [exact E1|]. split; [exact E2|exact Hd].
Defined.

(** X7.  [updateLayerOpacity] changes the document shown but not the
    history: when a layer with the given id has another opacity the document
    is no longer the entry at the cursor, and an undo followed by a redo
    brings back the document as it was before the opacity was set. *)
Theorem opacity_not_in_history i v w :
  Inv w → synced w → 0 < st_historyIndex (ui w) →
  ∃ w1 w2 w3,
    fire (λ st, updateLayerOpacity st i v) w = Ret w1
    ∧ st_history (ui w1) = st_history (ui w)
    ∧ st_historyIndex (ui w1) = st_historyIndex (ui w)
    ∧ ((∃ l, l ∈ st_layers (ui w) ∧ id l = i ∧ opacity l ≠ v) → ¬ synced w1)
    ∧ fire undo w1 = Ret w2
    ∧ fire redo w2 = Ret w3
    ∧ document w3 = document w.
Proof.
  intros HI Hs Hidx.
  destruct (handler_inv (SetOpacity i v) w HI I) as (w1 & E1 & HI1).
  cbn [handler] in E1. pose proof E1 as E1'. rewrite opacity_run in E1'.
  injection E1' as Hw1.
  assert (Hh1 : st_history (ui w1) = st_history (ui w)) by by rewrite <- Hw1.
  assert (Hi1 : st_historyIndex (ui w1) = st_historyIndex (ui w)) by by rewrite <- Hw1.
  destruct (undo_inv w1 HI1) as (w2 & E2 & HI2 & Hh2 & Hi2 & _ & _ & _).
  destruct (redo_inv w2 HI2) as (w3 & E3 & _ & _ & _ & _ & Hmove & _).
  pose proof HI as [_ (Hc & _)]. unfold cursor_ok in Hc.
  destruct Hmove as [_ Hd3]; [rewrite Hh2, Hh1; lia|].
  exists w1, w2, w3. split; [done|]. split; [done|]. split; [done|].
  split; [|split; [done|split; [done|]]].
  - intros (l & Hl & Hid & Hop) Hs1. unfold synced in Hs1. rewrite Hh1, Hi1, <- Hs in Hs1.
    destruct HI as [Hlive _].
    destruct (freezeAll_wf _ _ _ (proj1 Hlive)) as [vs Hvs].
    rewrite (document_Some w vs Hvs) in Hs1.
    apply document_inv in Hs1 as [Hvs1 _]. cbn [layers] in Hvs1.
    apply freezeAll_opacity in Hvs, Hvs1. rewrite Hvs in Hvs1. rewrite <- Hw1 in Hvs1.
    simpl in Hvs1. apply list_elem_of_lookup in Hl as [j Hj].
    apply (f_equal (λ os, os !! j)) in Hvs1.
    rewrite !list_lookup_fmap, Hj in Hvs1. simpl in Hvs1.
    rewrite bool_decide_true in Hvs1 by done. simpl in Hvs1. congruence.
  - rewrite Hd3, Hs, Hh2, Hh1. f_equal. lia.
Qed.

(** An opacity of 40 on the sample layer is lost by undo and redo. *)
Lemma opacity_not_in_history_witness :
  ∃ w1 w2 w3,
    fire (λ st, updateLayerOpacity st "layer-1" 40) afterCommit = Ret w1
    ∧ ¬ synced w1
    ∧ fire undo w1 = Ret w2
    ∧ fire redo w2 = Ret w3
    ∧ document w3 = document afterCommit.
Proof.
  destruct (opacity_not_in_history "layer-1" 40 afterCommit)
    as (w1 & w2 & w3 & E1 & _ & _ & Hns & E2 & E3 & Hd).
  - sample_Inv.
  - reflexivity.
  - simpl. lia.
  - exists w1, w2, w3. split; [exact E1|]. split; [|split; [exact E2|split; [exact E3|exact Hd]]].
    apply Hns. exists sampleLayer. split; [apply list_elem_of_here|].
    split; [reflexivity|]. simpl. lia.
Defined.

(** X8.  The effect that initializes the history returns on every
    well-formed document; run on an empty history it leaves exactly one
    entry, a snapshot of the document, with the cursor on it, and run again
    it changes nothing. *)
Theorem initHistory_once w :
  live_ok (heap w) (ui w) → st_history (ui w) = [] →
  ∃ w1 e,
    fire initHistory w = Ret w1
    ∧ document w = Some e
    ∧ st_history (ui w1) = [e] ∧ st_historyIndex (ui w1) = 0
    ∧ document w1 = Some e
    ∧ Inv w1
    ∧ fire initHistory w1 = Ret w1.
Proof.
  intros Hlive Hnil. destruct (initHistory_run w Hlive) as (vs & Hvs & E).
  rewrite Hnil in E. rewrite bool_decide_true in E by done.
  destruct (initHistory_inv w _ Hlive Hnil E) as (HI & Hs & _ & e & Hd & Hh & Hi).
  eexists _, e. split; [exact E|]. split; [done|]. split; [done|]. split; [done|].
  split; [|split; [done|]].
  - unfold synced in Hs. rewrite Hs, Hi, Hh. done.
  - destruct (initHistory_run _ (proj1 HI)) as (vs' & _ & E'). rewrite E'.
    rewrite Hh. by rewrite bool_decide_false.
Qed.

(** The effect on the sample document with an empty history. *)
Lemma initHistory_once_witness :
  ∃ w1,
    fire initHistory beforeInit = Ret w1
    ∧ st_history (ui w1) = [sampleEntry]
    ∧ fire initHistory w1 = Ret w1.
Proof.
  destruct (initHistory_once beforeInit) as (w1 & e & E & Hd & Hh & _ & _ & _ & E').
  - sample_live.
  - reflexivity.
  - exists w1. split; [exact E|]. split; [|exact E'].
    rewrite Hh. vm_compute in Hd. injection Hd as <-. reflexivity.
Defined.

(** * Layers and the active layer *)

(** X9.  [addLayer] appends one layer and keeps the others as they are: the
    new layer has the id that [generateId] returned, the name [Layer n+1]
    for [n] layers before, is visible with opacity 100, has a grid object
    that no other layer refers to, empty in every cell, and becomes the
    active layer. *)
Theorem addLayer_appends newId w :
  Inv w → newId ∉ id <$> st_layers (ui w) →
  ∃ w' L,
    fire (λ st, addLayer st newId) w = Ret w'
    ∧ st_layers (ui w') = st_layers (ui w) ++ [L]
    ∧ id L = newId
    ∧ name L = "Layer " +:+ pretty (length (st_layers (ui w)) + 1)%nat
    ∧ visible L = true ∧ opacity L = 100
    ∧ (grid L ∉ grid <$> st_layers (ui w))
    ∧ (∀ q, inside (st_gridSize (ui w)) q → layerCell (heap w') L q = Some EmptyString)
    ∧ (∀ l q, l ∈ st_layers (ui w) → layerCell (heap w') l q = layerCell (heap w) l q)
    ∧ st_activeLayerId (ui w') = newId
    ∧ st_gridSize (ui w') = st_gridSize (ui w).
Proof.
  intros [Hlive _] Hfresh. pose proof Hlive as (Hwf & Hsz & _).
  destruct (addLayer_run w newId Hlive Hfresh) as (vs & _ & _ & ->).
  eexists _, _. split; [done|]. split; [done|]. do 4 (split; [done|]).
  split; [|split; [|split; [|done]]].
  - intros Hin. apply (wf_layers_alloc _ _ _ _ Hwf) in Hin. simpl in Hin. lia.
  - intros q Hq. unfold layerCell. simpl.
    rewrite lookup_app_r by lia. rewrite Nat.sub_diag. simpl.
    apply cell_empty; [unfold sizeOk in Hsz; lia|done].
  - intros l q Hl. simpl. apply layerCell_weaken; [intros; by apply heap_grow|].
    apply list_elem_of_lookup in Hl as [j Hj].
    destruct (wf_layers_lookup _ _ _ _ _ Hwf Hj) as (g & -> & _). by eexists.
Qed.

(** A second layer on the sample document. *)
Lemma addLayer_appends_witness :
  ∃ w' L,
    fire (λ st, addLayer st "layer-2") (sampleWorld pencil) = Ret w'
    ∧ st_layers (ui w') = [sampleLayer; L]
    ∧ name L = "Layer 2"
    ∧ layerCell (heap w') L (0, 0) = Some EmptyString.
Proof.
  destruct (addLayer_appends "layer-2" (sampleWorld pencil))
    as (w' & L & E & Hls & _ & Hn & _ & _ & _ & Hempty & _).
  - sample_Inv.
  - apply (bool_decide_unpack _). vm_compute. exact I.
  - exists w', L. split; [exact E|]. split; [exact Hls|]. split; [exact Hn|].
    apply Hempty. sample_inside.
Defined.

(** X10.  After [addLayer] followed by an undo the active layer id is still
    the id of the layer that the undo removed.  No tool does anything then,
    at any cell: [handleDraw] returns at once, and it stays so until a layer
    is selected or added. *)
Theorem undo_addLayer_dangling newId w x y isClick :
  Inv w → synced w → newId ∉ id <$> st_layers (ui w) →
  ∃ w1 w2,
    fire (λ st, addLayer st newId) w = Ret w1
    ∧ fire undo w1 = Ret w2
    ∧ document w2 = document w
    ∧ st_activeLayerId (ui w2) = newId
    ∧ ¬ active_ok (ui w2)
    ∧ fire (λ st, handleDraw st x y isClick) w2 = Ret w2.
Proof.
  intros HI Hs Hfresh.
  destruct (handler_commits (AddLayer newId) w HI Hfresh I) as (w1 & E1 & Hfrom).
  destruct (handler_inv (AddLayer newId) w HI Hfresh) as (w1' & E1' & HI1).
  assert (w1' = w1) as -> by congruence. cbn [handler] in E1.
  destruct (undo_after_commit w w1 HI HI1 Hfrom) as (w2 & E2 & Hdoc & _).
  destruct (undo_inv w1 HI1) as (w2' & E2' & HI2 & _ & _ & Ha2 & _).
  assert (w2' = w2) as -> by congruence.
  assert (Ha1 : st_activeLayerId (ui w1) = newId).
  { destruct (addLayer_run w newId (proj1 HI) Hfresh) as (vs & _ & _ & E).
    rewrite E in E1. by injection E1 as <-. }
  rewrite <- Hs in Hdoc.
  assert (Hdangling : ¬ active_ok (ui w2)).
  { unfold active_ok. rewrite Ha2, Ha1.
    by rewrite (document_ids w w2 HI Hdoc (live_ok_wf _ (proj1 HI2))). }
  exists w1, w2. split; [done|]. split; [done|]. split; [done|].
  split; [congruence|]. split; [done|]. by apply handleDraw_dangling.
Qed.

(** After adding a second layer and undoing, a click with the pencil does nothing. *)
Lemma undo_addLayer_dangling_witness :
  ∃ w1 w2,
    fire (λ st, addLayer st "layer-2") (sampleWorld pencil) = Ret w1
    ∧ fire undo w1 = Ret w2
    ∧ st_activeLayerId (ui w2) = "layer-2"
    ∧ fire (λ st, handleDraw st 0 0 true) w2 = Ret w2.
Proof.
  destruct (undo_addLayer_dangling "layer-2" (sampleWorld pencil) 0 0 true)
    as (w1 & w2 & E1 & E2 & _ & Ha & _ & Hd).
  - sample_Inv.
  - reflexivity.
  - apply (bool_decide_unpack _). vm_compute. exact I.
  - exists w1, w2. split; [exact E1|]. split; [exact E2|]. split; [exact Ha|exact Hd].
Defined.

(** X11.  Apart from undo and redo, no handler takes the active layer away:
    when the active layer id is the id of a layer before an event it is so
    after it.  In particular [deleteLayer] of the active layer makes a
    remaining layer active, and painting, resizing, toggling and setting an
    opacity keep the ids of the layers. *)
Theorem active_layer_kept e w :
  Inv w → allowed e (ui w) → active_ok (ui w) → keepsActive e (ui w) →
  ∃ w', fire (handler e) w = Ret w' ∧ active_ok (ui w').
Proof. apply handler_active. Qed.

(** Deleting the active bottom layer of two makes the other one active. *)
Lemma active_layer_kept_witness :
  ∃ w', fire (handler (DeleteLayer "layer-1")) (twoLayers "layer-1" pencil) = Ret w'
        ∧ active_ok (ui w').
Proof.
  apply (active_layer_kept (DeleteLayer "layer-1") (twoLayers "layer-1" pencil)).
  - sample_Inv.
  - exact I.
  - apply list_elem_of_here.
  - exact I.
Defined.

(** X12.  Toggling the visibility of a layer twice gives back the layers,
    the grid objects and the document as they were; the history has the two
    snapshots in between. *)
Theorem toggle_twice i w :
  live_ok (heap w) (ui w) →
  ∃ w1 w2,
    fire (λ st, toggleLayerVisibility st i) w = Ret w1
    ∧ fire (λ st, toggleLayerVisibility st i) w1 = Ret w2
    ∧ st_layers (ui w2) = st_layers (ui w)
    ∧ heap w2 = heap w
    ∧ document w2 = document w.
Proof.
  intros Hlive. destruct (toggle_run w i Hlive) as (vs1 & _ & Hlive1 & E1).
  set (f := λ l : Layer loc,
              if bool_decide (id l = i)
              then mkLayer (id l) (name l) (negb (visible l)) (opacity l) (grid l) else l) in *.
  set (w1 := mkWorld (heap w)
               (commitUi (ui w) (mkHistoryState vs1 (st_gridSize (ui w)))
                  (with_layers (f <$> st_layers (ui w)) (ui w)))) in *.
  assert (Hl1 : live_ok (heap w1) (ui w1)) by (by eapply live_ok_fields; [..|exact Hlive1]).
  destruct (toggle_run w1 i Hl1) as (vs2 & _ & _ & E2). fold f in E2.
  assert (Hls : f <$> st_layers (ui w1) = st_layers (ui w)) by apply toggle_toggle.
  rewrite Hls in E2.
  exists w1. eexists. split; [exact E1|]. split; [exact E2|].
  split; [done|]. split; [done|]. done.
Qed.

(** Hiding and showing the sample layer. *)
Lemma toggle_twice_witness :
  ∃ w1 w2,
    fire (λ st, toggleLayerVisibility st "layer-1") (sampleWorld pencil) = Ret w1
    ∧ fire (λ st, toggleLayerVisibility st "layer-1") w1 = Ret w2
    ∧ st_layers (ui w2) = [sampleLayer].
Proof.
  destruct (toggle_twice "layer-1" (sampleWorld pencil)) as (w1 & w2 & E1 & E2 & Hls & _).
  - sample_live.
  - exists w1, w2. split; [exact E1|]. split; [exact E2|exact Hls].
Defined.

(** X13.  Resizing to another size and then back to the old one returns;
    every layer keeps its fields, a cell that lies inside the other size
    keeps its colour and a cell outside it comes back empty.  Going to a
    larger size and back therefore restores the document, while going to a
    smaller size and back keeps only the top-left part. *)
Theorem resize_and_back size w :
  Inv w → sizeOk size → size ≠ st_gridSize (ui w) →
  ∃ w1 w2,
    fire (λ st, changeGridSize st size) w = Ret w1
    ∧ fire (λ st, changeGridSize st (st_gridSize (ui w))) w1 = Ret w2
    ∧ st_gridSize (ui w2) = st_gridSize (ui w)
    ∧ Forall2 (λ l l2,
        id l2 = id l ∧ name l2 = name l ∧ visible l2 = visible l ∧ opacity l2 = opacity l
        ∧ ∀ q, inside (st_gridSize (ui w)) q →
            layerCell (heap w2) l2 q
            = if bool_decide (inside size q) then layerCell (heap w) l q else Some EmptyString)
        (st_layers (ui w)) (st_layers (ui w2))
    ∧ (st_gridSize (ui w) < size → document w2 = document w).
Proof.
  intros HI Hsize Hne.
  destruct (resize_and_back_run size w HI Hsize Hne) as (w1 & w2 & E1 & E2 & Hgs & Hwf2 & Hrel).
  exists w1, w2. split; [done|]. split; [done|]. split; [done|]. split; [done|].
  intros Hlt. unfold document. rewrite Hgs.
  rewrite (freezeAll_cells (heap w) (heap w2) (st_gridSize (ui w))
             (st_layers (ui w)) (st_layers (ui w2))); [done|apply HI|by rewrite <- Hgs|].
  eapply Forall2_impl; [exact Hrel|]. intros l l2 (Hi & Hn & Hv & Ho & Hc).
  do 4 (split; [done|]). intros q Hq. rewrite (Hc q Hq).
  rewrite bool_decide_true; [done|]. destruct Hq. split; lia.
Qed.

(** The sample document resized to 3 by 3 and back to 2 by 2. *)
Lemma resize_and_back_witness :
  ∃ w1 w2,
    fire (λ st, changeGridSize st 3) (sampleWorld pencil) = Ret w1
    ∧ fire (λ st, changeGridSize st 2) w1 = Ret w2
    ∧ document w2 = document (sampleWorld pencil).
Proof.
  destruct (resize_and_back 3 (sampleWorld pencil)) as (w1 & w2 & E1 & E2 & _ & _ & Hd).
  - sample_Inv.
  - unfold sizeOk. lia.
  - discriminate.
  - exists w1, w2. split; [exact E1|]. split; [exact E2|]. apply Hd. simpl. lia.
Defined.

(** X14.  [changeGridSize] with a size that is no array length (negative, or
    2^32 and more) and differs from the grid size throws the [RangeError] of
    [Array(size)] before any setter is called: the bound on the size is a
    real condition of the handlers. *)
Theorem changeGridSize_bad_size size w :
  ¬ sizeOk size → size ≠ st_gridSize (ui w) → st_layers (ui w) ≠ [] →
  fire (λ st, changeGridSize st size) w = Throw RangeError.
Proof.
  intros Hbad Hne Hls. unfold fire, changeGridSize. rewrite bool_decide_false by done.
  destruct (st_layers (ui w)) as [|l ls]; [done|].
  unfold bind at 1. cbn [traverse]. unfold bind at 1. unfold resizeLayer. unfold bind at 1.
  unfold createEmptyGrid. by rewrite bool_decide_false.
Qed.

(** A grid size of -1. *)
Lemma changeGridSize_bad_size_witness :
  fire (λ st, changeGridSize st (-1)) (sampleWorld pencil) = Throw RangeError.
Proof.
  apply (changeGridSize_bad_size (-1) (sampleWorld pencil)).
  - unfold sizeOk. lia.
  - discriminate.
  - discriminate.
Defined.

(** * Strokes and clicks *)

(** X15.  A pencil or eraser stroke on a cell of the visible active layer
    writes into a fresh copy of the grid: no grid object that existed before
    changes, so no other reference to the old grid sees the stroke.  The
    copy differs from the old grid in the one cell at most, the active layer
    refers to it afterwards (when the cell already had the colour the layers
    stay as they are), and [handleDraw] adds nothing to the history. *)
Theorem pencil_paints_a_copy w x y isClick L g :
  Inv w →
  inside (st_gridSize (ui w)) (x, y) →
  st_tool (ui w) = pencil ∨ st_tool (ui w) = eraser →
  let li := findIndex (λ l, bool_decide (id l = st_activeLayerId (ui w))) (st_layers (ui w)) in
  js_get (st_layers (ui w)) li = Some L →
  visible L = true →
  heap w !! grid L = Some g →
  let c := if is_eraser (st_tool (ui w)) then EmptyString else st_selectedColor (ui w) in
  ∃ w1 g1,
    fire (λ st, handleDraw st x y isClick) w = Ret w1
    ∧ heap w1 = heap w ++ [g1]
    ∧ square (st_gridSize (ui w)) g1
    ∧ (∀ q, cell g1 q = if bool_decide (q = (x, y)) then Some c else cell g q)
    ∧ sameHistory w w1
    ∧ st_layers (ui w1)
      = if bool_decide (cell g (x, y) = Some c) then st_layers (ui w)
        else <[Z.to_nat li := mkLayer (id L) (name L) (visible L) (opacity L)
                                      (length (heap w))]> (st_layers (ui w)).
Proof.
  intros [Hlive _] Hin Htool li HL Hvis Hg c.
  pose proof HL as [_ HLnat]%js_get_Some.
  destruct (wf_layers_lookup _ _ _ _ _ (proj1 Hlive) HLnat) as (g0 & Hg0 & Hsq).
  assert (g0 = g) as -> by congruence.
  rewrite (pencil_run w x y isClick L g Hin Htool HL Hvis Hg Hsq). fold li c.
  destruct (decide (cell g (x, y) = Some c)) as [Hsame|Hdiff].
  - rewrite !(bool_decide_true (cell g (x, y) = Some c)) by done.
    eexists _, g. split; [done|]. split; [done|]. split; [done|]. split; [|done].
    intros q. case_bool_decide as Hq; [by subst q|done].
  - rewrite !(bool_decide_false (cell g (x, y) = Some c)) by done.
    eexists _, _. split; [done|]. split; [done|]. split; [by apply square_paintGrid|].
    split; [|done]. intros q. by apply (cell_paintGrid (st_gridSize (ui w))).
Qed.

(** Painting the empty cell of the sample grid yellow. *)
Lemma pencil_paints_a_copy_witness :
  ∃ w1 g1,
    fire (λ st, handleDraw st 1 1 false) (sampleWorld pencil) = Ret w1
    ∧ heap w1 = [sampleGrid; g1]
    ∧ cell g1 (1, 1) = Some yellow
    ∧ cell g1 (0, 0) = Some green.
Proof.
  destruct (pencil_paints_a_copy (sampleWorld pencil) 1 1 false sampleLayer sampleGrid)
    as (w1 & g1 & E & Hh & _ & Hc & _).
  - sample_Inv.
  - sample_inside.
  - left. reflexivity.
  - reflexivity.
  - reflexivity.
  - reflexivity.
  - exists w1, g1. split; [exact E|]. split; [exact Hh|].
    split; rewrite Hc; reflexivity.
Defined.

(** X16.  A gesture with a tool other than the bucket (pointer down on a
    cell, the pointer dragged over any cells, pointer up) always returns and
    adds exactly one entry to the history: the document as the gesture left
    it, appended after the entry the cursor was on.  The cursor is on it and
    drawing is switched off. *)
Theorem stroke_commits_once x y ps w :
  Inv w → st_tool (ui w) ≠ bucket →
  ∃ w', play (PointerDown x y :: drag ps ++ [PointerUp]) w = Ret w'
        ∧ committedFrom w w' ∧ synced w' ∧ st_isDrawing (ui w') = false.
Proof.
  intros HI Htool.
  destruct (pointerDown_inv x y w HI) as (w1 & E1 & HI1 & Hd1 & Hs1).
  destruct (drag_inv ps w1 HI1 Hd1) as (w2 & E2 & HI2 & Hd2 & Hs2).
  destruct (pointerUp_run w2 (proj1 HI2)) as (vs & Hvs & E3). rewrite Hd2 in E3.
  eexists. split; [|split; [|split]].
  - rewrite play_cons, E1, play_app, E2, play_cons. cbn [handler]. rewrite E3. done.
  - apply (committedFrom_ext w w2).
    + destruct (Hs1 Htool), Hs2. split; congruence.
    + exact (committedFrom_commit w2 (heap w2) (with_isDrawing false (ui w2)) vs Hvs).
  - apply (committedFrom_synced w2).
    exact (committedFrom_commit w2 (heap w2) (with_isDrawing false (ui w2)) vs Hvs).
  - done.
Qed.

(** A stroke over three cells of the sample document. *)
Lemma stroke_commits_once_witness :
  ∃ w', play (PointerDown 1 1 :: drag [(0, 1); (0, 0)] ++ [PointerUp]) (sampleWorld pencil)
        = Ret w'
        ∧ synced w' ∧ st_isDrawing (ui w') = false.
Proof.
  destruct (stroke_commits_once 1 1 [(0, 1); (0, 0)] (sampleWorld pencil))
    as (w' & E & _ & Hs & Hd).
  - sample_Inv.
  - discriminate.
  - exists w'. split; [exact E|]. split; [exact Hs|exact Hd].
Defined.

(** X17.  A click with the bucket on a cell of the visible active layer
    (pointer down, pointer up) adds two entries to the history: the document
    before the fill, then the filled document.  When the document shown was
    the entry at the cursor, the first undo after the click shows the
    document before the fill and the second undo shows that same document
    again: it takes two undos to get past a bucket click. *)
Theorem bucket_click_takes_two_undos x y w L :
  Inv w → synced w →
  inside (st_gridSize (ui w)) (x, y) →
  st_tool (ui w) = bucket →
  let li := findIndex (λ l, bool_decide (id l = st_activeLayerId (ui w))) (st_layers (ui w)) in
  js_get (st_layers (ui w)) li = Some L →
  visible L = true →
  ∃ w2 w3 w4,
    play [PointerDown x y; PointerUp] w = Ret w2
    ∧ synced w2
    ∧ fire undo w2 = Ret w3
    ∧ document w3 = document w
    ∧ fire undo w3 = Ret w4
    ∧ document w4 = document w
    ∧ st_historyIndex (ui w4) = st_historyIndex (ui w2) - 2.
Proof.
  intros HI Hs Hin Htool li HL Hvis. pose proof HI as [_ Hhist].
  destruct (bucket_click_run w x y L HI Hin Htool HL Hvis)
    as (w0 & e & g & g' & E0 & _ & Hdoc & Hh0 & Hi0 & _).
  destruct (handler_inv (PointerDown x y) w HI I) as (w1 & E1 & HI1).
  pose proof E1 as E1'. cbn [handler] in E1'.
  rewrite handlePointerDown_run, E0 in E1'. injection E1' as Hw1.
  assert (Hh1 : st_history (ui w1) = pushEntry (ui w) e) by by rewrite <- Hw1.
  assert (Hi1 : st_historyIndex (ui w1) = Z.of_nat (length (st_history (ui w1))) - 1)
    by by rewrite <- Hw1.
  assert (Hd1 : st_isDrawing (ui w1) = true) by by rewrite <- Hw1.
  destruct (handler_commits PointerUp w1 HI1 I Hd1) as (w2 & E2 & Hfrom).
  destruct (handler_inv PointerUp w1 HI1 I) as (w2' & E2' & HI2).
  assert (w2' = w2) as -> by congruence.
  pose proof Hfrom as (e2 & _ & Hh2 & Hi2).
  destruct (undo_inv w2 HI2) as (w3 & E3 & HI3 & Hh3 & Hi3 & _ & Hmove3 & _).
  destruct (undo_inv w3 HI3) as (w4 & E4 & _ & _ & Hi4 & _ & Hmove4 & _).
  pose proof (pushEntry_length (ui w) e Hhist) as Hlen1. rewrite <- Hh1 in Hlen1.
  pose proof (pushEntry_length (ui w1) e2 (proj2 HI1)) as Hlen2. rewrite <- Hh2 in Hlen2.
  pose proof Hhist as (Hc & _). unfold cursor_ok, MAX_HISTORY in *.
  destruct Hmove3 as [_ Hd3]; [lia|]. destruct Hmove4 as [_ Hd4]; [lia|].
  assert (Hprev : js_get (st_history (ui w1)) (st_historyIndex (ui w1)) = document w).
  { rewrite Hi1, Hh1, Hdoc. apply commit_last. }
  exists w2, w3, w4. split; [|split; [by eapply committedFrom_synced|]].
  { rewrite play_cons, E1, play_cons, E2. done. }
  split; [done|]. split; [|split; [done|split; [|lia]]].
  - rewrite Hd3, Hi2, Hh2.
    rewrite (pushEntry_back (ui w1) e2 1 (proj2 HI1)); [|lia|rewrite <- Hh2; lia].
    rewrite <- Hprev. f_equal. lia.
  - rewrite Hd4, Hh3, Hi3, Hi2, Hh2.
    replace (Z.max 0 (Z.of_nat (length (pushEntry (ui w1) e2)) - 1 - 1) - 1)
      with (Z.of_nat (length (pushEntry (ui w1) e2)) - 1 - 2) by (rewrite <- Hh2; lia).
    rewrite (pushEntry_back (ui w1) e2 2 (proj2 HI1)); [|lia|rewrite <- Hh2; lia].
    rewrite Hi1, Hh1.
    replace (Z.of_nat (length (pushEntry (ui w) e)) - 1 + 1 - 2)
      with (Z.of_nat (length (pushEntry (ui w) e)) - 2) by lia.
    rewrite (pushEntry_prev (ui w) e Hhist). by rewrite <- Hs.
Qed.

(** A bucket click on the sample document: the cursor is at 2 and two undos show the sample entry. *)
Lemma bucket_click_takes_two_undos_witness :
  ∃ w2 w3 w4,
    play [PointerDown 0 0; PointerUp] (sampleWorld bucket) = Ret w2
    ∧ st_historyIndex (ui w2) = 2
    ∧ fire undo w2 = Ret w3
    ∧ document w3 = Some sampleEntry
    ∧ fire undo w3 = Ret w4
    ∧ document w4 = Some sampleEntry.
Proof.
  destruct (bucket_click_takes_two_undos 0 0 (sampleWorld bucket) sampleLayer)
    as (w2 & w3 & w4 & E2 & _ & E3 & Hd3 & E4 & Hd4 & _).
  - sample_Inv.
  - reflexivity.
  - sample_inside.
  - reflexivity.
  - reflexivity.
  - reflexivity.
  - exists w2, w3, w4. split; [exact E2|].
    split; [vm_compute in E2; injection E2 as <-; reflexivity|].
    split; [exact E3|]. split; [rewrite Hd3; reflexivity|].
    split; [exact E4|]. rewrite Hd4. reflexivity.
Defined.

(** X18.  A second click with the bucket on the same cell, with the same
    colour selected, changes no cell of any layer: after the first click the
    cell has the selected colour, so the second fill returns at once.  (It
    still adds an entry to the history.) *)
Theorem bucket_twice x y w L :
  Inv w →
  inside (st_gridSize (ui w)) (x, y) →
  st_tool (ui w) = bucket →
  let li := findIndex (λ l, bool_decide (id l = st_activeLayerId (ui w))) (st_layers (ui w)) in
  js_get (st_layers (ui w)) li = Some L →
  visible L = true →
  ∃ w1 w2,
    fire (λ st, handleDraw st x y true) w = Ret w1
    ∧ layerCell (heap w1) L (x, y) = Some (st_selectedColor (ui w))
    ∧ fire (λ st, handleDraw st x y true) w1 = Ret w2
    ∧ st_layers (ui w2) = st_layers (ui w1)
    ∧ (∀ l q, l ∈ st_layers (ui w1) → layerCell (heap w2) l q = layerCell (heap w1) l q)
    ∧ document w2 = document w1.
Proof.
  intros HI Hin Htool li HL Hvis.
  destruct (bucket_click_run w x y L HI Hin Htool HL Hvis)
    as (w1 & e & g & g' & E1 & HI1 & _ & _ & _ & Hls1 & Ha1 & Hc1 & Ht1 & Hn1 & Hg & Hh1 & Hcell & _).
  assert (Hlt : (grid L < length (heap w ++ [g]))%nat).
  { rewrite length_app. apply lookup_lt_Some in Hg. lia. }
  assert (Hg1 : heap w1 !! grid L = Some g') by (rewrite Hh1; by apply list_lookup_insert_eq).
  destruct (bucket_click_run w1 x y L HI1) as
    (w2 & e2 & g1 & g2 & E2 & HI2 & _ & _ & _ & Hls2 & _ & _ & _ & _ & Hg1' & Hh2 & _ & Hsame);
    [by rewrite Hn1|done|by rewrite Hls1, Ha1|done|].
  assert (g1 = g') as -> by congruence.
  rewrite Hc1 in Hsame. rewrite (Hsame Hcell) in Hh2.
  assert (Hsub : ∀ k gk, heap w1 !! k = Some gk → heap w2 !! k = Some gk).
  { intros k gk Hk. rewrite Hh2. destruct (decide (k = grid L)) as [->|Hne].
    - rewrite list_lookup_insert_eq; [congruence|].
      rewrite length_app. apply lookup_lt_Some in Hk. lia.
    - rewrite list_lookup_insert_ne by done. by apply heap_grow. }
  exists w1, w2. split; [done|]. split; [by unfold layerCell; rewrite Hg1|].
  split; [done|]. split; [done|]. split.
  - intros l q Hl. apply layerCell_weaken; [done|].
    apply list_elem_of_lookup in Hl as [j Hj].
    destruct (wf_layers_lookup _ _ _ _ _ (proj1 (proj1 HI1)) Hj) as (gl & -> & _). by eexists.
  - destruct (freezeAll_wf _ _ _ (proj1 (proj1 HI1))) as [vs Hvs].
    unfold document. rewrite Hls2, Hvs, (freezeAll_weaken _ _ _ _ Hsub Hvs).
    destruct (bucket_click_run w1 x y L HI1) as (w2' & _ & _ & _ & E2' & _ & _ & _ & _ & _ & _ & _ & _ & Hn2 & _);
      [by rewrite Hn1|done|by rewrite Hls1, Ha1|done|].
    assert (w2' = w2) as -> by congruence. by rewrite Hn2.
Qed.

(** Two bucket clicks on the green corner of the sample grid. *)
Lemma bucket_twice_witness :
  ∃ w1 w2,
    fire (λ st, handleDraw st 0 0 true) (sampleWorld bucket) = Ret w1
    ∧ layerCell (heap w1) sampleLayer (0, 0) = Some yellow
    ∧ fire (λ st, handleDraw st 0 0 true) w1 = Ret w2
    ∧ document w2 = document w1.
Proof.
  destruct (bucket_twice 0 0 (sampleWorld bucket) sampleLayer)
    as (w1 & w2 & E1 & Hc & E2 & _ & _ & Hd).
  - sample_Inv.
  - sample_inside.
  - reflexivity.
  - reflexivity.
  - reflexivity.
  - exists w1, w2. split; [exact E1|]. split; [exact Hc|]. split; [exact E2|exact Hd].
Defined.

(** * Export *)

(** X19.  On a well-formed document [handleExport] returns and leaves the
    state alone; it first paints the whole canvas white, and every rectangle
    it paints afterwards lies on the canvas, whose width and height are 20
    times the grid size. *)
Theorem export_stays_on_canvas w :
  wf w → 0 ≤ st_gridSize (ui w) →
  ∃ ops rest,
    handleExport (ui w) w = Ret (ops, w)
    ∧ ops = FillStyle "#ffffff"
              :: FillRect 0 0 (st_gridSize (ui w) * scale) (st_gridSize (ui w) * scale) :: rest
    ∧ Forall (onCanvas (st_gridSize (ui w) * scale)) ops.
Proof.
  intros Hwf Hn. destruct (handleExport_run w Hwf) as (drawn & E & _ & Hon).
  eexists _, _. split; [exact E|]. split; [done|].
  apply Forall_cons. split; [done|]. apply Forall_cons. split; [|done].
  unfold onCanvas, scale. lia.
Qed.

(** The export of the sample document: nine calls on a canvas of 40 by 40. *)
Lemma export_stays_on_canvas_witness :
  ∃ ops,
    handleExport (ui (sampleWorld pencil)) (sampleWorld pencil) = Ret (ops, sampleWorld pencil)
    ∧ Forall (onCanvas 40) ops
    ∧ length ops = 9%nat.
Proof.
  destruct (export_stays_on_canvas (sampleWorld pencil)) as (ops & rest & E & Hops & Hon).
  - sample_wf.
  - simpl. lia.
  - exists ops. split; [exact E|]. split; [exact Hon|].
    vm_compute in E. injection E as <-. reflexivity.
Defined.

(** X20.  The export shows what the picker picks.  With the picker on a cell
    and the active layer visible, either the picker selects a colour and the
    last rectangle that the export paints over every pixel of that cell has
    this colour, or the picker changes nothing and the export leaves the
    white background on the cell. *)
Theorem export_paints_what_picker_picks w x y px isClick L :
  wf w →
  inside (st_gridSize (ui w)) (x, y) →
  pixelOf (x, y) px →
  st_tool (ui w) = picker →
  let li := findIndex (λ l, bool_decide (id l = st_activeLayerId (ui w))) (st_layers (ui w)) in
  js_get (st_layers (ui w)) li = Some L →
  visible L = true →
  ∃ ops,
    handleExport (ui w) w = Ret (ops, w)
    ∧ ((∃ c, c ≠ EmptyString
             ∧ fire (λ st, handleDraw st x y isClick) w
               = Ret (mkWorld (heap w) (with_tool pencil (with_selectedColor c (ui w))))
             ∧ lastFill ops px = Some c)
       ∨ (fire (λ st, handleDraw st x y isClick) w = Ret w
          ∧ lastFill ops px = Some "#ffffff")).
Proof.
  intros Hwf Hin Hpx Htool li HL Hvis.
  destruct (handleExport_run w Hwf) as (drawn & E & Hpaint & _).
  eexists. split; [exact E|]. rewrite (lastFill_export w drawn (x, y) px Hin Hpx Hpaint).
  destruct (picker_run w x y isClick Hwf Hin Htool) as (Hpick & _).
  destruct (Hpick L HL Hvis) as [(i & l & c & Hl & Hv & Hc & Hne & Habove & Efire)|[Hall Efire]].
  - left. exists c. split; [done|]. split; [done|]. by eapply topColor_pick.
  - right. split; [done|]. by apply topColor_passed.
Qed.

(** The export of two layers with the top one hidden shows the green of the bottom layer. *)
Lemma export_paints_what_picker_picks_witness :
  ∃ ops,
    handleExport (ui (twoLayers "layer-1" picker)) (twoLayers "layer-1" picker)
    = Ret (ops, twoLayers "layer-1" picker)
    ∧ lastFill ops (5, 5) = Some green
    ∧ st_selectedColor (ui (twoLayers "layer-1" picker)) ≠ green.
Proof.
  destruct (export_paints_what_picker_picks (twoLayers "layer-1" picker) 0 0 (5, 5) true
              sampleLayer) as (ops & E & Hcases).
  - sample_wf.
  - sample_inside.
  - split; simpl; unfold scale; lia.
  - reflexivity.
  - reflexivity.
  - reflexivity.
  - exists ops. split; [exact E|]. split; [|discriminate].
    vm_compute in E. injection E as <-. reflexivity.
Defined.

(** * Zoom *)

(** X21.  On a zoom of [k] quarters, with [k] between 2 and 12 (the zoom
    starts at 4 quarters), zooming in gives [k + 1] quarters, at most 12, and
    zooming out gives [k - 1] quarters, at least 2: the zoom stays a whole
    number of quarters between 0.5 and 3. *)
Theorem zoom_in_quarters z k :
  2 ≤ k ≤ 12 → (z == quarters k)%Q →
  (handleZoomIn z == quarters (Z.min (k + 1) 12))%Q
  ∧ (handleZoomOut z == quarters (Z.max (k - 1) 2))%Q.
Proof.
  intros [Hlo Hhi] Hz. unfold quarters in *.
  assert (Hlo' : (inject_Z 2 <= inject_Z k)%Q) by by rewrite <- Zle_Qle.
  assert (Hhi' : (inject_Z k <= inject_Z 12)%Q) by by rewrite <- Zle_Qle.
  change (inject_Z 2) with 2%Q in Hlo'. change (inject_Z 12) with 12%Q in Hhi'.
  split.
  - unfold handleZoomIn. destruct (decide (k + 1 ≤ 12)) as [Hk|Hk].
    + rewrite Z.min_l by done. rewrite inject_Z_plus. change (inject_Z 1) with 1%Q.
      assert (Hk' : (inject_Z k <= inject_Z 11)%Q) by (rewrite <- Zle_Qle; lia).
      change (inject_Z 11) with 11%Q in Hk'.
      rewrite Q.min_l by lra. lra.
    + rewrite Z.min_r by lia. assert (k = 12) as -> by lia.
      change (inject_Z 12) with 12%Q in *. rewrite Q.min_r by lra. lra.
  - unfold handleZoomOut. destruct (decide (2 ≤ k - 1)) as [Hk|Hk].
    + rewrite Z.max_l by done. replace (k - 1) with (k + -1) by lia.
      rewrite inject_Z_plus. change (inject_Z (-1)) with (-1)%Q.
      assert (Hk' : (inject_Z 3 <= inject_Z k)%Q) by (rewrite <- Zle_Qle; lia).
      change (inject_Z 3) with 3%Q in Hk'.
      rewrite Q.max_l by lra. lra.
    + rewrite Z.max_r by lia. assert (k = 2) as -> by lia.
      change (inject_Z 2) with 2%Q in *. rewrite Q.max_r by lra. lra.
Qed.

(** From the initial zoom 1. *)
Lemma zoom_in_quarters_witness :
  (handleZoomIn 1 == 1.25)%Q ∧ (handleZoomOut 1 == 0.75)%Q.
Proof.
  destruct (zoom_in_quarters 1 4) as [Hin Hout].
  - lia.
  - reflexivity.
  - split; [rewrite Hin|rewrite Hout]; reflexivity.
Defined.
